(** * vkcs_db_cluster_with_shards: create, read, update and delete

    A shallow embedding of the sharded database cluster resource
    (package [db], functions [resourceDatabaseClusterWithShardsCreate],
    [resourceDatabaseClusterWithShardsRead],
    [resourceDatabaseClusterWithShardsUpdate],
    [resourceDatabaseClusterWithShardsDelete] and
    [databaseClusterWithShardsUpdateProcessError]) together with the
    properties its specification states about them.

    Conventions of the embedding:
    - a Go [int] is a [Z] kept in the 64-bit signed range, arithmetic
      wraps ([int_add], [int_sub]);
    - a Go [string] is a [string] whose characters are its bytes;
    - a [map[string]interface{}] read through fixed keys and type
      assertions is a record with one field per key;
    - a function that returns [diag.Diagnostics] after talking to the
      control plane is a state transformer over the remote world [W],
      the resource data object and a ghost log of the calls made;
    - helpers, constants and SDK functions that are declared outside the
      translated file are fields of the classes [Extractors],
      [Constants], [Remote], [ReadHelpers] and [Actions]. *)

From Stdlib Require Import ZArith Lia.
From Stdlib Require Import Structures.OrderedTypeEx.
From stdpp Require Import base list strings gmap sorting.

Open Scope Z_scope.
Open Scope string_scope.
Open Scope list_scope.

(* ===================================================================== *)
(** ** Go integers *)
(* ===================================================================== *)

Module GoInt.

Definition int_min : Z := - 2 ^ 63.
Definition int_max : Z := 2 ^ 63 - 1.

(** The values of type [int] on a 64-bit target. *)
Definition int_range (z : Z) : Prop := int_min <= z <= int_max.

(** Two's complement wrap-around of an unbounded result. *)
Definition wrap (z : Z) : Z := (z + 2 ^ 63) mod 2 ^ 64 - 2 ^ 63.

Definition int_add (a b : Z) : Z := wrap (a + b).
Definition int_sub (a b : Z) : Z := wrap (a - b).

End GoInt.
Import GoInt.

(* ===================================================================== *)
(** ** Go strings: the functions of package [strings] the code calls *)
(* ===================================================================== *)

Module GoStrings.

(** [strings.HasPrefix s p]. *)
Fixpoint HasPrefix (s p : string) : bool :=
  match p, s with
  | EmptyString, _ => true
  | String _ _, EmptyString => false
  | String b p', String a s' =>
      if Ascii.eqb a b then HasPrefix s' p' else false
  end.

(** [s[n:]] for [n <= len(s)]. *)
Fixpoint drop_bytes (n : nat) (s : string) : string :=
  match n, s with
  | O, _ => s
  | S _, EmptyString => EmptyString
  | S n', String _ s' => drop_bytes n' s'
  end.

(** [strings.Replace(s, old, new, 1)]: the first occurrence of [old]
    is replaced; an empty [old] matches at the beginning of [s]; when
    [old] does not occur, [s] is returned. *)
Fixpoint Replace1 (s old new : string) : string :=
  if HasPrefix s old then new +:+ drop_bytes (String.length old) s
  else match s with
       | EmptyString => EmptyString
       | String a s' => String a (Replace1 s' old new)
       end.



End GoStrings.
Import GoStrings.

(* ===================================================================== *)
(** ** Go errors and SDK diagnostics *)
(* ===================================================================== *)

Module GoErrors.

(** The package-level error values that
    [databaseClusterWithShardsUpdateProcessError] switches on.  They are
    declared with [errors.New] outside the translated file; an interface
    comparison [baseErr == errX] holds for that very value only. *)
Inductive sentinel : Type :=
| errDBClusterNotFound
| errDBClusterShardNotFound
| errDBClusterUpdateWait
| errDBClusterUpdateDiskAutoexpand
| errDBClusterUpdateDiskAutoexpandExtract
| errDBClusterUpdateWalDiskAutoexpand
| errDBClusterUpdateWalDiskAutoexpandExtract
| errDBClusterUpdateCloudMonitoring
| errDBClusterActionUpdateConfiguration
| errDBClusterActionApplyCapabitilies
| errDBClusterActionApplyCapabilitiesExtract
| errDBClusterActionResizeWalVolumeExtract
| errDBClusterActionGrow
| errDBClusterActionShrink
| errDBClusterActionShrinkWrongOptions
| errDBClusterActionShrinkInstancesExtract
| errDBClusterActionResizeVolume
| errDBClusterActionResizeWalVolume
| errDBClusterActionResizeFlavor.

#[global] Instance sentinel_eq_dec : EqDecision sentinel.
Proof. solve_decision. Defined.

(** A non-nil [error]: one of the sentinels, some other value without
    [Unwrap], or a value whose [Unwrap] yields [inner] and whose
    [Error()] text is [msg] (what [fmt.Errorf] builds with [%w]). *)
Inductive error : Type :=
| ErrSentinel (s : sentinel)
| ErrOther (msg : string)
| ErrWrap (msg : string) (inner : error).

(** [errors.Unwrap]: one layer, [None] standing for [nil]. *)
Definition Unwrap (e : error) : option error :=
  match e with
  | ErrWrap _ inner => Some inner
  | _ => None
  end.

Inductive severity : Type := SevError | SevWarning.

Record Diagnostic : Type := mkDiagnostic {
  Severity : severity;
  Summary : string;
}.

Definition Diagnostics : Type := list Diagnostic.

#[global] Instance severity_eq_dec : EqDecision severity.
Proof. solve_decision. Defined.
#[global] Instance Diagnostic_eq_dec : EqDecision Diagnostic.
Proof. solve_decision. Defined.

(** [diag.Errorf] once the format has been rendered to [text]: a single
    diagnostic of severity Error. *)
Definition diag_Error (text : string) : Diagnostics :=
  [ {| Severity := SevError; Summary := text |} ].

Definition HasError (ds : Diagnostics) : bool :=
  bool_decide (Exists (fun x => Severity x = SevError) ds).

End GoErrors.
Import GoErrors.

(* ===================================================================== *)
(** ** The resource schema as data *)
(* ===================================================================== *)

(** One record per nested block of the schema; the field names are the
    schema keys.  Each record lives in a module of its own so that keys
    shared by several blocks ([size], [volume_type]) keep their name. *)

Module WalVolume.
Record t : Type := mk { size : Z; volume_type : string }.
#[global] Instance wal_volume_eq_dec : EqDecision t.
Proof. solve_decision. Defined.
End WalVolume.

Module Network.
Record t : Type := mk {
  uuid : string;
  port : string;
  subnet_id : string;
  security_groups : list string;
}.
#[global] Instance network_eq_dec : EqDecision t.
Proof. solve_decision. Defined.
End Network.

Module InstanceInfo.
Record t : Type := mk { instance_id : string; ip : list string }.
#[global] Instance instance_info_eq_dec : EqDecision t.
Proof. solve_decision. Defined.
End InstanceInfo.

Module Shard.
Record t : Type := mk {
  shard_id : string;
  size : Z;
  shrink_options : list string;
  flavor_id : string;
  volume_size : Z;
  volume_type : string;
  wal_volume : list WalVolume.t;
  network : list Network.t;
  availability_zone : string;
  instances : list InstanceInfo.t;
}.
#[global] Instance shard_eq_dec : EqDecision t.
Proof. solve_decision. Defined.

(** What [d.Get] yields under an index the list does not have. *)
Definition zero : t :=
  mk "" 0 [] "" 0 "" [] [] "" [].

Definition with_shrink_options (o : list string) (s : t) : t :=
  mk (shard_id s) (size s) o (flavor_id s) (volume_size s)
     (volume_type s) (wal_volume s) (network s) (availability_zone s)
     (instances s).
End Shard.

Module Datastore.
Record t : Type := mk { version : string; type : string }.
#[global] Instance datastore_eq_dec : EqDecision t.
Proof. solve_decision. Defined.
End Datastore.

Module AutoExpand.
Record t : Type := mk { autoexpand : bool; max_disk_size : Z }.
#[global] Instance auto_expand_eq_dec : EqDecision t.
Proof. solve_decision. Defined.
End AutoExpand.

Module Capability.
Record t : Type := mk { name : string; settings : gmap string string }.
#[global] Instance capability_eq_dec : EqDecision t.
Proof. solve_decision. Defined.
End Capability.

Module RestorePoint.
Record t : Type := mk { backup_id : string }.
#[global] Instance restore_point_eq_dec : EqDecision t.
Proof. solve_decision. Defined.
End RestorePoint.

Module Cluster.
Record t : Type := mk {
  region : string;
  name : string;
  datastore : list Datastore.t;
  configuration_id : string;
  root_enabled : bool;
  root_password : string;
  floating_ip_enabled : bool;
  keypair : string;
  disk_autoexpand : list AutoExpand.t;
  wal_disk_autoexpand : list AutoExpand.t;
  capabilities : list Capability.t;
  restore_point : list RestorePoint.t;
  cloud_monitoring_enabled : bool;
  shard : list Shard.t;
}.
#[global] Instance cluster_eq_dec : EqDecision t.
Proof. solve_decision. Defined.

Definition with_shard (l : list Shard.t) (c : t) : t :=
  mk (region c) (name c) (datastore c) (configuration_id c)
     (root_enabled c) (root_password c) (floating_ip_enabled c)
     (keypair c) (disk_autoexpand c) (wal_disk_autoexpand c)
     (capabilities c) (restore_point c) (cloud_monitoring_enabled c) l.
End Cluster.

(* ===================================================================== *)
(** ** [schema.ResourceData] *)
(* ===================================================================== *)

Module SDK.

(** [schema.ResourceTimeout]: durations in nanoseconds, [None] for a
    nil pointer. *)
Record ResourceTimeout : Type := mkTimeouts {
  Create : option Z;
  Read : option Z;
  Update : option Z;
  Delete : option Z;
  Default : option Z;
}.

Inductive TimeoutKey : Type :=
| TimeoutCreate | TimeoutRead | TimeoutUpdate | TimeoutDelete
| TimeoutDefault.

(** The resource data handed to the CRUD functions: the identifier, the
    prior state, the values [d.Get] reads (planned values, later
    overwritten by [d.Set]) and the timeouts block. *)
Record ResourceData : Type := mkData {
  Id : string;
  prior : Cluster.t;
  current : Cluster.t;
  timeouts : option ResourceTimeout;
}.

Definition minute : Z := 60 * 1000000000.

(** [ResourceData.Timeout] of the SDK: the entry of the key, else the
    [Default] entry, else twenty minutes. *)
Definition Timeout (d : ResourceData) (key : TimeoutKey) : Z :=
  let defaultTimeout := 20 * minute in
  match timeouts d with
  | None => defaultTimeout
  | Some t =>
      let timeout :=
        match key with
        | TimeoutCreate => Create t
        | TimeoutRead => Read t
        | TimeoutUpdate => Update t
        | TimeoutDelete => Delete t
        | TimeoutDefault => Default t
        end in
      match timeout with
      | Some x => x
      | None =>
          match Default t with
          | Some x => x
          | None => defaultTimeout
          end
      end
  end.

(** [d.Get("shard.<i>")]: the zero shard under an absent index. *)
Definition shardAt (c : Cluster.t) (i : nat) : Shard.t :=
  default Shard.zero (Cluster.shard c !! i).

(** [d.HasChange(key)] for a top-level key read by [f]. *)
Definition HasChange {A} `{EqDecision A} (f : Cluster.t -> A)
    (d : ResourceData) : bool :=
  bool_decide (f (prior d) <> f (current d)).

(** [d.HasChange("shard.<i>.<key>")] for a shard key read by [f]. *)
Definition HasChangeAt {A} `{EqDecision A} (i : nat) (f : Shard.t -> A)
    (d : ResourceData) : bool :=
  bool_decide (f (shardAt (prior d) i) <> f (shardAt (current d) i)).

(** [d.GetChange("shard.<i>.<key>")]. *)
Definition GetChangeAt {A} (i : nat) (f : Shard.t -> A)
    (d : ResourceData) : A * A :=
  (f (shardAt (prior d) i), f (shardAt (current d) i)).

(** [d.GetOk] on a string and on a list: the value and whether it
    differs from the zero value. *)
Definition GetOk_string (v : string) : string * bool :=
  (v, bool_decide (v <> "")).
Definition GetOk_list {A} (v : list A) : list A * bool :=
  (v, match v with [] => false | _ => true end).

End SDK.
Import SDK.

(* ===================================================================== *)
(** ** What the translated file takes from the rest of the provider *)
(* ===================================================================== *)

(** Request structures of packages [clusters] and [instances], with the
    fields the translated code assigns. *)
Module Api.

Record Volume : Type := mkVolume { Size : Z; VolumeType : string }.
Record WalVolumeOpts : Type :=
  mkWalVolumeOpts { WalSize : Z; WalVolumeType : string }.
Record AutoExpandOpts : Type :=
  mkAutoExpandOpts { AutoExpand : bool; MaxDiskSize : Z }.

(** [clusters.InstanceCreateOpts]; [Volume] and [Walvolume] are
    pointers, [None] is nil. *)
Record InstanceCreateOpts (NetworkOpts : Type) : Type :=
  mkInstanceCreateOpts {
    Keypair : string;
    AvailabilityZone : string;
    FlavorRef : string;
    Nics : list NetworkOpts;
    Volume_ : option Volume;
    Walvolume : option Volume;
    ShardID : string;
    SecurityGroups : list string;
  }.
Arguments mkInstanceCreateOpts {NetworkOpts}.
Arguments Keypair {NetworkOpts}.
Arguments AvailabilityZone {NetworkOpts}.
Arguments FlavorRef {NetworkOpts}.
Arguments Nics {NetworkOpts}.
Arguments Volume_ {NetworkOpts}.
Arguments Walvolume {NetworkOpts}.
Arguments ShardID {NetworkOpts}.
Arguments SecurityGroups {NetworkOpts}.

(** The zero value [make] fills a fresh slice with. *)
Definition zeroInstance {NetworkOpts} : InstanceCreateOpts NetworkOpts :=
  mkInstanceCreateOpts "" "" "" [] None None "" [].

Definition set_Keypair {NetworkOpts} (k : string)
    (o : InstanceCreateOpts NetworkOpts) : InstanceCreateOpts NetworkOpts :=
  mkInstanceCreateOpts k (AvailabilityZone o) (FlavorRef o) (Nics o)
    (Volume_ o) (Walvolume o) (ShardID o) (SecurityGroups o).

Definition set_Walvolume {NetworkOpts} (w : option Volume)
    (o : InstanceCreateOpts NetworkOpts) : InstanceCreateOpts NetworkOpts :=
  mkInstanceCreateOpts (Keypair o) (AvailabilityZone o) (FlavorRef o)
    (Nics o) (Volume_ o) w (ShardID o) (SecurityGroups o).

End Api.
Import Api.

(** The [extract...] helpers decode a schema block into a request
    structure.  They and the structures they return are declared in
    other files of the package; a Go result [(T, error)] is [error + T]. *)
Class Extractors : Type := {
  NetworkOpts : Type;
  DataStoreShort : Type;
  RestorePointShort : Type;
  CapabilityOpts : Type;
  extractDatabaseRestorePoint :
    list RestorePoint.t -> error + RestorePointShort;
  extractDatabaseDatastore : list Datastore.t -> error + DataStoreShort;
  extractDatabaseAutoExpand : list AutoExpand.t -> error + AutoExpandOpts;
  extractDatabaseNetworks :
    list Network.t -> list NetworkOpts * list string * option error;
  extractDatabaseWalVolume : list WalVolume.t -> error + WalVolumeOpts;
  extractDatabaseCapabilities :
    list Capability.t -> error + list CapabilityOpts;
}.

(** Constants of the package that the translated file only names. *)
Class Constants : Type := {
  (** texts of the sentinel errors *)
  sentinel_text : sentinel -> string;
  (** [fmt.Sprintf(format)] without operands, as [diag.Errorf(errMsg)]
      calls it: the identity on a format without a percent sign *)
  Sprintf0 : string -> string;
  getClusterWithShardsDatastores : list string;
  dbCreateTimeout : Z;
  dbDeleteTimeout : Z;
  dbInstanceDelay : Z;
  dbInstanceMinTimeout : Z;
  dbClusterStatusBuild : string;
  dbClusterStatusActive : string;
  dbClusterStatusDeleting : string;
  dbClusterStatusDeleted : string;
  dbImportedStatus : string;
  (** the largest length for which [make] allocates the slice of
      instance descriptors; beyond it the runtime panics *)
  maxSliceLen : Z;
}.

(** Modelled from the spec: the constant [Clickhouse] is declared outside
    the translated file; the specification and the description of the
    [type] attribute both give the accepted datastore as "clickhouse". *)
Definition Clickhouse : string := "clickhouse".

Section Requests.
Context `{EX : Extractors}.

(** [clusters.CreateOpts]. *)
Record CreateOpts : Type := mkCreateOpts {
  Name : string;
  Datastore_ : option DataStoreShort;
  FloatingIPEnabled : bool;
  AutoExpand_ : Z;
  MaxDiskSize_ : Z;
  WalAutoExpand : Z;
  WalMaxDiskSize : Z;
  Instances : list (InstanceCreateOpts NetworkOpts);
  Capabilities : list CapabilityOpts;
  RestorePoint_ : option RestorePointShort;
  CloudMonitoringEnabled : bool;
}.

(** The closure [databaseClusterStateRefreshFunc(client, id, caps)]
    is kept as its three arguments. *)
Record RefreshFunc (Client : Type) : Type := mkRefresh {
  refresh_client : Client;
  refresh_cluster : string;
  refresh_capabilities : option (list CapabilityOpts);
}.

(** [resource.StateChangeConf]. *)
Record StateChangeConf (Client : Type) : Type := mkStateChangeConf {
  Pending : list string;
  Target : list string;
  Refresh : RefreshFunc Client;
  Timeout_ : Z;
  Delay : Z;
  MinTimeout : Z;
}.

End Requests.
Arguments mkRefresh {_ _}.
Arguments mkStateChangeConf {_ _}.
Arguments Pending {_ _}.
Arguments Target {_ _}.
Arguments Refresh {_ _}.
Arguments Timeout_ {_ _}.
Arguments Delay {_ _}.
Arguments MinTimeout {_ _}.

(** The update actions, one constructor per action function called by
    [resourceDatabaseClusterWithShardsUpdate]; the shard-scoped ones
    carry the [shardID] argument. *)
Inductive Action : Type :=
| databaseClusterActionUpdateConfiguration
| databaseClusterUpdateDiskAutoexpand
| databaseClusterUpdateWalDiskAutoexpand
| databaseClusterActionApplyCapabilities
| databaseClusterUpdateCloudMonitoring
| databaseClusterActionResizeVolume (shardID : string)
| databaseClusterActionResizeWalVolume (shardID : string)
| databaseClusterActionResizeFlavor (shardID : string)
| databaseClusterActionGrow (shardID : string)
| databaseClusterActionShrink (shardID : string).

#[global] Instance Action_eq_dec : EqDecision Action.
Proof. solve_decision. Defined.

(** The [shardID] an action is called with, [""] for a cluster-wide one
    (the third argument the update function gives to the error
    processing). *)
Definition action_shard (a : Action) : string :=
  match a with
  | databaseClusterActionResizeVolume s
  | databaseClusterActionResizeWalVolume s
  | databaseClusterActionResizeFlavor s
  | databaseClusterActionGrow s
  | databaseClusterActionShrink s => s
  | _ => ""
  end.

(** The control plane and the SDK calls that reach it.  [W] is the state
    of the remote side; every call may change it. *)
Class Remote `{EX : Extractors} (W : Type) : Type := {
  Client : Type;
  (** [config.DatabaseV1Client(util.GetRegion(d, config))] *)
  DatabaseV1Client : ResourceData -> error + Client;
  (** [clusters.Create(client, opts).Extract()], returning [cluster.ID] *)
  clusters_Create : Client -> CreateOpts -> W -> (error + string) * W;
  (** [clusters.Delete(client, id).ExtractErr()] *)
  clusters_Delete : Client -> string -> W -> option error * W;
  (** [stateConf.WaitForStateContext(ctx)] *)
  WaitForStateContext : StateChangeConf Client -> W -> option error * W;
  (** [instances.AttachConfigurationGroup(client, id, opts).ExtractErr()] *)
  instances_AttachConfigurationGroup :
    Client -> string -> string -> W -> option error * W;
  (** [util.CheckDeleted(d, err, msg)]: it may reset the id of [d] *)
  CheckDeleted : ResourceData -> error -> string -> ResourceData * option error;
}.

(** Responses of [clusters.Get]. *)
Module Resp.

(** [clusters.ClusterInstanceResp]: the fields the read path looks at. *)
Record ClusterInstanceResp : Type := mkInstance {
  ID : string;
  ShardID : string;
  IP : list string;
  WalVolume : option WalVolume.t;
}.

Record ClusterResp (DataStoreResp : Type) : Type := mkCluster {
  Name : string;
  DataStore : DataStoreResp;
  ConfigurationID : string;
  AutoExpand : Z;
  MaxDiskSize : Z;
  WalAutoExpand : Z;
  WalMaxDiskSize : Z;
  Instances : list ClusterInstanceResp;
}.
Arguments Name {_}.
Arguments DataStore {_}.
Arguments ConfigurationID {_}.
Arguments AutoExpand {_}.
Arguments MaxDiskSize {_}.
Arguments WalAutoExpand {_}.
Arguments WalMaxDiskSize {_}.
Arguments Instances {_}.

#[global] Instance ClusterInstanceResp_eq_dec : EqDecision ClusterInstanceResp.
Proof. solve_decision. Defined.

End Resp.

(** A flattened shard: the [map[string]interface{}] that
    [flattenDatabaseClusterShard] builds and the read path completes.
    [wal_volume] and [volume_type] are keys that may be absent. *)
Module FlatShard.
Record t : Type := mk {
  shard_id : string;
  size : Z;
  instances : list InstanceInfo.t;
  flavor_id : string;
  volume_size : Z;
  volume_type : option string;
  wal_volume : option WalVolume.t;
  network : list Network.t;
  availability_zone : string;
}.
#[global] Instance flat_shard_eq_dec : EqDecision t.
Proof. solve_decision. Defined.

(** The element of the [shard] list that [d.Set] stores. *)
Definition to_shard (f : t) : Shard.t :=
  Shard.mk (shard_id f) (size f) [] (flavor_id f) (volume_size f)
    (default "" (volume_type f))
    (match wal_volume f with Some w => [w] | None => [] end)
    (network f) (availability_zone f) (instances f).
End FlatShard.

(** Helpers of the read path that live in other files. *)
Class ReadHelpers `{EX : Extractors} (W : Type) `{RE : !Remote W} : Type := {
  DataStoreResp : Type;
  (** [clusters.Get(client, id).Extract()] *)
  clusters_Get :
    Client -> string -> W -> (error + Resp.ClusterResp DataStoreResp) * W;
  flattenDatabaseInstanceDatastore : DataStoreResp -> list Datastore.t;
  flattenDatabaseInstanceAutoExpand : Z -> Z -> list AutoExpand.t;
  (** the attributes [flattenDatabaseClusterShard] reads off the
      instances of a shard besides its id, size and instance list:
      flavor, volume size and wal volume *)
  flattenShardAttributes :
    list Resp.ClusterInstanceResp -> string * Z * option WalVolume.t;
  (** [d.GetOk("shard.<i>.wal_volume.volume_type")], a path the SDK
      resolves *)
  GetOk_wal_volume_type : ResourceData -> nat -> string * bool;
  (** [checkDBNetworks(rawNetworks, path, diags)], the path given by the
      shard index *)
  checkDBNetworks : list Network.t -> nat -> Diagnostics -> Diagnostics;
}.

(* ===================================================================== *)
(** ** Control flow of the CRUD functions *)
(* ===================================================================== *)

(** How a fragment of a Go function ends: it falls through with a value,
    it returns diagnostics, or the runtime panics. *)
Inductive Res (A : Type) : Type :=
| Val (a : A)
| Ret (ds : Diagnostics)
| Panic.
Arguments Val {A}.
Arguments Ret {A}.
Arguments Panic {A}.

Definition res_bind {A B} (r : Res A) (k : A -> Res B) : Res B :=
  match r with
  | Val a => k a
  | Ret ds => Ret ds
  | Panic => Panic
  end.

Section Monad.
Context `{EX : Extractors} {W : Type} `{RE : !Remote W}.

(** Ghost record of one call that leaves the translated file: a request
    to the control plane, a wait for a state, or one of the action
    functions of the package. *)
Inductive Call : Type :=
| CallCreate (opts : CreateOpts)
| CallDelete (id : string)
| CallGet (id : string)
| CallWait (conf : StateChangeConf Client)
| CallAttachConfiguration (id configuration : string)
| CallAction (a : Action) (conf : StateChangeConf Client).

(** The remote world, the calls made so far (oldest first) and the
    resource data object [d] that all functions share by pointer. *)
Record St : Type := mkSt {
  world : W;
  calls : list Call;
  data : ResourceData;
}.

Definition M (A : Type) : Type := St -> Res A * St.

Definition ret {A} (a : A) : M A := fun st => (Val a, st).
Definition exit {A} (ds : Diagnostics) : M A := fun st => (Ret ds, st).
Definition lift {A} (r : Res A) : M A := fun st => (r, st).

Definition bind {A B} (m : M A) (k : A -> M B) : M B :=
  fun st =>
    match m st with
    | (Val a, st') => k a st'
    | (Ret ds, st') => (Ret ds, st')
    | (Panic, st') => (Panic, st')
    end.

(** A call [f] to the outside, logged as [c]. *)
Definition remote {A} (c : Call) (f : W -> A * W) : M A :=
  fun st =>
    let '(a, w') := f (world st) in
    (Val a, mkSt w' (calls st ++ [c]) (data st)).

(** Reading and overwriting the resource data object. *)
Definition getData : M ResourceData := fun st => (Val (data st), st).
Definition setData (d : ResourceData) : M unit :=
  fun st => (Val tt, mkSt (world st) (calls st) d).

(** The calls a computation adds to the log all satisfy [P]. *)
Definition adds (P : Call -> Prop) {A} (m : M A) : Prop :=
  forall st, exists more, calls (m st).2 = calls st ++ more /\ Forall P more.




(** The call is a [clusters.Get]. *)
Definition is_get (c : Call) : Prop := exists id, c = CallGet id.

(** The body of a function whose result type is [diag.Diagnostics]:
    falling through with [ds] and returning [ds] are the same. *)
Definition body (m : M Diagnostics) : M Diagnostics :=
  fun st =>
    match m st with
    | (Val ds, st') => (Ret ds, st')
    | other => other
    end.

End Monad.

Declare Scope go_scope.
Delimit Scope go_scope with go.
Notation "x <- m ; k" := (bind m (fun x => k))
  (at level 20, m at level 100, k at level 200, only parsing) : go_scope.
Notation "x <~ r ; k" := (res_bind r (fun x => k))
  (at level 20, r at level 100, k at level 200, only parsing) : go_scope.

Open Scope go_scope.

(* ===================================================================== *)
(** ** Create: from the declared shards to the create request *)
(* ===================================================================== *)

Section Translator.
Context `{EX : Extractors} `{KO : Constants}.

Definition message : string :=
  "unable to determine vkcs_db_cluster_with_shards".

Abbreviation Descriptor := (InstanceCreateOpts NetworkOpts).

(** Body of the loop over [shardsRaw]: the entry [shardInfo[i]] built
    from one shard block.  [Keypair] is still the zero value here. *)
Definition shardInfoOf (shardMap : Shard.t) : Res Descriptor :=
  let volumeSize := Shard.volume_size shardMap in
  let '(nics, securityGroups, _) :=
    extractDatabaseNetworks (Shard.network shardMap) in
  let info :=
    mkInstanceCreateOpts ""
      (Shard.availability_zone shardMap)
      (Shard.flavor_id shardMap)
      nics
      (Some (mkVolume volumeSize (Shard.volume_type shardMap)))
      None
      (Shard.shard_id shardMap)
      securityGroups in
  let walVolumeV := Shard.wal_volume shardMap in
  if bool_decide (0 < length walVolumeV)%nat then
    match extractDatabaseWalVolume walVolumeV with
    | inl _ => Ret (diag_Error (message +:+ " wal_volume"))
    | inr walVolumeOpts =>
        Val (set_Walvolume
               (Some (mkVolume (WalSize walVolumeOpts)
                               (WalVolumeType walVolumeOpts))) info)
    end
  else Val info.

(** The loop over [shardsRaw]: it sums the sizes into [instanceCount]
    and fills [shardsSize] and [shardInfo] index by index. *)
Fixpoint shardLoop (shardsRaw : list Shard.t) (instanceCount : Z)
    (shardsSize : list Z) (shardInfo : list Descriptor)
    : Res (Z * list Z * list Descriptor) :=
  match shardsRaw with
  | [] => Val (instanceCount, shardsSize, shardInfo)
  | shardMap :: rest =>
      let shardSize := Shard.size shardMap in
      info <~ shardInfoOf shardMap;
      shardLoop rest (int_add instanceCount shardSize)
        (shardsSize ++ [shardSize]) (shardInfo ++ [info])
  end.

(** [make([]T, n)]: a negative length panics, and so does one the
    runtime cannot allocate. *)
Definition make_slice {T} (zero : T) (n : Z) : Res (list T) :=
  if bool_decide (n < 0 \/ maxSliceLen < n) then Panic
  else Val (replicate (Z.to_nat n) zero).

(** [s[k] = v]: an index outside [0, len(s)) panics. *)
Definition slice_store {T} (s : list T) (k : Z) (v : T) : Res (list T) :=
  if bool_decide (0 <= k < Z.of_nat (length s))
  then Val (<[Z.to_nat k := v]> s)
  else Panic.

(** [for j := 0; j < shardSize; j++ { clusterInstances[k] = v; k++ }],
    [n] being the number of iterations left. *)
Fixpoint fillShard (n : nat) (v : Descriptor) (k : Z)
    (clusterInstances : list Descriptor) : Res (Z * list Descriptor) :=
  match n with
  | O => Val (k, clusterInstances)
  | S n' =>
      clusterInstances' <~ slice_store clusterInstances k v;
      fillShard n' v (int_add k 1) clusterInstances'
  end.

(** [for i, shardSize := range shardsSize { ... shardInfo[i] ... }];
    both slices have the length of [shardsRaw]. *)
Fixpoint fillAll (sized : list (Z * Descriptor)) (k : Z)
    (clusterInstances : list Descriptor) : Res (Z * list Descriptor) :=
  match sized with
  | [] => Val (k, clusterInstances)
  | (shardSize, info) :: rest =>
      p <~ fillShard (Z.to_nat shardSize) info k clusterInstances;
      fillAll rest p.1 p.2
  end.

(** The instance list of the create request, from the [shard] blocks
    and the [keypair] attribute. *)
Definition clusterInstancesOf (keypair : string)
    (shardsRaw : list Shard.t) : Res (list Descriptor) :=
  p <~ shardLoop shardsRaw 0 [] [];
  let '(instanceCount, shardsSize, shardInfo) := p in
  let shardInfo := map (set_Keypair keypair) shardInfo in
  clusterInstances <~ make_slice zeroInstance instanceCount;
  q <~ fillAll (zip shardsSize shardInfo) 0 clusterInstances;
  Val q.2.

Definition optional {A B} (present : bool) (v : A)
    (extract : A -> error + B) (what : string) : Res (option B) :=
  if present then
    match extract v with
    | inl _ => Ret (diag_Error (message +:+ " " +:+ what))
    | inr x => Val (Some x)
    end
  else Val None.

Definition flag (b : bool) : Z := if b then 1 else 0.

(** Everything [resourceDatabaseClusterWithShardsCreate] does between
    obtaining the client and calling [clusters.Create]: the request
    and the capabilities the wait checks for. *)
Definition createOptsOf (d : ResourceData)
    : Res (CreateOpts * option (list CapabilityOpts)) :=
  let c := current d in
  restorepoint <~
    optional (GetOk_list (Cluster.restore_point c)).2
      (Cluster.restore_point c) extractDatabaseRestorePoint
      "restore_point";
  datastore <~
    optional (GetOk_list (Cluster.datastore c)).2
      (Cluster.datastore c) extractDatabaseDatastore "datastore";
  autoExpandOpts <~
    optional (GetOk_list (Cluster.disk_autoexpand c)).2
      (Cluster.disk_autoexpand c) extractDatabaseAutoExpand
      "disk_autoexpand";
  walAutoExpandOpts <~
    optional (GetOk_list (Cluster.wal_disk_autoexpand c)).2
      (Cluster.wal_disk_autoexpand c) extractDatabaseAutoExpand
      "wal_disk_autoexpand";
  clusterInstances <~
    clusterInstancesOf (Cluster.keypair c) (Cluster.shard c);
  checkCapabilities <~
    optional (GetOk_list (Cluster.capabilities c)).2
      (Cluster.capabilities c) extractDatabaseCapabilities "capability";
  Val (mkCreateOpts
         (Cluster.name c)
         datastore
         (Cluster.floating_ip_enabled c)
         (from_option (fun o => flag (AutoExpand o)) 0 autoExpandOpts)
         (from_option MaxDiskSize 0 autoExpandOpts)
         (from_option (fun o => flag (AutoExpand o)) 0 walAutoExpandOpts)
         (from_option MaxDiskSize 0 walAutoExpandOpts)
         clusterInstances
         (default [] checkCapabilities)
         restorepoint
         (Cluster.cloud_monitoring_enabled c),
       checkCapabilities).

(** *** The translation in the words of the specification *)

(** The descriptor every instance of a shard carries: the shard's
    flavor, volume, WAL volume when one is declared, network,
    availability zone and id, and the keypair of the cluster. *)
Definition shard_descriptor (keypair : string) (s : Shard.t) : Descriptor :=
  mkInstanceCreateOpts keypair
    (Shard.availability_zone s)
    (Shard.flavor_id s)
    (extractDatabaseNetworks (Shard.network s)).1.1
    (Some (mkVolume (Shard.volume_size s) (Shard.volume_type s)))
    (match Shard.wal_volume s with
     | [] => None
     | w =>
         match extractDatabaseWalVolume w with
         | inr o => Some (mkVolume (WalSize o) (WalVolumeType o))
         | inl _ => None
         end
     end)
    (Shard.shard_id s)
    (extractDatabaseNetworks (Shard.network s)).1.2.

(** [size] copies of the descriptor per shard, shard after shard. *)
Definition translate_spec (keypair : string) (shards : list Shard.t)
    : list Descriptor :=
  shards ≫= (fun s => replicate (Z.to_nat (Shard.size s))
                                  (shard_descriptor keypair s)).

Definition total_size (shards : list Shard.t) : Z :=
  foldr (fun s acc => Shard.size s + acc) 0 shards.

(** The WAL block of the shard is absent or decodes. *)
Definition wal_decodes (s : Shard.t) : Prop :=
  Shard.wal_volume s = [] \/
  exists o, extractDatabaseWalVolume (Shard.wal_volume s) = inr o.

End Translator.


(* ===================================================================== *)
(** ** Schema functions *)
(* ===================================================================== *)

Section SchemaFunctions.
Context `{KO : Constants}.

(** [%v] of a [[]string]. *)
Definition render_strings (l : list string) : string :=
  "[" +:+ String.concat " " l +:+ "]".

(** [ValidateFunc] of [datastore.type]: warnings and errors. *)
Definition datastore_type_ValidateFunc (val : string) (key : string)
    : list string * list error :=
  let v := val in
  if bool_decide (v <> Clickhouse) then
    ([], [ErrOther ("datastore type must be "
                    +:+ render_strings getClusterWithShardsDatastores
                    +:+ ", got: " +:+ v)])
  else ([], []).

(** [DiffSuppressFunc] of [shard.shrink_options]. *)
Definition shrink_options_DiffSuppressFunc (k old new : string)
    (d : ResourceData) : bool := true.

(** The [Timeouts] block of the resource. *)
Definition resource_Timeouts : ResourceTimeout :=
  mkTimeouts (Some dbCreateTimeout) None None (Some dbDeleteTimeout) None.

(** [err.Error()]. *)
Definition Error (e : error) : string :=
  match e with
  | ErrSentinel s => sentinel_text s
  | ErrOther msg => msg
  | ErrWrap msg _ => msg
  end.

(** [diag.FromErr]: nothing for nil. *)
Definition FromErr (e : option error) : Diagnostics :=
  match e with
  | Some err => diag_Error (Error err)
  | None => []
  end.

End SchemaFunctions.

(* ===================================================================== *)
(** ** Read: the shard list from the remote instances *)
(* ===================================================================== *)

Section Read.
Context `{EX : Extractors} `{KO : Constants} {W : Type} `{RE : !Remote W} `{RH : !ReadHelpers W}.

(** Modelled from the spec: [getDatabaseClusterShardInstances] is
    declared outside the translated file; the specification has the
    reconciler "group remote instances by shard id".  Each instance is
    appended to the group of its shard id. *)
Definition getDatabaseClusterShardInstances
    (instances : list Resp.ClusterInstanceResp)
    : gmap string (list Resp.ClusterInstanceResp) :=
  foldl (fun m inst =>
           <[Resp.ShardID inst :=
               default [] (m !! Resp.ShardID inst) ++ [inst]]> m)
        ∅ instances.

(** Modelled from the spec: [flattenDatabaseClusterShard] is declared
    outside the translated file; the specification has, "for each group,
    compute size = len(instances)", and an output that carries the
    instance identities, the shard id, the count and the IP addresses. *)
Definition flattenDatabaseClusterShard (shardID : string)
    (insts : list Resp.ClusterInstanceResp) : FlatShard.t :=
  let '(flavor, volumeSize, wal) := flattenShardAttributes insts in
  FlatShard.mk shardID (Z.of_nat (length insts))
    (map (fun i => InstanceInfo.mk (Resp.ID i) (Resp.IP i)) insts)
    flavor volumeSize None wal [] "".

(** Modelled from the spec: [flattenDatabaseClusterShards] is declared
    outside the translated file: one flattened shard per group.  Go
    ranges over the map in an unspecified order; [map_to_list] is one
    such order, and the sort that follows makes the order irrelevant. *)
Definition flattenDatabaseClusterShards
    (shardsInstances : gmap string (list Resp.ClusterInstanceResp))
    : list FlatShard.t :=
  map (fun p => flattenDatabaseClusterShard p.1 p.2)
      (map_to_list shardsInstances).

(** The closure given to [sort.Slice]. *)
Definition shard_id_less (a b : FlatShard.t) : bool :=
  String.ltb (FlatShard.shard_id a) (FlatShard.shard_id b).

(** [sort.Slice(l, less)].  The Go sort is not stable; a merge sort that
    never puts an element before one that is less than it is one of its
    results, and the only one when no two elements are equivalent. *)
Definition not_after {A} (less : A -> A -> bool) (a b : A) : Prop :=
  less b a = false.

#[global] Instance not_after_dec {A} (less : A -> A -> bool) (a b : A)
  : Decision (not_after less a b).
Proof. unfold not_after. apply _. Defined.

Definition sort_Slice {A} (less : A -> A -> bool) (l : list A) : list A :=
  merge_sort (not_after less) l.

(** The inner loop of [OuterLoop]: is there a declared shard with the id
    of [fSh]? *)
Definition declared (rawShards : list Shard.t) (fSh : FlatShard.t) : bool :=
  existsb (fun rawShMap =>
             bool_decide (FlatShard.shard_id fSh = Shard.shard_id rawShMap))
          rawShards.

(** [OuterLoop]: every flattened shard goes to [shards] when its id is
    declared and to [newShards] otherwise. *)
Fixpoint OuterLoop (flattenedShards : list FlatShard.t)
    (rawShards : list Shard.t) (shards newShards : list FlatShard.t)
    : list FlatShard.t * list FlatShard.t :=
  match flattenedShards with
  | [] => (shards, newShards)
  | fSh :: rest =>
      if declared rawShards fSh
      then OuterLoop rest rawShards (shards ++ [fSh]) newShards
      else OuterLoop rest rawShards shards (newShards ++ [fSh])
  end.

(** The order in which the read path lists the shards: sort by id, split
    by [OuterLoop], declared ones first. *)
Definition orderShards (flattenedShards : list FlatShard.t)
    (rawShards : list Shard.t) : list FlatShard.t :=
  let flattenedShards := sort_Slice shard_id_less flattenedShards in
  let '(shards, newShards) := OuterLoop flattenedShards rawShards [] [] in
  shards ++ newShards.

(** Body of the loop [for i := range shards]: the attributes the remote
    side does not return are taken from the declared shard at the same
    index. *)
Definition overlayShard (d : ResourceData) (i : nat) (sh : FlatShard.t)
    : FlatShard.t :=
  let availability_zone := Shard.availability_zone (shardAt (current d) i) in
  let network := Shard.network (shardAt (current d) i) in
  let v := GetOk_string (Shard.volume_type (shardAt (current d) i)) in
  let volume_type := if v.2 then Some v.1 else FlatShard.volume_type sh in
  let w := GetOk_wal_volume_type d i in
  let wal_volume :=
    if w.2 then
      match FlatShard.wal_volume sh with
      | Some m => Some (WalVolume.mk (WalVolume.size m) w.1)
      | None => None
      end
    else FlatShard.wal_volume sh in
  FlatShard.mk (FlatShard.shard_id sh) (FlatShard.size sh)
    (FlatShard.instances sh) (FlatShard.flavor_id sh)
    (FlatShard.volume_size sh) volume_type wal_volume network
    availability_zone.

(** The list handed to [d.Set("shard", shards)]. *)
Definition readShards (instances : list Resp.ClusterInstanceResp)
    (d : ResourceData) : list FlatShard.t :=
  let shardsInstances := getDatabaseClusterShardInstances instances in
  let flattenedShards := flattenDatabaseClusterShards shardsInstances in
  imap (overlayShard d) (orderShards flattenedShards (Cluster.shard (current d))).

(** The diagnostics the same loop collects when something changed. *)
Fixpoint networkDiags (hasChanges : bool) (i : nat)
    (shards : list FlatShard.t) (diags : Diagnostics) : Diagnostics :=
  match shards with
  | [] => diags
  | sh :: rest =>
      let diags :=
        if hasChanges
        then checkDBNetworks (FlatShard.network sh) i diags
        else diags in
      networkDiags hasChanges (S i) rest diags
  end.

Definition clientOrExit (d : ResourceData) : Res Client :=
  match DatabaseV1Client d with
  | inl err =>
      Ret (diag_Error ("Error creating VKCS database client: " +:+ Error err))
  | inr client => Val client
  end.

Definition resourceDatabaseClusterWithShardsRead : M Diagnostics :=
  body (
    d <- getData;
    client <- lift (clientOrExit d);
    r <- remote (CallGet (Id d)) (clusters_Get client (Id d));
    cluster <- match r with
               | inl err =>
                   let r :=
                     CheckDeleted d err
                       "error retrieving vkcs_db_cluster_with_shards" in
                   u <- setData r.1;
                   exit (FromErr r.2)
               | inr cluster => ret cluster
               end;
    let c := current d in
    let c :=
      Cluster.mk (Cluster.region c)
        (Resp.Name cluster)
        (flattenDatabaseInstanceDatastore (Resp.DataStore cluster))
        (Resp.ConfigurationID cluster)
        (Cluster.root_enabled c) (Cluster.root_password c)
        (Cluster.floating_ip_enabled c) (Cluster.keypair c)
        (if (GetOk_list (Cluster.disk_autoexpand c)).2
         then flattenDatabaseInstanceAutoExpand
                (Resp.AutoExpand cluster) (Resp.MaxDiskSize cluster)
         else Cluster.disk_autoexpand c)
        (if (GetOk_list (Cluster.wal_disk_autoexpand c)).2
         then flattenDatabaseInstanceAutoExpand
                (Resp.WalAutoExpand cluster) (Resp.WalMaxDiskSize cluster)
         else Cluster.wal_disk_autoexpand c)
        (Cluster.capabilities c) (Cluster.restore_point c)
        (Cluster.cloud_monitoring_enabled c) (Cluster.shard c) in
    let d := mkData (Id d) (prior d) c (timeouts d) in
    let hasChanges := bool_decide (prior d <> current d) in
    let shards := readShards (Resp.Instances cluster) d in
    let diags := networkDiags hasChanges 0 shards [] in
    u <- setData (mkData (Id d) (prior d)
                    (Cluster.with_shard (map FlatShard.to_shard shards) c)
                    (timeouts d));
    ret diags).

End Read.

(* ===================================================================== *)
(** ** Create *)
(* ===================================================================== *)

Section Create.
Context `{EX : Extractors} `{KO : Constants} {W : Type} `{RE : !Remote W} `{RH : !ReadHelpers W}.

(** The wait configuration of the create path. *)
Definition createStateConf (d : ResourceData) (client : Client)
    (clusterID : string) (checkCapabilities : option (list CapabilityOpts))
    : StateChangeConf Client :=
  mkStateChangeConf
    [dbClusterStatusBuild]
    [dbClusterStatusActive]
    (mkRefresh client clusterID checkCapabilities)
    (Timeout d TimeoutCreate)
    dbInstanceDelay
    dbInstanceMinTimeout.

Definition SetId (id : string) (d : ResourceData) : ResourceData :=
  mkData id (prior d) (current d) (timeouts d).

Definition resourceDatabaseClusterWithShardsCreate : M Diagnostics :=
  body (
    d <- getData;
    client <- lift (clientOrExit d);
    p <- lift (createOptsOf d);
    let '(createOpts, checkCapabilities) := p in
    r <- remote (CallCreate createOpts) (clusters_Create client createOpts);
    clusterID <- match r with
                 | inl err =>
                     exit (diag_Error
                             ("error creating vkcs_db_cluster_with_shards: "
                              +:+ Error err))
                 | inr id => ret id
                 end;
    let stateConf := createStateConf d client clusterID checkCapabilities in
    e <- remote (CallWait stateConf) (WaitForStateContext stateConf);
    u <- match e with
         | Some err =>
             exit (diag_Error
                     ("error waiting for vkcs_db_cluster_with_shards "
                      +:+ clusterID +:+ " to become ready: " +:+ Error err))
         | None => ret tt
         end;
    let configuration := GetOk_string (Cluster.configuration_id (current d)) in
    u <- (if configuration.2 then
            e <- remote (CallAttachConfiguration clusterID configuration.1)
                   (instances_AttachConfigurationGroup client clusterID
                      configuration.1);
            match e with
            | Some err =>
                exit (diag_Error
                        ("error attaching configuration group "
                         +:+ configuration.1
                         +:+ " to vkcs_db_cluster_with_shards "
                         +:+ clusterID +:+ ": " +:+ Error err))
            | None => ret tt
            end
          else ret tt);
    u <- setData (SetId clusterID d);
    resourceDatabaseClusterWithShardsRead).

End Create.

(* ===================================================================== *)
(** ** Update *)
(* ===================================================================== *)

Section Update.
Context `{EX : Extractors} `{KO : Constants} {W : Type} `{RE : !Remote W} `{RH : !ReadHelpers W}.

(** [dbResourceUpdateContext]; the [context.Context] is left out. *)
Record dbResourceUpdateContext : Type := mkUpdateContext {
  Client_ : Client;
  D : ResourceData;
  StateConf : StateChangeConf Client;
}.

(** The action functions, declared in another file of the package.
    They read the resource data and act on the remote side. *)
Class Actions : Type := {
  runAction : Action -> dbResourceUpdateContext -> W -> option error * W;
}.
Context `{AC : !Actions}.

Definition cluster_text : string := "vkcs_db_cluster_with_shards ".

(** The text the [switch] of the error processing chooses for a
    sentinel. *)
Definition sentinel_message (s : sentinel) (clusterID shardID : string)
    : string :=
  match s with
  | errDBClusterNotFound =>
      "error retrieving " +:+ cluster_text +:+ clusterID
  | errDBClusterShardNotFound =>
      "unable to extract shard from " +:+ cluster_text +:+ clusterID
  | errDBClusterUpdateWait =>
      "error waiting for " +:+ cluster_text +:+ clusterID
      +:+ " to become ready"
  | errDBClusterUpdateDiskAutoexpand =>
      "error updating disk_autoexpand for " +:+ cluster_text +:+ clusterID
  | errDBClusterUpdateDiskAutoexpandExtract =>
      "unable to determine disk_autoexpand fron " +:+ cluster_text
      +:+ clusterID
  | errDBClusterUpdateWalDiskAutoexpand =>
      "error updating wal_disk_autoexpand for " +:+ cluster_text
      +:+ clusterID
  | errDBClusterUpdateWalDiskAutoexpandExtract =>
      "unable to determine wal_disk_autoexpand from " +:+ cluster_text
      +:+ clusterID
  | errDBClusterUpdateCloudMonitoring =>
      "error updating cloud_monitoring_enabled for " +:+ cluster_text
      +:+ clusterID
  | errDBClusterActionUpdateConfiguration =>
      "error updating configuration for " +:+ cluster_text +:+ clusterID
  | errDBClusterActionApplyCapabitilies =>
      "error updating capabilities for " +:+ cluster_text +:+ clusterID
  | errDBClusterActionApplyCapabilitiesExtract =>
      "error extracting capabilities for " +:+ cluster_text +:+ clusterID
  | errDBClusterActionResizeWalVolumeExtract =>
      "unable to determine wal_volume from shard " +:+ shardID +:+ " of "
      +:+ cluster_text +:+ clusterID
  | errDBClusterActionGrow =>
      "error growing shard " +:+ shardID +:+ " of " +:+ cluster_text
      +:+ clusterID
  | errDBClusterActionShrink =>
      "error shrinking shard " +:+ shardID +:+ " of " +:+ cluster_text
      +:+ clusterID
  | errDBClusterActionShrinkWrongOptions =>
      "invalid shrink options for shard " +:+ shardID +:+ " of "
      +:+ cluster_text +:+ clusterID
  | errDBClusterActionShrinkInstancesExtract =>
      "error determining instances to shrink shard " +:+ shardID
      +:+ " of " +:+ cluster_text +:+ clusterID
  | errDBClusterActionResizeVolume =>
      "error resizing volume for shard " +:+ shardID +:+ " of "
      +:+ cluster_text +:+ clusterID
  | errDBClusterActionResizeWalVolume =>
      "error resizing wal_volume for shard " +:+ shardID +:+ " of "
      +:+ cluster_text +:+ clusterID
  | errDBClusterActionResizeFlavor =>
      "error changing flavor for shard " +:+ shardID +:+ " of "
      +:+ cluster_text +:+ clusterID
  end.

(** [baseErr]: the error one layer down when there is one. *)
Definition baseErrOf (err : error) : error :=
  match Unwrap err with
  | Some unwrappedErr => unwrappedErr
  | None => err
  end.

(** [newErrMsg]. *)
Definition newErrMsgOf (baseErr : error) (clusterID shardID : string)
    : string :=
  match baseErr with
  | ErrSentinel s => sentinel_message s clusterID shardID
  | _ => Error baseErr
  end.

(** [errMsg], the format handed to [diag.Errorf]. *)
Definition errMsgOf (err : error) (clusterID shardID : string) : string :=
  let baseErr := baseErrOf err in
  Replace1 (Error err) (Error baseErr) (newErrMsgOf baseErr clusterID shardID).

Definition databaseClusterWithShardsUpdateProcessError (err : error)
    (clusterID : string) (shardID : string) : Diagnostics :=
  diag_Error (Sprintf0 (errMsgOf err clusterID shardID)).

(** The wait configuration every update action receives. *)
Definition updateStateConf (d : ResourceData) (dbClient : Client)
    : StateChangeConf Client :=
  mkStateChangeConf
    [dbClusterStatusBuild]
    [dbClusterStatusActive]
    (mkRefresh dbClient (Id d) None)
    (Timeout d TimeoutCreate)
    dbInstanceDelay
    dbInstanceMinTimeout.

(** [err = action(updateCtx, ...)]. *)
Definition call (a : Action) (updateCtx : dbResourceUpdateContext)
    : M (option error) :=
  remote (CallAction a (StateConf updateCtx)) (runAction a updateCtx).

(** [if err != nil { return ...ProcessError(err, clusterID, shardID) }]. *)
Definition check (err : option error) (clusterID shardID : string) : M unit :=
  match err with
  | Some err =>
      exit (databaseClusterWithShardsUpdateProcessError err clusterID shardID)
  | None => ret tt
  end.

(** [if d.HasChange(key) { err = action(...); if err != nil {...} }]. *)
Definition onChange (changed : bool) (a : Action)
    (updateCtx : dbResourceUpdateContext) (clusterID shardID : string)
    : M unit :=
  if changed then
    err <- call a updateCtx;
    check err clusterID shardID
  else ret tt.

(** The block on [shard.<i>.size]. *)
Definition onSizeChange (i : nat) (updateCtx : dbResourceUpdateContext)
    (clusterID shardID : string) : M unit :=
  let d := D updateCtx in
  if HasChangeAt i Shard.size d then
    let '(old, new) := GetChangeAt i Shard.size d in
    let sizeChange := int_sub new old in
    err <- (if bool_decide (sizeChange > 0) then
              call (databaseClusterActionGrow shardID) updateCtx
            else if bool_decide (sizeChange < 0) then
              call (databaseClusterActionShrink shardID) updateCtx
            else ret None);
    check err clusterID shardID
  else ret tt.

(** Body of the loop over [shardsRaw]. *)
Definition updateShard (i : nat) (shard : Shard.t)
    (updateCtx : dbResourceUpdateContext) (clusterID : string) : M unit :=
  let d := D updateCtx in
  let shardID := Shard.shard_id shard in
  u <- onChange (HasChangeAt i Shard.volume_size d)
         (databaseClusterActionResizeVolume shardID) updateCtx
         clusterID shardID;
  u <- onChange (HasChangeAt i Shard.wal_volume d)
         (databaseClusterActionResizeWalVolume shardID) updateCtx
         clusterID shardID;
  u <- onChange (HasChangeAt i Shard.flavor_id d)
         (databaseClusterActionResizeFlavor shardID) updateCtx
         clusterID shardID;
  onSizeChange i updateCtx clusterID shardID.

(** [for i, shardRaw := range shardsRaw]. *)
Fixpoint updateShards (i : nat) (shardsRaw : list Shard.t)
    (updateCtx : dbResourceUpdateContext) (clusterID : string) : M unit :=
  match shardsRaw with
  | [] => ret tt
  | shardRaw :: rest =>
      u <- updateShard i shardRaw updateCtx clusterID;
      updateShards (S i) rest updateCtx clusterID
  end.

(** The update function up to its final call of the read function.  The
    action functions get the resource data through [updateCtx] and, in
    this embedding, leave it as it is. *)
Definition updateActions : M unit :=
  d <- getData;
  dbClient <- lift (clientOrExit d);
  let clusterID := Id d in
  let stateConf := updateStateConf d dbClient in
  let updateCtx := mkUpdateContext dbClient d stateConf in
  u <- onChange (HasChange Cluster.configuration_id d)
         databaseClusterActionUpdateConfiguration updateCtx clusterID "";
  u <- onChange (HasChange Cluster.disk_autoexpand d)
         databaseClusterUpdateDiskAutoexpand updateCtx clusterID "";
  u <- onChange (HasChange Cluster.wal_disk_autoexpand d)
         databaseClusterUpdateWalDiskAutoexpand updateCtx clusterID "";
  u <- onChange (HasChange Cluster.capabilities d)
         databaseClusterActionApplyCapabilities updateCtx clusterID "";
  u <- onChange (HasChange Cluster.cloud_monitoring_enabled d)
         databaseClusterUpdateCloudMonitoring updateCtx clusterID "";
  let shardsRaw := Cluster.shard (current d) in
  updateShards 0 shardsRaw updateCtx clusterID.

Definition resourceDatabaseClusterWithShardsUpdate : M Diagnostics :=
  body (
    u <- updateActions;
    resourceDatabaseClusterWithShardsRead).

(* ===================================================================== *)
(** ** Delete *)
(* ===================================================================== *)



End Update.

(* ===================================================================== *)
(** ** The update sequence in the words of the specification *)
(* ===================================================================== *)

Section Plan.
Context `{EX : Extractors} `{KO : Constants} {W : Type} `{RE : !Remote W} `{RH : !ReadHelpers W}
        `{AC : !Actions}.

Definition when_changed (changed : bool) (a : Action) : list Action :=
  if changed then [a] else [].

(** One action per changed top-level field, in the fixed priority
    order: configuration attach, disk autoexpand, WAL autoexpand,
    capability application, monitoring toggle. *)
Definition plan_top (d : ResourceData) : list Action :=
  when_changed (HasChange Cluster.configuration_id d)
    databaseClusterActionUpdateConfiguration
  ++ when_changed (HasChange Cluster.disk_autoexpand d)
       databaseClusterUpdateDiskAutoexpand
  ++ when_changed (HasChange Cluster.wal_disk_autoexpand d)
       databaseClusterUpdateWalDiskAutoexpand
  ++ when_changed (HasChange Cluster.capabilities d)
       databaseClusterActionApplyCapabilities
  ++ when_changed (HasChange Cluster.cloud_monitoring_enabled d)
       databaseClusterUpdateCloudMonitoring.

(** At most one size-driven action per shard: increase, Grow; decrease,
    Shrink; unchanged, nothing.  The difference is the one the code
    computes on [int]. *)
Definition plan_size (d : ResourceData) (i : nat) (shardID : string)
    : list Action :=
  let '(old, new) := GetChangeAt i Shard.size d in
  if bool_decide (old = new) then []
  else if bool_decide (int_sub new old > 0)
       then [databaseClusterActionGrow shardID]
  else if bool_decide (int_sub new old < 0)
       then [databaseClusterActionShrink shardID]
  else [].

(** Per shard: volume resize, WAL volume resize, flavor resize, then
    grow or shrink. *)
Definition plan_shard (d : ResourceData) (i : nat) (shard : Shard.t)
    : list Action :=
  let shardID := Shard.shard_id shard in
  when_changed (HasChangeAt i Shard.volume_size d)
    (databaseClusterActionResizeVolume shardID)
  ++ when_changed (HasChangeAt i Shard.wal_volume d)
       (databaseClusterActionResizeWalVolume shardID)
  ++ when_changed (HasChangeAt i Shard.flavor_id d)
       (databaseClusterActionResizeFlavor shardID)
  ++ plan_size d i shardID.

Fixpoint plan_shards (d : ResourceData) (i : nat) (shards : list Shard.t)
    : list Action :=
  match shards with
  | [] => []
  | shard :: rest => plan_shard d i shard ++ plan_shards d (S i) rest
  end.

(** [Plan(previous, desired)]: the top-level actions, then the shards in
    their declared order. *)
Definition Plan (d : ResourceData) : list Action :=
  plan_top d ++ plan_shards d 0 (Cluster.shard (current d)).

(** Every action the sequencer can ever emit, in its fixed order. *)
Definition all_actions (shards : list Shard.t) : list Action :=
  [ databaseClusterActionUpdateConfiguration;
    databaseClusterUpdateDiskAutoexpand;
    databaseClusterUpdateWalDiskAutoexpand;
    databaseClusterActionApplyCapabilities;
    databaseClusterUpdateCloudMonitoring ]
  ++ (shards ≫= fun shard =>
        let shardID := Shard.shard_id shard in
        [ databaseClusterActionResizeVolume shardID;
          databaseClusterActionResizeWalVolume shardID;
          databaseClusterActionResizeFlavor shardID;
          databaseClusterActionGrow shardID;
          databaseClusterActionShrink shardID ]).

(** Sequential execution of a plan on the remote world: the actions
    attempted, the failing action with its error if one failed, the
    world after. *)
Fixpoint execPlan (plan : list Action) (updateCtx : dbResourceUpdateContext)
    (w : W) : list Action * option (Action * error) * W :=
  match plan with
  | [] => ([], None, w)
  | a :: rest =>
      match runAction a updateCtx w with
      | (Some err, w') => ([a], Some (a, err), w')
      | (None, w') =>
          let '(attempted, failure, w'') := execPlan rest updateCtx w' in
          (a :: attempted, failure, w'')
      end
  end.

(** The ghost log entries of a list of actions. *)
Definition action_calls (updateCtx : dbResourceUpdateContext)
    (l : list Action) : list Call :=
  map (fun a => CallAction a (StateConf updateCtx)) l.

(** Executing a plan and halting on the first failure with the
    diagnostics of the error processing. *)
Definition after_plan (plan : list Action)
    (updateCtx : dbResourceUpdateContext) (clusterID : string) : M unit :=
  fun st =>
    let '(attempted, failure, w') := execPlan plan updateCtx (world st) in
    let st' :=
      mkSt w' (calls st ++ action_calls updateCtx attempted) (data st) in
    match failure with
    | Some (a, err) =>
        (Ret (databaseClusterWithShardsUpdateProcessError err clusterID
                (action_shard a)), st')
    | None => (Val tt, st')
    end.

(** The action functions entered, read off the ghost log. *)
Definition actions_of (cs : list Call) : list Action :=
  omap (fun c => match c with CallAction a _ => Some a | _ => None end) cs.

(** The context the update function builds for a client. *)
Definition updateCtxOf (d : ResourceData) (dbClient : Client)
    : dbResourceUpdateContext :=
  mkUpdateContext dbClient d (updateStateConf d dbClient).



End Plan.

(* ===================================================================== *)
(** ** The shrink action *)
(* ===================================================================== *)

Section Shrink.
Context `{EX : Extractors} `{KO : Constants} {W : Type} `{RE : !Remote W} `{RH : !ReadHelpers W}.

(** The two requests the shrink action sends: the removal itself and the
    query for the instances that are not leaders. *)
Record ShrinkRemote : Type := mkShrinkRemote {
  shrink_instances :
    Client -> string -> string -> list string -> W -> option error * W;
  non_leaders :
    Client -> string -> string -> W -> (error + list string) * W;
}.

(** The first declared shard with the given id, and its index. *)
Fixpoint find_shard (shardID : string) (i : nat) (shards : list Shard.t)
    : option (nat * Shard.t) :=
  match shards with
  | [] => None
  | shard :: rest =>
      if bool_decide (Shard.shard_id shard = shardID) then Some (i, shard)
      else find_shard shardID (S i) rest
  end.

Definition wrapped (s : sentinel) (cause : error) : error :=
  ErrWrap (sentinel_text s +:+ ": " +:+ Error cause) (ErrSentinel s).

(** Modelled from the spec: [databaseClusterActionShrink] is declared
    outside the translated file.  The specification has it "remove |Δ|
    instances; if shrink_options is supplied it must list exactly |Δ|
    instance ids currently in the shard, else it is a
    ShrinkOptionsError; if omitted, the sequencer selects the first
    non-leader instance(s) by remote-reported role", then poll the
    cluster to Active; the options are examined before any request. *)
Definition databaseClusterActionShrink_spec (r : ShrinkRemote)
    (updateCtx : dbResourceUpdateContext) (shardID : string)
    : W -> option error * W :=
  fun w =>
    let d := D updateCtx in
    let client := Client_ updateCtx in
    match find_shard shardID 0 (Cluster.shard (current d)) with
    | None => (Some (ErrSentinel errDBClusterShardNotFound), w)
    | Some (i, shard) =>
        let '(old, new) := GetChangeAt i Shard.size d in
        let count := Z.abs (new - old) in
        let options := Shard.shrink_options shard in
        let present :=
          map InstanceInfo.instance_id
              (Shard.instances (shardAt (prior d) i)) in
        let finish (ids : list string) (w : W) :=
          match shrink_instances r client (Id d) shardID ids w with
          | (Some err, w') => (Some (wrapped errDBClusterActionShrink err), w')
          | (None, w') =>
              match WaitForStateContext (StateConf updateCtx) w' with
              | (Some err, w'') =>
                  (Some (wrapped errDBClusterUpdateWait err), w'')
              | (None, w'') => (None, w'')
              end
          end in
        match options with
        | _ :: _ =>
            if bool_decide (Z.of_nat (length options) <> count)
               || negb (forallb (fun id => bool_decide (id ∈ present)) options)
            then (Some (ErrSentinel errDBClusterActionShrinkWrongOptions), w)
            else finish options w
        | [] =>
            match non_leaders r client (Id d) shardID w with
            | (inl err, w') =>
                (Some (wrapped errDBClusterActionShrinkInstancesExtract err),
                 w')
            | (inr candidates, w') =>
                finish (take (Z.to_nat count) candidates) w'
            end
        end
    end.

(** Action functions whose shrink is the one above; the others are
    [base]. *)
Definition withShrink (r : ShrinkRemote)
    (base : Action -> dbResourceUpdateContext -> W -> option error * W)
    : Actions :=
  {| runAction a updateCtx w :=
       match a with
       | databaseClusterActionShrink shardID =>
           databaseClusterActionShrink_spec r updateCtx shardID w
       | _ => base a updateCtx w
       end |}.

End Shrink.

(* ===================================================================== *)
(** ** What the diff of two states looks at *)
(* ===================================================================== *)

(** A cluster with every [shrink_options] list emptied. *)
Definition without_shrink_options (c : Cluster.t) : Cluster.t :=
  Cluster.with_shard (map (Shard.with_shrink_options []) (Cluster.shard c)) c.

(** Both states of a resource data object without [shrink_options]. *)
Definition forget_shrink_options (d : ResourceData) : ResourceData :=
  mkData (Id d) (without_shrink_options (prior d))
         (without_shrink_options (current d)) (timeouts d).

(** Nothing about the shard under index [j] changes. *)
Definition shard_unchanged (d : ResourceData) (j : nat) : Prop :=
  HasChangeAt j Shard.volume_size d = false /\
  HasChangeAt j Shard.wal_volume d = false /\
  HasChangeAt j Shard.flavor_id d = false /\
  HasChangeAt j Shard.size d = false.

(** Only the size of the shard under index [j] changes, and it grows. *)
Definition shard_only_grows (d : ResourceData) (j : nat) : Prop :=
  HasChangeAt j Shard.volume_size d = false /\
  HasChangeAt j Shard.wal_volume d = false /\
  HasChangeAt j Shard.flavor_id d = false /\
  0 <= Shard.size (shardAt (prior d) j) /\
  Shard.size (shardAt (prior d) j) < Shard.size (shardAt (current d) j) /\
  Shard.size (shardAt (current d) j) <= int_max.

(* ===================================================================== *)
(** ** The configuration before the SDK has checked it *)
(* ===================================================================== *)

(** A configuration as written: an attribute the schema marks
    [Required] may still be missing, which is [None] here.  The optional
    attributes are carried by a record of the decoded type. *)
Module RawDatastore.
Record t : Type := mk { version : option string; type : option string }.
End RawDatastore.

Module RawShard.
Record t : Type := mk {
  shard_id : option string;
  size : option Z;
  flavor_id : option string;
  volume_size : option Z;
  volume_type : option string;
  optional : Shard.t;
}.

Definition decode (r : t) : Shard.t :=
  Shard.mk (default "" (shard_id r)) (default 0 (size r))
    (Shard.shrink_options (optional r))
    (default "" (flavor_id r)) (default 0 (volume_size r))
    (default "" (volume_type r))
    (Shard.wal_volume (optional r)) (Shard.network (optional r))
    (Shard.availability_zone (optional r)) [].
End RawShard.

Module RawConfig.
Record t : Type := mk {
  name : option string;
  datastore : list RawDatastore.t;
  shard : list RawShard.t;
  optional : Cluster.t;
}.

Definition decode (r : t) : Cluster.t :=
  let o := optional r in
  Cluster.mk (Cluster.region o) (default "" (name r))
    (map (fun ds => Datastore.mk (default "" (RawDatastore.version ds))
                                 (default "" (RawDatastore.type ds)))
         (datastore r))
    (Cluster.configuration_id o) (Cluster.root_enabled o)
    (Cluster.root_password o) (Cluster.floating_ip_enabled o)
    (Cluster.keypair o) (Cluster.disk_autoexpand o)
    (Cluster.wal_disk_autoexpand o) (Cluster.capabilities o)
    (Cluster.restore_point o) (Cluster.cloud_monitoring_enabled o)
    (map RawShard.decode (shard r)).
End RawConfig.

Section SchemaValidation.
Context `{EX : Extractors} `{KO : Constants} {W : Type} `{RE : !Remote W}
        `{RH : !ReadHelpers W}.

(** [Required: true]. *)
Definition required {A} (key : string) (v : option A) : list error :=
  match v with
  | Some _ => []
  | None => [ErrOther ("Missing required argument: " +:+ key)]
  end.

(** The [datastore] block: [version] and [type] are required, [type]
    has the [ValidateFunc]. *)
Definition validate_datastore (ds : RawDatastore.t) : list error :=
  required "version" (RawDatastore.version ds)
  ++ match RawDatastore.type ds with
     | None => required "type" (RawDatastore.type ds)
     | Some v => (datastore_type_ValidateFunc v "type").2
     end.

(** The [shard] block: [shard_id], [size], [flavor_id], [volume_size]
    and [volume_type] are required; none has a [ValidateFunc]. *)
Definition validate_shard (sh : RawShard.t) : list error :=
  required "shard_id" (RawShard.shard_id sh)
  ++ required "size" (RawShard.size sh)
  ++ required "flavor_id" (RawShard.flavor_id sh)
  ++ required "volume_size" (RawShard.volume_size sh)
  ++ required "volume_type" (RawShard.volume_type sh).

(** Schema validation as the SDK runs it on the attributes above:
    [name] is required, [datastore] is a required block with
    [MaxItems: 1], [shard] is a required block. *)
Definition validateSchema (raw : RawConfig.t) : list error :=
  required "name" (RawConfig.name raw)
  ++ match RawConfig.datastore raw with
     | [] => [ErrOther "Insufficient datastore blocks"]
     | [ds] => validate_datastore ds
     | _ => [ErrOther "Too many datastore blocks"]
     end
  ++ match RawConfig.shard raw with
     | [] => [ErrOther "Insufficient shard blocks"]
     | shards => shards ≫= validate_shard
     end.

Definition no_cluster : Cluster.t :=
  Cluster.mk "" "" [] "" false "" false "" [] [] [] [] false [].

(** Creating a resource from a configuration: the SDK validates it
    against the schema and calls the create function only when no error
    was found. *)
Definition applyCreate (raw : RawConfig.t) : M Diagnostics :=
  match validateSchema raw with
  | [] =>
      u <- setData (mkData "" no_cluster (RawConfig.decode raw)
                      (Some resource_Timeouts));
      resourceDatabaseClusterWithShardsCreate
  | errs => exit (map (fun e => mkDiagnostic SevError (Error e)) errs)
  end.

(** All the decoding the create function asks for succeeds. *)
Definition decodes {A B} (v : list A) (extract : list A -> error + B)
    : Prop :=
  v = [] \/ exists x, extract v = inr x.

Definition extractions_succeed (c : Cluster.t) : Prop :=
  decodes (Cluster.restore_point c) extractDatabaseRestorePoint /\
  decodes (Cluster.datastore c) extractDatabaseDatastore /\
  decodes (Cluster.disk_autoexpand c) extractDatabaseAutoExpand /\
  decodes (Cluster.wal_disk_autoexpand c) extractDatabaseAutoExpand /\
  decodes (Cluster.capabilities c) extractDatabaseCapabilities /\
  Forall wal_decodes (Cluster.shard c).

End SchemaValidation.

(* ===================================================================== *)
(** ** A concrete provider to run the functions on *)
(* ===================================================================== *)

Module Demo.

(** The remote side is the instance list of the one cluster. *)
Definition World : Type := list Resp.ClusterInstanceResp.

Definition first_block {A B} (f : A -> B) (l : list A) : error + B :=
  match l with
  | x :: _ => inr (f x)
  | [] => inl (ErrOther "empty block")
  end.

#[export] Instance extractors : Extractors := {|
  NetworkOpts := Network.t;
  DataStoreShort := Datastore.t;
  RestorePointShort := RestorePoint.t;
  CapabilityOpts := Capability.t;
  extractDatabaseRestorePoint := first_block id;
  extractDatabaseDatastore := first_block id;
  extractDatabaseAutoExpand :=
    first_block (fun x => mkAutoExpandOpts (AutoExpand.autoexpand x)
                            (AutoExpand.max_disk_size x));
  extractDatabaseNetworks l := (l, l ≫= Network.security_groups, None);
  extractDatabaseWalVolume :=
    first_block (fun x => mkWalVolumeOpts (WalVolume.size x)
                            (WalVolume.volume_type x));
  extractDatabaseCapabilities l := inr l;
|}.

(** [Sprintf0] is the identity: no text below has a percent sign. *)
#[export] Instance constants : Constants := {|
  sentinel_text s :=
    match s with
    | errDBClusterUpdateWait => "cluster did not become ready"
    | errDBClusterActionShrinkWrongOptions => "wrong shrink options"
    | _ => "cluster operation failed"
    end;
  Sprintf0 s := s;
  getClusterWithShardsDatastores := ["clickhouse"];
  dbCreateTimeout := 30 * minute;
  dbDeleteTimeout := 30 * minute;
  dbInstanceDelay := 10 * 1000000000;
  dbInstanceMinTimeout := 3 * 1000000000;
  dbClusterStatusBuild := "BUILD";
  dbClusterStatusActive := "ACTIVE";
  dbClusterStatusDeleting := "DELETING";
  dbClusterStatusDeleted := "DELETED";
  dbImportedStatus := "IMPORTED";
  maxSliceLen := 2 ^ 40;
|}.

#[export] Instance remote_side : Remote World := {|
  Client := unit;
  DatabaseV1Client _ := inr tt;
  clusters_Create _ _ w := (inr "cluster-1", w);
  clusters_Delete _ _ w := (None, w);
  WaitForStateContext _ w := (None, w);
  instances_AttachConfigurationGroup _ _ _ w := (None, w);
  CheckDeleted d err msg := (d, Some (ErrOther msg));
|}.

(** The one client there is. *)
Definition client : Client := tt.

#[export] Instance read_helpers : ReadHelpers World := {|
  DataStoreResp := Datastore.t;
  clusters_Get _ _ w :=
    (inr (Resp.mkCluster _ "demo" (Datastore.mk "22.8" "clickhouse")
            "" 0 0 0 0 w), w);
  flattenDatabaseInstanceDatastore ds := [ds];
  flattenDatabaseInstanceAutoExpand a m :=
    [AutoExpand.mk (bool_decide (a = 1)) m];
  flattenShardAttributes _ := ("", 0, None);
  GetOk_wal_volume_type _ _ := ("", false);
  checkDBNetworks _ _ diags := diags;
|}.

(** Every action succeeds and leaves the remote side alone. *)
Definition succeeding : Actions := {| runAction _ _ w := (None, w) |}.


(** Nothing is ever sent by this shrink. *)
Definition silent : ShrinkRemote := {|
  shrink_instances _ _ _ _ w := (None, w);
  non_leaders _ _ _ w := (inr [], w);
|}.

Definition shard_in (az id : string) (n : Z) : Shard.t :=
  Shard.mk id n [] "flavor-1" 10 "ceph-ssd" [] [] az [].

Definition shard_of (id : string) (n : Z) : Shard.t := shard_in "az-1" id n.

Definition cluster_of (shards : list Shard.t) : Cluster.t :=
  Cluster.mk "" "demo" [Datastore.mk "22.8" "clickhouse"] "" false ""
    false "key-1" [] [] [] [] false shards.

Definition instance_of (id shard : string) : Resp.ClusterInstanceResp :=
  Resp.mkInstance id shard [] None.

(** Budgets as a user can set them: create and delete only. *)
Definition budgets : ResourceTimeout :=
  mkTimeouts (Some (45 * minute)) None None (Some (10 * minute)) None.

Definition data_of (old new : Cluster.t) : ResourceData :=
  mkData "c1" old new (Some budgets).

Definition state_of (w : World) (d : ResourceData) : St := mkSt w [] d.

(** Two shards declared as B, A, each in a zone of its own; the cluster
    runs A (two instances), B and C (one each). *)
Definition declared_BA : ResourceData :=
  let c := cluster_of [shard_in "zone-of-B" "B" 1; shard_in "zone-of-A" "A" 2] in
  data_of c c.

Definition remote_ABC : World :=
  [instance_of "i1" "A"; instance_of "i2" "B"; instance_of "i3" "A";
   instance_of "i4" "C"].

(** The configuration id, the capabilities and the size of shard X
    change at once. *)
Definition three_changes : ResourceData :=
  let old := cluster_of [shard_of "W" 1; shard_of "X" 2] in
  let new :=
    Cluster.mk "" "demo" [Datastore.mk "22.8" "clickhouse"] "cfg-2" false ""
      false "key-1" [] [] [Capability.mk "node_exporter" ∅] [] false
      [shard_of "W" 1; shard_of "X" 5] in
  data_of old new.


(** Shard s1 goes from three instances to one, and one id is given in
    [shrink_options]. *)
Definition bad_shrink : ResourceData :=
  let old := cluster_of [shard_of "s1" 3] in
  let new :=
    cluster_of [Shard.mk "s1" 1 ["i1"] "flavor-1" 10 "ceph-ssd" [] [] "az-1" []] in
  data_of old new.

(** Only [shrink_options] differs. *)
Definition options_only : ResourceData :=
  let old := cluster_of [shard_of "s1" 3] in
  let new :=
    cluster_of [Shard.mk "s1" 3 ["i1"; "i2"] "flavor-1" 10 "ceph-ssd" [] []
                  "az-1" []] in
  data_of old new.

Definition raw_shard (id : string) (n : Z) : RawShard.t :=
  RawShard.mk (Some id) (Some n) (Some "flavor-1") (Some 10)
    (Some "ceph-ssd") (shard_of id n).

(** A valid configuration with the given shards. *)
Definition raw_of (shards : list RawShard.t) : RawConfig.t :=
  RawConfig.mk (Some "demo")
    [RawDatastore.mk (Some "22.8") (Some "clickhouse")]
    shards (cluster_of []).

End Demo.

(* ===================================================================== *)
(** ** Import: the shard list of an imported cluster *)
(* ===================================================================== *)

(** Helpers of the importer that live in other files. *)
Class ImportHelpers `{EX : Extractors} (W : Type) `{RE : !Remote W} : Type := {
  CapabilityResp : Type;
  (** [clusters.GetCapabilities(client, id).Extract()] *)
  clusters_GetCapabilities :
    Client -> string -> W -> (error + CapabilityResp) * W;
  flattenDatabaseInstanceCapabilities : CapabilityResp -> list Capability.t;
  (** [flattenDatabaseClusterWalVolume] on what [inst.WalVolume] points to *)
  flattenDatabaseClusterWalVolume : WalVolume.t -> WalVolume.t;
}.

Section Importer.
Context `{EX : Extractors} `{KO : Constants} {W : Type} `{RE : !Remote W}
        `{RH : !ReadHelpers W} `{IH : !ImportHelpers W}.

(** [shardIDs[key]]: the zero value under a missing key. *)
Definition count_of (shardIDs : gmap string Z) (key : string) : Z :=
  default 0 (shardIDs !! key).

(** The shard a first instance of a shard id gives: flattened from that
    one instance, marked as imported, with the instance's WAL volume. *)
Definition newShardOf
    (flatten : string -> list Resp.ClusterInstanceResp -> FlatShard.t)
    (inst : Resp.ClusterInstanceResp) : FlatShard.t :=
  let newShard := flatten (Resp.ShardID inst) [inst] in
  FlatShard.mk (FlatShard.shard_id newShard) (FlatShard.size newShard)
    (FlatShard.instances newShard) (FlatShard.flavor_id newShard)
    (FlatShard.volume_size newShard)
    (Some dbImportedStatus)
    (match Resp.WalVolume inst with
     | Some w => Some (flattenDatabaseClusterWalVolume w)
     | None => FlatShard.wal_volume newShard
     end)
    (FlatShard.network newShard) (FlatShard.availability_zone newShard).

(** The loop of the importer over [cluster.Instances]: an instance of a
    shard id seen before only increments the counter of that id; the
    first one sets the counter to 1 and appends a new shard. *)
Fixpoint importLoop
    (flatten : string -> list Resp.ClusterInstanceResp -> FlatShard.t)
    (instances : list Resp.ClusterInstanceResp)
    (shardIDs : gmap string Z) (shards : list FlatShard.t)
    : gmap string Z * list FlatShard.t :=
  match instances with
  | [] => (shardIDs, shards)
  | inst :: rest =>
      match shardIDs !! Resp.ShardID inst with
      | Some n =>
          importLoop flatten rest
            (<[Resp.ShardID inst := int_add n 1]> shardIDs) shards
      | None =>
          importLoop flatten rest
            (<[Resp.ShardID inst := 1]> shardIDs)
            (shards ++ [newShardOf flatten inst])
      end
  end.

Definition set_size (n : Z) (sh : FlatShard.t) : FlatShard.t :=
  FlatShard.mk (FlatShard.shard_id sh) n
    (FlatShard.instances sh) (FlatShard.flavor_id sh)
    (FlatShard.volume_size sh) (FlatShard.volume_type sh)
    (FlatShard.wal_volume sh) (FlatShard.network sh)
    (FlatShard.availability_zone sh).

(** Both loops of the importer: the shards, then
    [shard["size"] = shardIDs[shard["shard_id"]]] for each. *)
Definition importShards
    (flatten : string -> list Resp.ClusterInstanceResp -> FlatShard.t)
    (instances : list Resp.ClusterInstanceResp) : list FlatShard.t :=
  let '(shardIDs, shards) := importLoop flatten instances ∅ [] in
  map (fun shard => set_size (count_of shardIDs (FlatShard.shard_id shard))
                             shard)
      shards.

(** The diagnostics of a called function as a value. *)
Definition returned (m : M Diagnostics) : M Diagnostics :=
  fun st =>
    match m st with
    | (Ret ds, st') => (Val ds, st')
    | other => other
    end.

(** A call to the outside that the ghost log has no entry for. *)
Definition unlogged {A} (f : W -> A * W) : M A :=
  fun st =>
    let '(a, w') := f (world st) in
    (Val a, mkSt w' (calls st) (data st)).

(** [Importer.StateContext]; the result is the error, [None] for the
    return of [d] itself.  [flatten] stands for the package's
    [flattenDatabaseClusterShard], a function of another file. *)
Definition importState
    (flatten : string -> list Resp.ClusterInstanceResp -> FlatShard.t)
    : M (option error) :=
  d <- getData;
  match DatabaseV1Client d with
  | inl err =>
      ret (Some (ErrOther ("error creating VKCS database client: "
                           +:+ Error err)))
  | inr client =>
      ds <- returned resourceDatabaseClusterWithShardsRead;
      if HasError ds then
        ret (Some (ErrOther "error reading vkcs_db_cluster_with_shards"))
      else
        d <- getData;
        r <- remote (CallGet (Id d)) (clusters_Get client (Id d));
        match r with
        | inl _ =>
            ret (Some (ErrOther "error retrieving vkcs_db_cluster_with_shards"))
        | inr cluster =>
            let shards :=
              importShards flatten (Resp.Instances cluster) in
            let c :=
              Cluster.with_shard (map FlatShard.to_shard shards) (current d) in
            u <- setData (mkData (Id d) (prior d) c (timeouts d));
            r <- unlogged (clusters_GetCapabilities client (Id d));
            match r with
            | inl _ => ret (Some (ErrOther "error getting cluster capabilities"))
            | inr capabilities =>
                let c :=
                  Cluster.mk (Cluster.region c) (Cluster.name c)
                    (Cluster.datastore c) (Cluster.configuration_id c)
                    (Cluster.root_enabled c) (Cluster.root_password c)
                    (Cluster.floating_ip_enabled c) (Cluster.keypair c)
                    (Cluster.disk_autoexpand c)
                    (Cluster.wal_disk_autoexpand c)
                    (flattenDatabaseInstanceCapabilities capabilities)
                    (Cluster.restore_point c)
                    (Cluster.cloud_monitoring_enabled c) (Cluster.shard c) in
                u <- setData (mkData (Id d) (prior d) c (timeouts d));
                ret None
            end
        end
  end.

(** The instances that are the first of their shard id, in the order of
    the list. *)
Fixpoint first_of_shard (seen : list string)
    (instances : list Resp.ClusterInstanceResp)
    : list Resp.ClusterInstanceResp :=
  match instances with
  | [] => []
  | inst :: rest =>
      if decide (Resp.ShardID inst ∈ seen) then first_of_shard seen rest
      else inst :: first_of_shard (Resp.ShardID inst :: seen) rest
  end.

(** How many instances carry the shard id. *)
Definition instances_of (id : string)
    (instances : list Resp.ClusterInstanceResp) : nat :=
  length (filter (fun x => Resp.ShardID x = id) instances).

End Importer.

(** A concrete importer side for the examples. *)
Module DemoImport.
Import Demo.

#[export] Instance import_helpers : ImportHelpers World := {|
  CapabilityResp := list Capability.t;
  clusters_GetCapabilities _ _ w := (inr [], w);
  flattenDatabaseInstanceCapabilities l := l;
  flattenDatabaseClusterWalVolume w := w;
|}.

(** A flattening that keeps the shard id and the instance count. *)
Definition flat (id : string) (instances : list Resp.ClusterInstanceResp)
    : FlatShard.t :=
  FlatShard.mk id (Z.of_nat (length instances)) [] "" 0 None None [] "".

End DemoImport.

(* ===================================================================== *)
(** ** Quantities the properties of the create path are stated with *)
(* ===================================================================== *)

(** The sum of the absolute values of the shard sizes: what bounds every
    partial sum of the sizes. *)
Definition abs_total (shards : list Shard.t) : Z :=
  foldr (fun s acc => Z.abs (Shard.size s) + acc) 0 shards.

(** The number of stores the fill loops attempt: a negative size gives
    no iteration. *)
Definition stores_of {A} (sized : list (Z * A)) : nat :=
  foldr (fun p acc => (Z.to_nat p.1 + acc)%nat) 0%nat sized.

(** The blocks whose decoding the create function can report. *)
Definition decoded_blocks : list string :=
  ["restore_point"; "datastore"; "disk_autoexpand"; "wal_disk_autoexpand";
   "wal_volume"; "capability"].


(** The ids are in strictly ascending order. *)
Definition ascending (ids : list string) : Prop :=
  forall i j a b,
    (i < j)%nat -> ids !! i = Some a -> ids !! j = Some b ->
    String.ltb a b = true.

(** A provider whose capability blocks never decode and whose waits
    time out. *)
Module Unreliable.
Import Demo.

Definition strict_extractors : Extractors := {|
  NetworkOpts := Network.t;
  DataStoreShort := Datastore.t;
  RestorePointShort := RestorePoint.t;
  CapabilityOpts := Capability.t;
  extractDatabaseRestorePoint := first_block id;
  extractDatabaseDatastore := first_block id;
  extractDatabaseAutoExpand :=
    first_block (fun x => mkAutoExpandOpts (AutoExpand.autoexpand x)
                            (AutoExpand.max_disk_size x));
  extractDatabaseNetworks l := (l, l ≫= Network.security_groups, None);
  extractDatabaseWalVolume :=
    first_block (fun x => mkWalVolumeOpts (WalVolume.size x)
                            (WalVolume.volume_type x));
  extractDatabaseCapabilities _ := inl (ErrOther "malformed capability");
|}.

Definition timing_out : Remote (EX := strict_extractors) World := {|
  Client := unit;
  DatabaseV1Client _ := inr tt;
  clusters_Create _ _ w := (inr "cluster-1", w);
  clusters_Delete _ _ w := (None, w);
  WaitForStateContext _ w := (Some (ErrOther "timeout"), w);
  instances_AttachConfigurationGroup _ _ _ w := (None, w);
  CheckDeleted d err msg := (d, Some (ErrOther msg));
|}.

Definition strict_read_helpers
    : ReadHelpers (EX := strict_extractors) (RE := timing_out) World := {|
  DataStoreResp := Datastore.t;
  clusters_Get _ _ w :=
    (inr (Resp.mkCluster _ "demo" (Datastore.mk "22.8" "clickhouse")
            "" 0 0 0 0 w), w);
  flattenDatabaseInstanceDatastore ds := [ds];
  flattenDatabaseInstanceAutoExpand a m :=
    [AutoExpand.mk (bool_decide (a = 1)) m];
  flattenShardAttributes _ := ("", 0, None);
  GetOk_wal_volume_type _ _ := ("", false);
  checkDBNetworks _ _ diags := diags;
|}.

(** One shard, and a capability to apply. *)
Definition with_capability : ResourceData :=
  let c :=
    Cluster.mk "" "demo" [Datastore.mk "22.8" "clickhouse"] "" false ""
      false "key-1" [] [] [Capability.mk "node_exporter" ∅] [] false
      [shard_of "s1" 1] in
  data_of c c.

(** One shard, nothing else. *)
Definition plain : ResourceData :=
  let c := cluster_of [shard_of "s1" 1] in
  data_of c c.

(** Two shards, the second with a negative size. *)
Definition negative_size : ResourceData :=
  let c := cluster_of [shard_of "s1" 2; shard_of "s2" (-1)] in
  data_of c c.

End Unreliable.

(* ===================================================================== *)
(** ** Shard blocks removed from or added to the declaration *)
(* ===================================================================== *)

(** What the update runs for a block the state has nothing under the
    index of: every attribute that is not the zero value counts as
    changed. *)
Definition actions_for_new_block (new : Shard.t) : list Action :=
  let shardID := Shard.shard_id new in
  (if bool_decide (Shard.volume_size new <> 0)
   then [databaseClusterActionResizeVolume shardID] else [])
  ++ (if bool_decide (Shard.wal_volume new <> [])
      then [databaseClusterActionResizeWalVolume shardID] else [])
  ++ (if bool_decide (Shard.flavor_id new <> "")
      then [databaseClusterActionResizeFlavor shardID] else [])
  ++ (if bool_decide (0 < Shard.size new)
      then [databaseClusterActionGrow shardID]
      else if bool_decide (Shard.size new < 0)
      then [databaseClusterActionShrink shardID] else []).

(** States whose declaration has one block less, or one more, than the
    state. *)
Module ShardCount.
Import Demo.

(** Shard B is no longer declared. *)
Definition block_removed : ResourceData :=
  data_of (cluster_of [shard_of "A" 2; shard_of "B" 1])
          (cluster_of [shard_of "A" 2]).

(** Shard B is declared after A, which is in the state. *)
Definition block_appended : ResourceData :=
  data_of (cluster_of [shard_of "A" 2])
          (cluster_of [shard_of "A" 2; shard_of "B" 1]).

End ShardCount.

(* ===================================================================== *)
(** ** The flavor data source of package [compute] *)
(* ===================================================================== *)

Module Compute.

(** [flavors.AccessType]. *)
Inductive AccessType : Type := PublicAccess | PrivateAccess | AllAccess.

#[global] Instance AccessType_eq_dec : EqDecision AccessType.
Proof. solve_decision. Defined.

(** Go values the embedding keeps abstract: [float64] with its [==],
    which need not hold of a value and itself, and what an extra spec
    holds as [interface{}], with [reflect.DeepEqual]. *)
Class Values : Type := {
  float64 : Type;
  float_eq : float64 -> float64 -> bool;
  float_zero : float64;
  Value : Type;
  DeepEqual : Value -> Value -> bool;
}.

Section Types.
Context `{VA : Values}.

(** The attributes of the data source and the id of [d]. *)
Record ResourceData : Type := mkData {
  Id : string;
  region : string;
  flavor_id : string;
  name : string;
  min_ram : Z;
  ram : Z;
  vcpus : Z;
  min_disk : Z;
  disk : Z;
  swap : Z;
  rx_tx_factor : float64;
  is_public : bool;
  extra_specs : gmap string Value;
}.

(** [d.GetOk]: the value, and whether it differs from the zero value of
    its type. *)
Definition GetOk_int (v : Z) : Z * bool := (v, bool_decide (v <> 0)).
Definition GetOk_float (v : float64) : float64 * bool :=
  (v, negb (float_eq v float_zero)).
Definition GetOk_bool (v : bool) : bool * bool := (v, v).
Definition GetOk_map (v : gmap string Value) : gmap string Value * bool :=
  (v, bool_decide (v <> ∅)).

End Types.

Module RequiredFlavor.
Section RequiredFlavor.
Context `{VA : Values}.
Record t : Type := mk {
  Disk : Z;
  HasDisk : bool;
  MinDisk : Z;
  HasMinDisk : bool;
  RAM : Z;
  HasRAM : bool;
  MinRAM : Z;
  HasMinRAM : bool;
  Name : string;
  HasName : bool;
  RxTxFactor : float64;
  HasRxTxFactor : bool;
  Swap : Z;
  HasSwap : bool;
  VCPUs : Z;
  HasVCPUs : bool;
  ExtraSpecs : gmap string Value;
  HasExtraSpecs : bool;
  AccessType_ : AccessType;
}.
End RequiredFlavor.
End RequiredFlavor.

(** [flavors.Flavor]: the fields the data source reads. *)
Module Flavor.
Section Flavor.
Context `{VA : Values}.
Record t : Type := mk {
  ID : string;
  Disk : Z;
  RAM : Z;
  Name : string;
  RxTxFactor : float64;
  Swap : Z;
  VCPUs : Z;
  IsPublic : bool;
}.
End Flavor.
End Flavor.

(** [FlavorExt]: a flavor and its extra specs, [None] for the nil map. *)
Module FlavorExt.
Section FlavorExt.
Context `{VA : Values}.
Record t : Type := mk {
  Flavor_ : Flavor.t;
  ExtraSpecs : option (gmap string Value);
}.
(** The fields of the embedded [flavors.Flavor], promoted. *)
Definition ID (f : t) : string := Flavor.ID (Flavor_ f).
Definition Disk (f : t) : Z := Flavor.Disk (Flavor_ f).
Definition RAM (f : t) : Z := Flavor.RAM (Flavor_ f).
Definition Name (f : t) : string := Flavor.Name (Flavor_ f).
Definition RxTxFactor (f : t) : float64 := Flavor.RxTxFactor (Flavor_ f).
Definition Swap (f : t) : Z := Flavor.Swap (Flavor_ f).
Definition VCPUs (f : t) : Z := Flavor.VCPUs (Flavor_ f).
Definition IsPublic (f : t) : bool := Flavor.IsPublic (Flavor_ f).
End FlavorExt.
End FlavorExt.

(** [flavors.ListOpts]: the fields the data source fills. *)
Module ListOpts.
Record t : Type := mk {
  MinDisk : Z;
  MinRAM : Z;
  AccessType_ : AccessType;
}.
#[global] Instance ListOpts_eq_dec : EqDecision t.
Proof. solve_decision. Defined.
End ListOpts.

(** What the data source calls outside its file. *)
Class ComputeRemote `{VA : Values} (W : Type) : Type := {
  ServiceClient : Type;
  (** [config.ComputeV2Client(util.GetRegion(d, config))] *)
  ComputeV2Client : ResourceData -> error + ServiceClient;
  (** [iflavors.Get(client, id).Extract()] *)
  iflavors_Get : ServiceClient -> string -> W -> (error + Flavor.t) * W;
  (** [errutil.IsNotFound] *)
  IsNotFound : error -> bool;
  Pages : Type;
  (** [flavors.ListDetail(client, opts).AllPages()] *)
  ListDetail_AllPages :
    ServiceClient -> ListOpts.t -> W -> (error + Pages) * W;
  (** [iflavors.ExtractFlavorsInto] *)
  ExtractFlavorsInto : Pages -> error + list FlavorExt.t;
  (** [iflavors.ListExtraSpecs(client, id).Extract()] *)
  ListExtraSpecs :
    ServiceClient -> string -> W -> (error + gmap string Value) * W;
  (** what [d.Set("extra_specs", v)] leaves under the key, given what
      was there; its error is only logged *)
  Set_extra_specs : gmap string Value -> gmap string Value -> gmap string Value;
}.

Section DataSource.
Context `{KO : Constants} `{VA : Values} {W : Type} `{CR : !ComputeRemote W}.

Definition NewRequiredFlavorFromResourceData (d : ResourceData)
    : RequiredFlavor.t :=
  let '(name, hasName) := GetOk_string (name d) in
  let '(ram, hasRAM) := GetOk_int (ram d) in
  let '(VCPUs, hasVCPUs) := GetOk_int (vcpus d) in
  let '(disk, hasDisk) := GetOk_int (disk d) in
  let '(minDisk, hasMinDisk) := GetOk_int (min_disk d) in
  let '(minRAM, hasMinRAM) := GetOk_int (min_ram d) in
  let '(rxTxFactor, hasRxTxFactor) := GetOk_float (rx_tx_factor d) in
  let '(swap, hasSwap) := GetOk_int (swap d) in
  let '(extraSpecs, hasExtraSpecs) := GetOk_map (extra_specs d) in
  let minRAM := if hasRAM then ram else minRAM in
  let minDisk := if hasDisk then disk else minDisk in
  let accessType :=
    let '(v, ok) := GetOk_bool (is_public d) in
    if ok then (if v then PublicAccess else PrivateAccess) else AllAccess in
  RequiredFlavor.mk disk hasDisk minDisk hasMinDisk ram hasRAM
    minRAM hasMinRAM name hasName rxTxFactor hasRxTxFactor swap hasSwap
    VCPUs hasVCPUs extraSpecs hasExtraSpecs accessType.

(** The [switch] of [FlavorsLoop]: some case holds and continues. *)
Definition switch_continues (requiredFlavor : RequiredFlavor.t)
    (flavor : FlavorExt.t) : bool :=
  if RequiredFlavor.HasName requiredFlavor
     && bool_decide (FlavorExt.Name flavor
                     <> RequiredFlavor.Name requiredFlavor)
  then true
  else if RequiredFlavor.HasRAM requiredFlavor
     && bool_decide (FlavorExt.RAM flavor <> RequiredFlavor.RAM requiredFlavor)
  then true
  else if RequiredFlavor.HasVCPUs requiredFlavor
     && bool_decide (FlavorExt.VCPUs flavor
                     <> RequiredFlavor.VCPUs requiredFlavor)
  then true
  else if RequiredFlavor.HasDisk requiredFlavor
     && bool_decide (FlavorExt.Disk flavor
                     <> RequiredFlavor.Disk requiredFlavor)
  then true
  else if RequiredFlavor.HasSwap requiredFlavor
     && bool_decide (FlavorExt.Swap flavor
                     <> RequiredFlavor.Swap requiredFlavor)
  then true
  else if RequiredFlavor.HasRxTxFactor requiredFlavor
     && negb (float_eq (FlavorExt.RxTxFactor flavor)
                       (RequiredFlavor.RxTxFactor requiredFlavor))
  then true
  else if RequiredFlavor.HasExtraSpecs requiredFlavor
     && bool_decide (FlavorExt.ExtraSpecs flavor = None)
  then true
  else false.

(** The loop over [requiredFlavor.ExtraSpecs]: [false] stands for
    [continue FlavorsLoop].  Go ranges over the map in an unspecified
    order; the outcome is the same in every order. *)
Definition specs_loop (required : gmap string Value)
    (flavorSpecs : gmap string Value) : bool :=
  forallb (fun p : string * Value =>
             match flavorSpecs !! p.1 with
             | Some val => DeepEqual val p.2
             | None => false
             end)
          (map_to_list required).

Fixpoint FlavorsLoop (requiredFlavor : RequiredFlavor.t)
    (allFlavors filteredFlavors : list FlavorExt.t) : list FlavorExt.t :=
  match allFlavors with
  | [] => filteredFlavors
  | flavor :: rest =>
      if switch_continues requiredFlavor flavor then
        FlavorsLoop requiredFlavor rest filteredFlavors
      else if negb (RequiredFlavor.HasExtraSpecs requiredFlavor) then
        FlavorsLoop requiredFlavor rest (filteredFlavors ++ [flavor])
      else if specs_loop (RequiredFlavor.ExtraSpecs requiredFlavor)
                         (default ∅ (FlavorExt.ExtraSpecs flavor)) then
        FlavorsLoop requiredFlavor rest (filteredFlavors ++ [flavor])
      else FlavorsLoop requiredFlavor rest filteredFlavors
  end.


(** The loop that chooses among several flavors; [idx] is the index of
    the first flavor of [rest].  [allFlavors[resIdx]] is written with
    the flavor at hand as the value of an index out of range, which the
    loop never reaches. *)
Fixpoint selectLoop (allFlavors rest : list FlavorExt.t) (idx resIdx : nat)
    : nat :=
  match rest with
  | [] => resIdx
  | flavor :: rest' =>
      let res := default flavor (allFlavors !! resIdx) in
      if bool_decide (FlavorExt.RAM flavor = FlavorExt.RAM res)
         && bool_decide (FlavorExt.Disk flavor < FlavorExt.Disk res)
      then selectLoop allFlavors rest' (S idx) idx
      else if bool_decide (FlavorExt.RAM flavor < FlavorExt.RAM res)
      then selectLoop allFlavors rest' (S idx) idx
      else selectLoop allFlavors rest' (S idx) resIdx
  end.

Definition warning (summary : string) : Diagnostic :=
  {| Severity := SevWarning; Summary := summary |}.

(** The warnings about an exact value next to its minimum; the attribute
    path of a diagnostic is not kept. *)
Definition warnings (requiredFlavor : RequiredFlavor.t) : Diagnostics :=
  (if RequiredFlavor.HasMinDisk requiredFlavor
      && RequiredFlavor.HasDisk requiredFlavor
   then [warning "Don't set min_disk and disk together, min_disk will be overwritten by disk"]
   else [])
  ++ (if RequiredFlavor.HasMinRAM requiredFlavor
         && RequiredFlavor.HasRAM requiredFlavor
      then [warning "Don't set min_ram and ram together, min_ram will be overwritten by ram"]
      else []).

(** Ghost record of a request to the compute service. *)
Inductive Call : Type :=
| CallGet (id : string)
| CallListDetail (opts : ListOpts.t)
| CallListExtraSpecs (id : string).

(** The remote world, the requests made so far (oldest first) and the
    resource data object [d]. *)
Record St : Type := mkSt {
  world : W;
  calls : list Call;
  data : ResourceData;
}.

Definition with_extra_specs (v : gmap string Value) (d : ResourceData)
    : ResourceData :=
  mkData (Id d) (region d) (flavor_id d) (name d) (min_ram d) (ram d)
    (vcpus d) (min_disk d) (disk d) (swap d) (rx_tx_factor d) (is_public d)
    (Set_extra_specs (extra_specs d) v).

Definition dataSourceComputeFlavorAttributes (computeClient : ServiceClient)
    (flavor : FlavorExt.t) (st : St) : option error * St :=
  let d := data st in
  let d :=
    mkData (FlavorExt.ID flavor) (region d) (FlavorExt.ID flavor)
      (FlavorExt.Name flavor) (min_ram d) (FlavorExt.RAM flavor)
      (FlavorExt.VCPUs flavor) (min_disk d) (FlavorExt.Disk flavor)
      (FlavorExt.Swap flavor) (FlavorExt.RxTxFactor flavor)
      (FlavorExt.IsPublic flavor) (extra_specs d) in
  match FlavorExt.ExtraSpecs flavor with
  | Some specs =>
      (None, mkSt (world st) (calls st) (with_extra_specs specs d))
  | None =>
      let '(r, w') := ListExtraSpecs computeClient (Id d) (world st) in
      let calls' := calls st ++ [CallListExtraSpecs (Id d)] in
      match r with
      | inl err => (Some err, mkSt w' calls' d)
      | inr es => (None, mkSt w' calls' (with_extra_specs es d))
      end
  end.

Definition listOptsOf (requiredFlavor : RequiredFlavor.t) : ListOpts.t :=
  ListOpts.mk (RequiredFlavor.MinDisk requiredFlavor)
    (RequiredFlavor.MinRAM requiredFlavor)
    (RequiredFlavor.AccessType_ requiredFlavor).

(** Everything after [ExtractFlavorsInto]: the filter, the warnings and
    the choice.  [None] is a panic of the runtime, what an index out of
    range gives. *)
Definition chooseFlavor (computeClient : ServiceClient)
    (requiredFlavor : RequiredFlavor.t) (allFlavors : list FlavorExt.t)
    (st : St) : option Diagnostics * St :=
  let allFlavors :=
    if bool_decide (0 < length allFlavors)%nat
    then FlavorsLoop requiredFlavor allFlavors []
    else allFlavors in
  let diags := warnings requiredFlavor in
  if bool_decide (length allFlavors < 1)%nat then
    (Some (diags ++ diag_Error "Your query returned no results. Please change your search criteria and try again."),
     st)
  else if bool_decide (1 < length allFlavors)%nat
          && (RequiredFlavor.HasMinRAM requiredFlavor
              || RequiredFlavor.HasMinDisk requiredFlavor) then
    let resIdx := selectLoop allFlavors allFlavors 0 0 in
    match allFlavors !! resIdx with
    | Some flavor =>
        let '(e, st') :=
          dataSourceComputeFlavorAttributes computeClient flavor st in
        (Some (diags ++ FromErr e), st')
    | None => (None, st)
    end
  else if bool_decide (1 < length allFlavors)%nat then
    (Some (diag_Error "Your query returned more than one result. Please try a more specific search criteria"),
     st)
  else
    match allFlavors !! 0%nat with
    | Some flavor =>
        let '(e, st') :=
          dataSourceComputeFlavorAttributes computeClient flavor st in
        (Some (diags ++ FromErr e), st')
    | None => (None, st)
    end.

(** [dataSourceComputeFlavorRead]: the diagnostics it returns, [None]
    for a panic. *)
Definition dataSourceComputeFlavorRead (st : St)
    : option Diagnostics * St :=
  let d := data st in
  match ComputeV2Client d with
  | inl err =>
      (Some (diag_Error ("Error creating VKCS compute client: "
                         +:+ Error err)), st)
  | inr computeClient =>
      let v := flavor_id d in
      if bool_decide (v <> "") then
        let '(r, w') := iflavors_Get computeClient v (world st) in
        let st := mkSt w' (calls st ++ [CallGet v]) (data st) in
        match r with
        | inl err =>
            if IsNotFound err then (Some (diag_Error "No Flavor found"), st)
            else (Some (diag_Error ("Unable to retrieve VKCS " +:+ v
                                    +:+ " flavor: " +:+ Error err)), st)
        | inr flavor =>
            let '(e, st') :=
              dataSourceComputeFlavorAttributes computeClient
                (FlavorExt.mk flavor None) st in
            (Some (FromErr e), st')
        end
      else
        let requiredFlavor := NewRequiredFlavorFromResourceData d in
        let listOpts := listOptsOf requiredFlavor in
        let '(r, w') := ListDetail_AllPages computeClient listOpts (world st) in
        let st := mkSt w' (calls st ++ [CallListDetail listOpts]) (data st) in
        match r with
        | inl err =>
            (Some (diag_Error ("Unable to query VKCS flavors: "
                               +:+ Error err)), st)
        | inr allPages =>
            match ExtractFlavorsInto allPages with
            | inl err =>
                (Some (diag_Error ("Unable to retrieve VKCS flavors: "
                                   +:+ Error err)), st)
            | inr allFlavors =>
                chooseFlavor computeClient requiredFlavor allFlavors st
            end
        end
  end.

(** *** Properties to state the results with *)

(** The flavor has every attribute the query asks for. *)
Definition meets (requiredFlavor : RequiredFlavor.t) (flavor : FlavorExt.t)
    : Prop :=
  (RequiredFlavor.HasName requiredFlavor = true ->
     FlavorExt.Name flavor = RequiredFlavor.Name requiredFlavor) /\
  (RequiredFlavor.HasRAM requiredFlavor = true ->
     FlavorExt.RAM flavor = RequiredFlavor.RAM requiredFlavor) /\
  (RequiredFlavor.HasVCPUs requiredFlavor = true ->
     FlavorExt.VCPUs flavor = RequiredFlavor.VCPUs requiredFlavor) /\
  (RequiredFlavor.HasDisk requiredFlavor = true ->
     FlavorExt.Disk flavor = RequiredFlavor.Disk requiredFlavor) /\
  (RequiredFlavor.HasSwap requiredFlavor = true ->
     FlavorExt.Swap flavor = RequiredFlavor.Swap requiredFlavor) /\
  (RequiredFlavor.HasRxTxFactor requiredFlavor = true ->
     float_eq (FlavorExt.RxTxFactor flavor)
              (RequiredFlavor.RxTxFactor requiredFlavor) = true) /\
  (RequiredFlavor.HasExtraSpecs requiredFlavor = true ->
     exists specs,
       FlavorExt.ExtraSpecs flavor = Some specs /\
       forall spec reqVal,
         RequiredFlavor.ExtraSpecs requiredFlavor !! spec = Some reqVal ->
         exists val, specs !! spec = Some val /\ DeepEqual val reqVal = true).

(** The flavor passes the [switch] and the loop over the extra specs. *)
Definition kept (requiredFlavor : RequiredFlavor.t) (flavor : FlavorExt.t)
    : bool :=
  negb (switch_continues requiredFlavor flavor)
  && (negb (RequiredFlavor.HasExtraSpecs requiredFlavor)
      || specs_loop (RequiredFlavor.ExtraSpecs requiredFlavor)
                    (default ∅ (FlavorExt.ExtraSpecs flavor))).

(** Less RAM, or the same RAM and less disk. *)
Definition smaller (a b : FlavorExt.t) : Prop :=
  FlavorExt.RAM a < FlavorExt.RAM b \/
  (FlavorExt.RAM a = FlavorExt.RAM b /\ FlavorExt.Disk a < FlavorExt.Disk b).

End DataSource.
End Compute.

(** A compute service to run the data source on: the remote side is the
    list of its flavors. *)
Module ComputeDemo.
Import Compute.

(** Whole numbers stand for the floats, strings for the spec values. *)
#[export] Instance values : Values := {|
  float64 := Z;
  float_eq := Z.eqb;
  float_zero := 0;
  Value := string;
  DeepEqual := String.eqb;
|}.

Definition World : Type := list Flavor.t.

#[export] Instance compute_side : ComputeRemote World := {|
  ServiceClient := unit;
  ComputeV2Client _ := inr tt;
  iflavors_Get _ id w :=
    (match List.find (fun f => String.eqb (Flavor.ID f) id) w with
     | Some f => inr f
     | None => inl (ErrOther "Resource not found")
     end, w);
  IsNotFound _ := true;
  Pages := list FlavorExt.t;
  ListDetail_AllPages _ opts w :=
    (inr (map (fun f => FlavorExt.mk f (Some ∅))
              (filter (fun f => ListOpts.MinRAM opts <= Flavor.RAM f /\
                                ListOpts.MinDisk opts <= Flavor.Disk f) w)),
     w);
  ExtractFlavorsInto pages := inr pages;
  ListExtraSpecs _ _ w := (inr ∅, w);
  Set_extra_specs _ new := new;
|}.

(** The one client there is. *)
Definition client : ServiceClient := tt.

Definition flavor_of (id name : string) (ram disk : Z) : Flavor.t :=
  Flavor.mk id disk ram name 1 0 2 true.

Definition catalogue : World :=
  [flavor_of "f1" "large" 8192 80; flavor_of "f2" "small" 2048 40;
   flavor_of "f3" "medium" 4096 40; flavor_of "f4" "small-disk" 2048 20].

(** A query with nothing set. *)
Definition no_criteria : ResourceData :=
  mkData "" "" "" "" 0 0 0 0 0 0 0 false ∅.

(** At least 2048 MB of RAM. *)
Definition at_least_2048 : ResourceData :=
  mkData "" "" "" "" 2048 0 0 0 0 0 0 false ∅.

(** The flavor f3 by its id, with or without a name next to it. *)
Definition by_id (name : string) : ResourceData :=
  mkData "" "" "f3" name 0 0 0 0 0 0 0 false ∅.

Definition state_of (w : World) (d : ResourceData) : St := mkSt w [] d.

End ComputeDemo.
(* ===================================================================== *)
(** * Facts *)
(* ===================================================================== *)

(** ** Go integers *)

Lemma wrap_id z : int_range z -> wrap z = z.
Proof.
  unfold int_range, int_min, int_max, wrap. intros H.
  rewrite Z.mod_small; lia.
Qed.

Lemma wrap_range z : int_range (wrap z).
Proof.
  unfold int_range, int_min, int_max, wrap.
  pose proof (Z.mod_pos_bound (z + 2 ^ 63) (2 ^ 64) ltac:(lia)). lia.
Qed.


(** ** Go strings *)


Lemma app_cons_s a (s t : string) : String a s +:+ t = String a (s +:+ t).
Proof. reflexivity. Qed.

Lemma app_assoc_s (a b c : string) : (a +:+ b) +:+ c = a +:+ (b +:+ c).
Proof.
  induction a as [|x a IH]; [done|].
  by rewrite !app_cons_s, IH.
Qed.

Lemma app_empty_r (a : string) : a +:+ "" = a.
Proof.
  induction a as [|x a IH]; [done|]. by rewrite app_cons_s, IH.
Qed.

Lemma HasPrefix_nil s : HasPrefix s "" = true.
Proof. by destruct s. Qed.

Lemma HasPrefix_app p t : HasPrefix (p +:+ t) p = true.
Proof.
  induction p as [|a p IH].
  - apply HasPrefix_nil.
  - rewrite app_cons_s. simpl. by rewrite Ascii.eqb_refl.
Qed.


Lemma drop_bytes_app p t : drop_bytes (String.length p) (p +:+ t) = t.
Proof.
  induction p as [|a p IH]; [done|]. rewrite app_cons_s. exact IH.
Qed.

Lemma Replace1_eq s old new :
  Replace1 s old new =
  if HasPrefix s old then new +:+ drop_bytes (String.length old) s
  else match s with
       | EmptyString => EmptyString
       | String a s' => String a (Replace1 s' old new)
       end.
Proof. by destruct s. Qed.


Lemma Replace1_found s old new :
  HasPrefix s old = true ->
  Replace1 s old new = new +:+ drop_bytes (String.length old) s.
Proof. intros H. by rewrite Replace1_eq, H. Qed.


Lemma Replace1_here old post new :
  Replace1 (old +:+ post) old new = new +:+ post.
Proof.
  rewrite Replace1_found by apply HasPrefix_app.
  by rewrite drop_bytes_app.
Qed.

(** Replacing a string by itself as a whole. *)
Lemma Replace1_self s new : Replace1 s s new = new.
Proof.
  pose proof (Replace1_here s "" new) as H.
  by rewrite !app_empty_r in H.
Qed.





(** *** The create request holds [size] descriptors per shard *)

Section TranslatorFacts.
Context `{EX : Extractors} `{KO : Constants}.


Lemma total_size_nonneg (shards : list Shard.t) :
  Forall (fun s => 0 <= Shard.size s) shards -> 0 <= total_size shards.
Proof. induction 1; simpl; lia. Qed.

Lemma translate_spec_length keypair (shards : list Shard.t) :
  Forall (fun s => 0 <= Shard.size s) shards ->
  Z.of_nat (length (translate_spec keypair shards)) = total_size shards.
Proof.
  unfold translate_spec. induction 1 as [|s l Hs Hl IH]; [done|].
  rewrite bind_cons, length_app, length_replicate. simpl. lia.
Qed.

Lemma shardInfoOf_decodes (s : Shard.t) :
  wal_decodes s -> shardInfoOf s = Val (shard_descriptor "" s).
Proof.
  unfold shardInfoOf, shard_descriptor, wal_decodes.
  destruct (extractDatabaseNetworks (Shard.network s)) as [[nics sgs] e].
  intros [E | [o E]].
  - rewrite E. done.
  - destruct (Shard.wal_volume s) as [|w l] eqn:Ew.
    + done.
    + rewrite bool_decide_true by (simpl; lia). by rewrite E.
Qed.

Lemma set_Keypair_descriptor keypair (s : Shard.t) :
  set_Keypair keypair (shard_descriptor "" s) = shard_descriptor keypair s.
Proof. done. Qed.

(** The first loop, when every WAL block decodes and the running sum
    stays within [int]. *)
Lemma shardLoop_decodes (shards : list Shard.t) :
  forall instanceCount shardsSize (shardInfo : list (InstanceCreateOpts NetworkOpts)),
  Forall wal_decodes shards ->
  Forall (fun s => 0 <= Shard.size s) shards ->
  0 <= instanceCount ->
  instanceCount + total_size shards <= int_max ->
  shardLoop shards instanceCount shardsSize shardInfo =
  Val (instanceCount + total_size shards,
       shardsSize ++ map Shard.size shards,
       shardInfo ++ map (shard_descriptor "") shards).
Proof.
  induction shards as [|s l IH]; intros ic sz info Hw Hs Hic Hmax.
  - simpl. by rewrite Z.add_0_r, !app_nil_r.
  - inversion Hw as [|? ? Hw1 Hw2]; subst.
    inversion Hs as [|? ? Hs1 Hs2]; subst.
    pose proof (total_size_nonneg l Hs2) as Hl.
    simpl in Hmax |- *. rewrite shardInfoOf_decodes by done. simpl.
    unfold int_add. rewrite wrap_id
      by (unfold int_range, int_min, int_max in *; lia).
    rewrite IH by (try done; lia).
    by rewrite <- !app_assoc, Z.add_assoc.
Qed.

Lemma slice_store_next {T} (filled rest : list T) (x v : T) :
  slice_store (filled ++ x :: rest) (Z.of_nat (length filled)) v =
  Val ((filled ++ [v]) ++ rest).
Proof.
  unfold slice_store. rewrite bool_decide_true
    by (rewrite length_app; simpl; lia).
  rewrite Nat2Z.id, <- app_assoc. f_equal.
  rewrite insert_app_r_alt by lia.
  by rewrite Nat.sub_diag.
Qed.

(** The inner loop writes [n] copies after what is already filled. *)
Lemma fillShard_run (n : nat) (v : (InstanceCreateOpts NetworkOpts)) :
  forall filled rest : list (InstanceCreateOpts NetworkOpts),
  (n <= length rest)%nat ->
  Z.of_nat (length (filled ++ rest)) <= int_max ->
  fillShard n v (Z.of_nat (length filled)) (filled ++ rest) =
  Val (Z.of_nat (length (filled ++ replicate n v)),
       (filled ++ replicate n v) ++ drop n rest).
Proof.
  induction n as [|n IH]; intros filled rest Hn Hmax.
  - simpl. by rewrite !app_nil_r, drop_0.
  - destruct rest as [|x rest]; [simpl in Hn; lia|].
    cbn [fillShard]. rewrite slice_store_next. cbn [res_bind].
    rewrite length_app in Hmax. simpl in Hn, Hmax.
    unfold int_add. rewrite wrap_id
      by (unfold int_range, int_min, int_max in *; lia).
    replace (Z.of_nat (length filled) + 1)
      with (Z.of_nat (length (filled ++ [v])))
      by (rewrite length_app; simpl; lia).
    rewrite IH.
    + cbn [replicate drop]. by rewrite <- !app_assoc.
    + lia.
    + rewrite !length_app in *. simpl. lia.
Qed.

(** The outer loop writes the blocks one after the other. *)
Lemma fillAll_run keypair (shards : list Shard.t) :
  forall filled rest : list (InstanceCreateOpts NetworkOpts),
  Forall (fun s => 0 <= Shard.size s) shards ->
  total_size shards <= Z.of_nat (length rest) ->
  Z.of_nat (length (filled ++ rest)) <= int_max ->
  fillAll (zip (map Shard.size shards)
               (map (shard_descriptor keypair) shards))
          (Z.of_nat (length filled)) (filled ++ rest) =
  Val (Z.of_nat (length (filled ++ translate_spec keypair shards)),
       (filled ++ translate_spec keypair shards)
       ++ drop (Z.to_nat (total_size shards)) rest).
Proof.
  induction shards as [|s l IH]; intros filled rest Hs Hlen Hmax.
  - simpl. by rewrite !app_nil_r, drop_0.
  - inversion Hs as [|? ? Hs1 Hs2]; subst.
    pose proof (total_size_nonneg l Hs2) as Hl.
    simpl in Hlen. cbn [map zip zip_with fillAll].
    rewrite fillShard_run by (try done; lia). cbn [res_bind fst snd].
    rewrite IH; try done.
    + unfold translate_spec. rewrite bind_cons.
      rewrite <- !app_assoc, drop_drop. repeat f_equal. 
      simpl. lia.
    + rewrite length_drop. lia.
    + rewrite !length_app, length_replicate, length_drop in *. lia.
Qed.

End TranslatorFacts.

(* ===================================================================== *)
(** ** The update function executes its plan *)
(* ===================================================================== *)

Section UpdateFacts.
Context `{EX : Extractors} `{KO : Constants} {W : Type} `{RE : !Remote W} `{RH : !ReadHelpers W}
        `{AC : !Actions}.

Lemma bind_ext_l {A B} (m m' : M A) (k : A -> M B) st :
  m st = m' st -> bind m k st = bind m' k st.
Proof. unfold bind. by intros ->. Qed.

Lemma bind_ext_r {A B} (m : M A) (k k' : A -> M B) st :
  (forall a st', k a st' = k' a st') -> bind m k st = bind m k' st.
Proof.
  intros E. unfold bind. destruct (m st) as [[a| |] st']; [apply E|done..].
Qed.

Lemma bind_assoc {A B C} (m : M A) (f : A -> M B) (g : B -> M C) st :
  bind (bind m f) g st = bind m (fun x => bind (f x) g) st.
Proof. unfold bind. by destruct (m st) as [[a| |] st']. Qed.

Lemma st_eta (st : St) : mkSt (world st) (calls st) (data st) = st.
Proof. by destruct st. Qed.

Lemma after_plan_nil updateCtx clusterID st :
  after_plan [] updateCtx clusterID st = (Val tt, st).
Proof.
  unfold after_plan, action_calls. simpl. by rewrite app_nil_r, st_eta.
Qed.

Lemma after_plan_cons a plan updateCtx clusterID st :
  after_plan (a :: plan) updateCtx clusterID st =
  bind (call a updateCtx)
       (fun err => bind (check err clusterID (action_shard a))
                        (fun _ => after_plan plan updateCtx clusterID)) st.
Proof.
  unfold after_plan, bind, call, remote, check, exit, ret, action_calls.
  cbn [execPlan].
  destruct (runAction a updateCtx (world st)) as [[err|] w']; simpl.
  - done.
  - destruct (execPlan plan updateCtx w') as [[attempted failure] w''].
    simpl. rewrite <- app_assoc. simpl. by destruct failure as [[? ?]|].
Qed.

Lemma after_plan_app l1 l2 updateCtx clusterID st :
  after_plan (l1 ++ l2) updateCtx clusterID st =
  bind (after_plan l1 updateCtx clusterID)
       (fun _ => after_plan l2 updateCtx clusterID) st.
Proof.
  revert st. induction l1 as [|a l1 IH]; intros st.
  - unfold bind. by rewrite after_plan_nil.
  - simpl. rewrite after_plan_cons.
    rewrite (bind_ext_l _ _ _ _ (after_plan_cons _ _ _ _ _)).
    rewrite bind_assoc. apply bind_ext_r. intros err st1.
    rewrite bind_assoc. apply bind_ext_r. intros _ st2.
    apply IH.
Qed.

Lemma onChange_plan changed a updateCtx clusterID st :
  onChange changed a updateCtx clusterID (action_shard a) st =
  after_plan (when_changed changed a) updateCtx clusterID st.
Proof.
  unfold onChange, when_changed. destruct changed.
  - rewrite after_plan_cons. apply bind_ext_r. intros err st'.
    unfold bind. destruct (check err clusterID (action_shard a) st')
      as [[[]| |] st2]; [|done..].
    by rewrite after_plan_nil.
  - by rewrite after_plan_nil.
Qed.

Lemma onSizeChange_plan i updateCtx clusterID shardID st :
  onSizeChange i updateCtx clusterID shardID st =
  after_plan (plan_size (D updateCtx) i shardID) updateCtx clusterID st.
Proof.
  unfold onSizeChange, plan_size, HasChangeAt, GetChangeAt.
  set (old := Shard.size (shardAt (prior (D updateCtx)) i)).
  set (new := Shard.size (shardAt (current (D updateCtx)) i)).
  destruct (decide (old = new)) as [E|E].
  - rewrite bool_decide_false by tauto. rewrite bool_decide_true by done.
    by rewrite after_plan_nil.
  - rewrite bool_decide_true by done. rewrite (bool_decide_false (old = new)) by done.
    destruct (bool_decide (int_sub new old > 0)).
    + rewrite after_plan_cons. apply bind_ext_r. intros err st'.
      unfold bind. simpl.
      destruct (check err clusterID shardID st') as [[[]| |] st2]; [|done..].
      by rewrite after_plan_nil.
    + destruct (bool_decide (int_sub new old < 0)).
      * rewrite after_plan_cons. apply bind_ext_r. intros err st'.
        unfold bind. simpl.
        destruct (check err clusterID shardID st') as [[[]| |] st2]; [|done..].
        by rewrite after_plan_nil.
      * unfold bind, ret, check. by rewrite after_plan_nil.
Qed.

(** One [if d.HasChange(...)] block against the head of the plan. *)
Ltac plan_step a :=
  rewrite after_plan_app;
  rewrite (bind_ext_l _ _ _ _ (onChange_plan _ a _ _ _));
  apply bind_ext_r; intros _ ?.

Lemma updateShard_plan i shard updateCtx clusterID st :
  updateShard i shard updateCtx clusterID st =
  after_plan (plan_shard (D updateCtx) i shard) updateCtx clusterID st.
Proof.
  unfold updateShard, plan_shard.
  set (shardID := Shard.shard_id shard).
  plan_step (databaseClusterActionResizeVolume shardID).
  plan_step (databaseClusterActionResizeWalVolume shardID).
  plan_step (databaseClusterActionResizeFlavor shardID).
  apply onSizeChange_plan.
Qed.

Lemma updateShards_plan shards : forall i updateCtx clusterID st,
  updateShards i shards updateCtx clusterID st =
  after_plan (plan_shards (D updateCtx) i shards) updateCtx clusterID st.
Proof.
  induction shards as [|shard rest IH]; intros i updateCtx clusterID st.
  - simpl. by rewrite after_plan_nil.
  - simpl. rewrite after_plan_app.
    rewrite (bind_ext_l _ _ _ _ (updateShard_plan _ _ _ _ _)).
    apply bind_ext_r. intros _ st1. apply IH.
Qed.

(** The update function, once it has its client, does what executing
    [Plan] step by step does. *)
Lemma updateActions_plan st dbClient :
  DatabaseV1Client (data st) = inr dbClient ->
  updateActions st =
  after_plan (Plan (data st)) (updateCtxOf (data st) dbClient)
             (Id (data st)) st.
Proof.
  intros Hc. unfold updateActions, Plan, plan_top.
  unfold bind at 1. unfold getData at 1.
  unfold bind at 1. unfold lift, clientOrExit. rewrite Hc.
  fold (updateCtxOf (data st) dbClient).
  rewrite <- !app_assoc.
  plan_step databaseClusterActionUpdateConfiguration.
  plan_step databaseClusterUpdateDiskAutoexpand.
  plan_step databaseClusterUpdateWalDiskAutoexpand.
  plan_step databaseClusterActionApplyCapabilities.
  plan_step databaseClusterUpdateCloudMonitoring.
  apply updateShards_plan.
Qed.

End UpdateFacts.

(* ===================================================================== *)
(** ** The create path *)
(* ===================================================================== *)

Section CreateFacts.
Context `{EX : Extractors} `{KO : Constants} {W : Type} `{RE : !Remote W}
        `{RH : !ReadHelpers W}.

Lemma clusterInstancesOf_spec keypair (shards : list Shard.t) :
  Forall (fun s => 0 <= Shard.size s) shards ->
  total_size shards <= int_max ->
  total_size shards <= maxSliceLen ->
  Forall wal_decodes shards ->
  clusterInstancesOf keypair shards = Val (translate_spec keypair shards).
Proof.
  intros Hs Hmax Hlen Hw. unfold clusterInstancesOf.
  pose proof (total_size_nonneg shards Hs) as Hpos.
  rewrite shardLoop_decodes by (try done; lia). cbn [res_bind].
  rewrite Z.add_0_l, !app_nil_l.
  unfold make_slice. rewrite bool_decide_false by lia. cbn [res_bind].
  rewrite map_map.
  rewrite (map_ext _ (shard_descriptor keypair)) by done.
  pose proof (fillAll_run keypair shards []
                (replicate (Z.to_nat (total_size shards)) zeroInstance)) as F.
  rewrite !app_nil_l in F. simpl length in F.
  change (Z.of_nat 0) with 0 in F.
  rewrite F.
  - cbn [res_bind snd]. rewrite drop_ge by (rewrite length_replicate; lia).
    by rewrite app_nil_r.
  - done.
  - rewrite length_replicate. lia.
  - rewrite length_replicate. lia.
Qed.

Lemma optional_decodes {A B} (v : list A) (extract : list A -> error + B)
    (what : string) :
  decodes v extract ->
  exists o, optional (GetOk_list v).2 v extract what = Val o.
Proof.
  unfold decodes, optional. intros [-> | [x E]].
  - by exists None.
  - destruct v; simpl; [by exists None|]. rewrite E. by exists (Some x).
Qed.

(** With decodable blocks and sizes that fit, the request is built and
    its instance list is the translation of the shards. *)
Lemma createOptsOf_succeeds (d : ResourceData) :
  extractions_succeed (current d) ->
  Forall (fun s => 0 <= Shard.size s) (Cluster.shard (current d)) ->
  total_size (Cluster.shard (current d)) <= int_max ->
  total_size (Cluster.shard (current d)) <= maxSliceLen ->
  exists createOpts checkCapabilities,
    createOptsOf d = Val (createOpts, checkCapabilities) /\
    Instances createOpts =
    translate_spec (Cluster.keypair (current d)) (Cluster.shard (current d)).
Proof.
  intros (Hr & Hd & Ha & Hw & Hc & Hs) Hsz Hmax Hlen. unfold createOptsOf.
  destruct (optional_decodes _ _ "restore_point" Hr) as [o1 ->].
  destruct (optional_decodes _ _ "datastore" Hd) as [o2 ->].
  destruct (optional_decodes _ _ "disk_autoexpand" Ha) as [o3 ->].
  destruct (optional_decodes _ _ "wal_disk_autoexpand" Hw) as [o4 ->].
  cbn [res_bind]. rewrite clusterInstancesOf_spec by done.
  destruct (optional_decodes _ _ "capability" Hc) as [o5 ->].
  cbn [res_bind]. eauto.
Qed.

Lemma adds_nothing (P : Call -> Prop) {A} (m : M A) :
  (forall st, calls (m st).2 = calls st) -> adds P m.
Proof. intros E st. exists []. by rewrite app_nil_r, E. Qed.

Lemma adds_ret P {A} (a : A) : adds P (ret a).
Proof. by apply adds_nothing. Qed.

Lemma adds_exit P {A} ds : adds P (exit (A:=A) ds).
Proof. by apply adds_nothing. Qed.

Lemma adds_lift P {A} (r : Res A) : adds P (lift r).
Proof. by apply adds_nothing. Qed.

Lemma adds_getData P : adds P getData.
Proof. by apply adds_nothing. Qed.

Lemma adds_setData P d : adds P (setData d).
Proof. by apply adds_nothing. Qed.

Lemma adds_remote (P : Call -> Prop) {A} c (f : W -> A * W) :
  P c -> adds P (remote c f).
Proof.
  intros Hc st. unfold remote. destruct (f (world st)) as [a w'].
  exists [c]. split; [done|]. by constructor.
Qed.

Lemma adds_bind P {A B} (m : M A) (k : A -> M B) :
  adds P m -> (forall a, adds P (k a)) -> adds P (bind m k).
Proof.
  intros Hm Hk st. unfold bind. destruct (Hm st) as (m1 & E1 & F1).
  destruct (m st) as [[a| |] st1]; simpl in *; [|by exists m1..].
  destruct (Hk a st1) as (m2 & E2 & F2). exists (m1 ++ m2).
  split; [by rewrite E2, E1, app_assoc | by apply Forall_app].
Qed.

Lemma adds_body P (m : M Diagnostics) : adds P m -> adds P (body m).
Proof.
  intros Hm st. unfold body. destruct (Hm st) as (m1 & E1 & F1).
  exists m1. by destruct (m st) as [[a| |] st1].
Qed.

Lemma adds_weaken (P Q : Call -> Prop) {A} (m : M A) :
  (forall c, P c -> Q c) -> adds P m -> adds Q m.
Proof.
  intros HPQ Hm st. destruct (Hm st) as (more & E & F).
  exists more. split; [done|]. eapply Forall_impl; eauto.
Qed.

End CreateFacts.

(** Structural part of an [adds] proof; the calls themselves are left
    as goals [P c]. *)
Ltac adds_steps :=
  repeat first
    [ apply adds_body | apply adds_bind | apply adds_ret
    | apply adds_exit | apply adds_lift | apply adds_getData
    | apply adds_setData | apply adds_remote
    | match goal with
      | |- forall _, adds _ _ => intro
      | |- adds _ (match ?x with _ => _ end) => destruct x
      | |- adds _ (if ?x then _ else _) => destruct x
      | |- adds _ (let '(_, _) := ?x in _) => destruct x
      end ].

Section CreateCalls.
Context `{EX : Extractors} `{KO : Constants} {W : Type} `{RE : !Remote W}
        `{RH : !ReadHelpers W}.

(** The read function only asks for the cluster. *)
Lemma Read_adds : adds is_get resourceDatabaseClusterWithShardsRead.
Proof.
  unfold resourceDatabaseClusterWithShardsRead. adds_steps.
  all: by eexists.
Qed.

Lemma remote_then_calls {A B} c (f : W -> A * W) (k : A -> M B) st :
  (forall a, adds (fun _ => True) (k a)) ->
  exists more, calls (bind (remote c f) k st).2 = calls st ++ c :: more.
Proof.
  intros G. unfold bind, remote. destruct (f (world st)) as [a w'].
  destruct (G a (mkSt w' (calls st ++ [c]) (data st))) as (more & E & _).
  exists more. rewrite E. simpl. by rewrite <- app_assoc.
Qed.

(** Once the request is built, [clusters.Create] is the next call that
    leaves the provider. *)
Lemma Create_calls st client createOpts checkCapabilities :
  DatabaseV1Client (data st) = inr client ->
  createOptsOf (data st) = Val (createOpts, checkCapabilities) ->
  exists more,
    calls (resourceDatabaseClusterWithShardsCreate st).2 =
    calls st ++ CallCreate createOpts :: more.
Proof.
  intros Hc Ho. unfold resourceDatabaseClusterWithShardsCreate.
  unfold body, bind at 1, getData. unfold bind at 1, lift, clientOrExit.
  rewrite Hc. unfold bind at 1. rewrite Ho.
  match goal with
  | |- context [bind (remote ?c ?f) ?k st] =>
      destruct (remote_then_calls c f k st) as [more E];
        [ intros a; adds_steps; done | ];
      exists more;
      destruct (bind (remote c f) k st) as [[?| |] st']; exact E
  end.
Qed.

End CreateCalls.

(* ===================================================================== *)
(** ** Schema validation *)
(* ===================================================================== *)

Section ValidationFacts.
Context `{EX : Extractors} `{KO : Constants} {W : Type} `{RE : !Remote W}
        `{RH : !ReadHelpers W}.

Lemma ValidateFunc_accepts v key :
  datastore_type_ValidateFunc v key = ([], []) <-> v = Clickhouse.
Proof.
  unfold datastore_type_ValidateFunc.
  case_bool_decide; split; intros E; done.
Qed.

Lemma ValidateFunc_rejects v key :
  v <> Clickhouse ->
  exists e, datastore_type_ValidateFunc v key = ([], [e]).
Proof.
  intros E. unfold datastore_type_ValidateFunc.
  rewrite bool_decide_true by done. eauto.
Qed.

Lemma validate_datastore_type ds :
  validate_datastore ds = [] -> RawDatastore.type ds = Some Clickhouse.
Proof.
  unfold validate_datastore. intros E.
  apply app_eq_nil in E as [_ E].
  destruct (RawDatastore.type ds) as [v|]; [|done].
  f_equal. apply (ValidateFunc_accepts v "type").
  destruct (datastore_type_ValidateFunc v "type") as [warns errs] eqn:Ev.
  simpl in E. subst errs.
  unfold datastore_type_ValidateFunc in *. by case_bool_decide.
Qed.

Lemma validate_shard_volume_size sh :
  validate_shard sh = [] -> is_Some (RawShard.volume_size sh).
Proof.
  unfold validate_shard. intros E.
  repeat (apply app_eq_nil in E as [? E]).
  destruct (RawShard.volume_size sh); [eauto|done].
Qed.

(** A configuration that passes has exactly one datastore block, of
    type clickhouse, and a volume size in every shard. *)
Lemma validateSchema_passes raw :
  validateSchema raw = [] ->
  (exists ds, RawConfig.datastore raw = [ds] /\
              RawDatastore.type ds = Some Clickhouse) /\
  Forall (fun sh => is_Some (RawShard.volume_size sh)) (RawConfig.shard raw).
Proof.
  unfold validateSchema. intros E.
  apply app_eq_nil in E as [_ E]. apply app_eq_nil in E as [Ed Es]. split.
  - destruct (RawConfig.datastore raw) as [|ds [|ds' l]]; try done.
    exists ds. split; [done|]. by apply validate_datastore_type.
  - destruct (RawConfig.shard raw) as [|sh l] eqn:El; [done|].
    rewrite <- El in *. clear El.
    induction (RawConfig.shard raw) as [|x xs IH]; [constructor|].
    rewrite bind_cons in Es. apply app_eq_nil in Es as [E1 E2].
    constructor; [by apply validate_shard_volume_size | by apply IH].
Qed.

Lemma HasError_errors (errs : list error) :
  errs <> [] ->
  HasError (map (fun e => mkDiagnostic SevError (Error e)) errs) = true.
Proof.
  intros E. unfold HasError. apply bool_decide_eq_true.
  destruct errs as [|e l]; [done|]. by constructor.
Qed.

(** A configuration that does not pass is answered with the errors and
    nothing else happens. *)
Lemma applyCreate_rejects raw st :
  validateSchema raw <> [] ->
  exists diags, applyCreate raw st = (Ret diags, st) /\ HasError diags = true.
Proof.
  intros E. unfold applyCreate.
  destruct (validateSchema raw) as [|e l] eqn:Ev; [done|].
  eexists. split; [reflexivity|]. by apply HasError_errors.
Qed.

Lemma applyCreate_passes raw st :
  validateSchema raw = [] ->
  applyCreate raw st =
  resourceDatabaseClusterWithShardsCreate
    (mkSt (world st) (calls st)
          (mkData "" no_cluster (RawConfig.decode raw) (Some resource_Timeouts))).
Proof. intros E. unfold applyCreate. by rewrite E. Qed.

End ValidationFacts.

(* ===================================================================== *)
(** ** The sequencer *)
(* ===================================================================== *)

Section SequencerFacts.
Context `{EX : Extractors} `{KO : Constants} {W : Type} `{RE : !Remote W}
        `{RH : !ReadHelpers W} `{AC : !Actions}.

Lemma actions_of_app (l1 l2 : list Call) :
  actions_of (l1 ++ l2) = actions_of l1 ++ actions_of l2.
Proof. unfold actions_of. apply omap_app. Qed.

Lemma actions_of_action_calls updateCtx (l : list Action) :
  actions_of (action_calls updateCtx l) = l.
Proof.
  unfold actions_of, action_calls. induction l as [|a l IH]; [done|].
  simpl. f_equal. exact IH.
Qed.

Lemma actions_of_gets (l : list Call) : Forall is_get l -> actions_of l = [].
Proof.
  induction 1 as [|c l [id ->] _ IH]; [done|]. simpl. exact IH.
Qed.

(** What was attempted is the plan up to and including the first
    action that failed: the ones before it succeeded, one after the
    other, and then that one returned the error. *)
Lemma execPlan_attempted plan updateCtx : forall w attempted failure w',
  execPlan plan updateCtx w = (attempted, failure, w') ->
  match failure with
  | None => attempted = plan
  | Some (a, err) =>
      exists before after w0,
        plan = before ++ a :: after /\ attempted = before ++ [a] /\
        execPlan before updateCtx w = (before, None, w0) /\
        runAction a updateCtx w0 = (Some err, w')
  end.
Proof.
  induction plan as [|a plan IH]; intros w attempted failure w' E.
  - simpl in E. by injection E as <- <- <-.
  - simpl in E. destruct (runAction a updateCtx w) as [[err|] w1] eqn:Ea.
    + injection E as <- <- <-. by exists [], plan, w.
    + destruct (execPlan plan updateCtx w1) as [[att f] w2] eqn:E1.
      injection E as <- <- <-. specialize (IH _ _ _ _ E1).
      destruct f as [[b err]|].
      * destruct IH as (before & after & w0 & -> & -> & Eb & Er).
        exists (a :: before), after, w0. repeat split; try done.
        simpl. by rewrite Ea, Eb.
      * by rewrite IH.
Qed.

Lemma execPlan_prefix plan updateCtx w :
  (execPlan plan updateCtx w).1.1 `prefix_of` plan.
Proof.
  destruct (execPlan plan updateCtx w) as [[attempted failure] w'] eqn:E.
  apply execPlan_attempted in E. simpl. destruct failure as [[a err]|].
  - destruct E as (before & after & w0 & -> & -> & _).
    exists after. by rewrite <- app_assoc.
  - by rewrite E.
Qed.

Lemma execPlan_all_succeed plan updateCtx :
  (forall a w, (runAction a updateCtx w).1 = None) ->
  forall w, (execPlan plan updateCtx w).1 = (plan, None).
Proof.
  intros Hok. induction plan as [|a plan IH]; intros w; [done|].
  simpl. specialize (Hok a w).
  destruct (runAction a updateCtx w) as [[err|] w1]; [done|].
  specialize (IH w1). destruct (execPlan plan updateCtx w1) as [[att f] w2].
  simpl in *. by injection IH as -> ->.
Qed.

Lemma when_changed_sublist changed a : when_changed changed a `sublist_of` [a].
Proof.
  unfold when_changed. destruct changed; [done|]. by apply sublist_nil_l.
Qed.

Lemma plan_size_sublist d i shardID :
  plan_size d i shardID `sublist_of`
  [databaseClusterActionGrow shardID; databaseClusterActionShrink shardID].
Proof.
  unfold plan_size, GetChangeAt.
  repeat case_bool_decide; try apply sublist_nil_l.
  - by apply sublist_skip_r || (constructor; apply sublist_nil_l).
  - apply sublist_cons. constructor. apply sublist_nil_l.
Qed.

Lemma plan_shards_sublist d shards : forall i,
  plan_shards d i shards `sublist_of`
  (shards ≫= fun shard =>
     let shardID := Shard.shard_id shard in
     [ databaseClusterActionResizeVolume shardID;
       databaseClusterActionResizeWalVolume shardID;
       databaseClusterActionResizeFlavor shardID;
       databaseClusterActionGrow shardID;
       databaseClusterActionShrink shardID ]).
Proof.
  induction shards as [|shard rest IH]; intros i; [done|].
  cbn [plan_shards]. rewrite bind_cons. apply sublist_app; [|apply IH].
  unfold plan_shard.
  apply (sublist_app _ [_] _ _); [apply when_changed_sublist|].
  apply (sublist_app _ [_] _ _); [apply when_changed_sublist|].
  apply (sublist_app _ [_] _ _); [apply when_changed_sublist|].
  apply plan_size_sublist.
Qed.

(** The plan never leaves the fixed order. *)
Lemma Plan_sublist d :
  Plan d `sublist_of` all_actions (Cluster.shard (current d)).
Proof.
  unfold Plan, all_actions, plan_top. apply sublist_app.
  - apply (sublist_app _ [_] _ _); [apply when_changed_sublist|].
    apply (sublist_app _ [_] _ _); [apply when_changed_sublist|].
    apply (sublist_app _ [_] _ _); [apply when_changed_sublist|].
    apply (sublist_app _ [_] _ _); [apply when_changed_sublist|].
    apply when_changed_sublist.
  - apply plan_shards_sublist.
Qed.

Lemma body_fixed (m : M Diagnostics) st :
  match body m st with
  | (Val ds, st') => (Ret ds, st')
  | other => other
  end = body m st.
Proof. unfold body. by destruct (m st) as [[?| |] ?]. Qed.

(** The whole update function in terms of the plan. *)
Lemma Update_run st dbClient :
  DatabaseV1Client (data st) = inr dbClient ->
  let d := data st in
  let updateCtx := updateCtxOf d dbClient in
  forall attempted failure w',
  execPlan (Plan d) updateCtx (world st) = (attempted, failure, w') ->
  let st1 := mkSt w' (calls st ++ action_calls updateCtx attempted) d in
  resourceDatabaseClusterWithShardsUpdate st =
  match failure with
  | Some (a, err) =>
      (Ret (databaseClusterWithShardsUpdateProcessError err (Id d)
              (action_shard a)), st1)
  | None => resourceDatabaseClusterWithShardsRead st1
  end.
Proof.
  intros Hc d updateCtx attempted failure w' E st1.
  unfold resourceDatabaseClusterWithShardsUpdate, body, bind.
  rewrite (updateActions_plan st dbClient Hc).
  unfold after_plan. fold d updateCtx. rewrite E. fold st1.
  destruct failure as [[a err]|]; [done|].
  apply (body_fixed _ st1).
Qed.

End SequencerFacts.

(* ===================================================================== *)
(** ** The text of the update diagnostic *)
(* ===================================================================== *)






Section MessageFacts.
Context `{EX : Extractors} `{KO : Constants} {W : Type} `{RE : !Remote W}
        `{RH : !ReadHelpers W}.





(** An error that is a sentinel itself gets the text of the [switch]. *)
Lemma errMsgOf_sentinel s clusterID shardID :
  errMsgOf (ErrSentinel s) clusterID shardID =
  sentinel_message s clusterID shardID.
Proof. unfold errMsgOf. simpl. apply Replace1_self. Qed.



End MessageFacts.

(* ===================================================================== *)
(** ** What the plan depends on *)
(* ===================================================================== *)

Section PlanFacts.
Context `{EX : Extractors} `{KO : Constants} {W : Type} `{RE : !Remote W}
        `{RH : !ReadHelpers W} `{AC : !Actions}.

Lemma plan_size_unchanged d i shardID :
  HasChangeAt i Shard.size d = false -> plan_size d i shardID = [].
Proof.
  unfold HasChangeAt, plan_size, GetChangeAt. intros E.
  apply bool_decide_eq_false in E.
  rewrite bool_decide_true; [done|].
  by destruct (decide (Shard.size (shardAt (prior d) i)
                       = Shard.size (shardAt (current d) i))).
Qed.

Lemma plan_shard_unchanged d i shard :
  shard_unchanged d i -> plan_shard d i shard = [].
Proof.
  intros (E1 & E2 & E3 & E4). unfold plan_shard.
  by rewrite E1, E2, E3, plan_size_unchanged.
Qed.

Lemma plan_size_grows d i shardID :
  let old := Shard.size (shardAt (prior d) i) in
  let new := Shard.size (shardAt (current d) i) in
  int_range (new - old) -> old < new ->
  plan_size d i shardID = [databaseClusterActionGrow shardID].
Proof.
  intros old new Hr Hlt. unfold plan_size, GetChangeAt. fold old new.
  rewrite bool_decide_false by lia.
  unfold int_sub. rewrite wrap_id by done.
  by rewrite bool_decide_true by lia.
Qed.

Lemma plan_size_shrinks d i shardID :
  let old := Shard.size (shardAt (prior d) i) in
  let new := Shard.size (shardAt (current d) i) in
  int_range (new - old) -> new < old ->
  plan_size d i shardID = [databaseClusterActionShrink shardID].
Proof.
  intros old new Hr Hlt. unfold plan_size, GetChangeAt. fold old new.
  rewrite bool_decide_false by lia.
  unfold int_sub. rewrite wrap_id by done.
  rewrite bool_decide_false by lia.
  by rewrite bool_decide_true by lia.
Qed.

Lemma plan_shard_only_grows d i shard :
  shard_only_grows d i ->
  plan_shard d i shard = [databaseClusterActionGrow (Shard.shard_id shard)].
Proof.
  intros (E1 & E2 & E3 & H0 & Hlt & Hmax). unfold plan_shard.
  rewrite E1, E2, E3. simpl. apply plan_size_grows; [|done].
  unfold int_range, int_min, int_max in *. lia.
Qed.

Lemma plan_shards_unchanged d shards : forall k,
  (forall j, (k <= j)%nat -> shard_unchanged d j) ->
  plan_shards d k shards = [].
Proof.
  induction shards as [|shard rest IH]; intros k Hu; [done|].
  simpl. rewrite plan_shard_unchanged by (apply Hu; lia).
  apply IH. intros j Hj. apply Hu. lia.
Qed.

(** When one shard only grows and the others do not change, the shard
    part of the plan is the one Grow. *)
Lemma plan_shards_one_grows d i shardX shards : forall k,
  (k <= i)%nat ->
  shards !! (i - k)%nat = Some shardX ->
  shard_only_grows d i ->
  (forall j, j <> i -> shard_unchanged d j) ->
  plan_shards d k shards = [databaseClusterActionGrow (Shard.shard_id shardX)].
Proof.
  induction shards as [|shard rest IH]; intros k Hk Hl Hg Hu; [done|].
  cbn [plan_shards]. destruct (decide (k = i)) as [->|Hne].
  - rewrite Nat.sub_diag in Hl. injection Hl as ->.
    rewrite plan_shard_only_grows by done.
    rewrite plan_shards_unchanged; [done|].
    intros j Hj. apply Hu. lia.
  - rewrite plan_shard_unchanged by (by apply Hu).
    apply IH; [lia| |done..].
    replace (i - k)%nat with (S (i - S k)) in Hl by lia. exact Hl.
Qed.

(** *** [shrink_options] is not looked at *)

Lemma shardAt_without c i :
  shardAt (without_shrink_options c) i =
  Shard.with_shrink_options [] (shardAt c i).
Proof.
  unfold shardAt, without_shrink_options. simpl.
  rewrite list_lookup_fmap. by destruct (Cluster.shard c !! i).
Qed.

Lemma HasChangeAt_forget {A} `{EqDecision A} (f : Shard.t -> A) i d :
  (forall s, f (Shard.with_shrink_options [] s) = f s) ->
  HasChangeAt i f (forget_shrink_options d) = HasChangeAt i f d.
Proof.
  intros Hf. unfold HasChangeAt, forget_shrink_options. simpl.
  by rewrite !shardAt_without, !Hf.
Qed.

Lemma plan_shards_forget d shards : forall i,
  plan_shards (forget_shrink_options d) i
    (map (Shard.with_shrink_options []) shards) =
  plan_shards d i shards.
Proof.
  induction shards as [|shard rest IH]; intros i; [done|].
  cbn [map plan_shards]. rewrite IH. f_equal.
  unfold plan_shard, plan_size, GetChangeAt.
  rewrite !HasChangeAt_forget by done.
  unfold forget_shrink_options. simpl. by rewrite !shardAt_without.
Qed.

(** The plan of two states is the plan of the same states with all
    [shrink_options] emptied. *)
Lemma Plan_forget d : Plan (forget_shrink_options d) = Plan d.
Proof.
  unfold Plan. f_equal.
  apply (plan_shards_forget d (Cluster.shard (current d)) 0%nat).
Qed.

(** Without any difference there is nothing to do. *)
Lemma Plan_same d : prior d = current d -> Plan d = [].
Proof.
  intros E. unfold Plan, plan_top, HasChange. rewrite E.
  rewrite !bool_decide_false by (intros ?; done). simpl.
  apply plan_shards_unchanged. intros j _.
  unfold shard_unchanged, HasChangeAt. rewrite E.
  by rewrite !bool_decide_false by (intros ?; done).
Qed.

End PlanFacts.

(* ===================================================================== *)
(** ** The read path *)
(* ===================================================================== *)

Section ReadFacts.
Context `{EX : Extractors} `{KO : Constants} {W : Type} `{RE : !Remote W}
        `{RH : !ReadHelpers W}.

Abbreviation group_step :=
  (fun (m : gmap string (list Resp.ClusterInstanceResp)) inst =>
     <[Resp.ShardID inst := default [] (m !! Resp.ShardID inst) ++ [inst]]> m).

Abbreviation of_shard id :=
  (filter (fun x : Resp.ClusterInstanceResp => Resp.ShardID x = id)).

(** Grouping appends, to the group of every id, the instances of that
    id in their order. *)
Lemma group_lookup instances : forall m0 id,
  default [] (foldl group_step m0 instances !! id) =
  default [] (m0 !! id) ++ of_shard id instances.
Proof.
  induction instances as [|inst rest IH]; intros m0 id.
  - simpl. by rewrite app_nil_r.
  - cbn [foldl]. rewrite IH. rewrite filter_cons.
    destruct (decide (Resp.ShardID inst = id)) as [E|E].
    + rewrite E, lookup_insert_eq. simpl. by rewrite <- app_assoc.
    + by rewrite lookup_insert_ne.
Qed.

Lemma group_is_Some instances : forall m0 id,
  is_Some (foldl group_step m0 instances !! id) <->
  is_Some (m0 !! id) \/ id ∈ map Resp.ShardID instances.
Proof.
  induction instances as [|inst rest IH]; intros m0 id.
  - simpl. split; [by left | intros [?|Hin]; [done | by inversion Hin]].
  - cbn [foldl map]. rewrite IH, elem_of_cons.
    destruct (decide (Resp.ShardID inst = id)) as [E|E].
    + rewrite E, lookup_insert_eq. split; [intros _; right; by left|eauto].
    + rewrite lookup_insert_ne by done. split.
      * intros [?|?]; [by left | right; by right].
      * intros [?|[?|?]]; [by left | by destruct E | by right].
Qed.

(** A group of the grouping: the instances of its id, at least one. *)
Lemma group_spec instances id l :
  getDatabaseClusterShardInstances instances !! id = Some l ->
  l = of_shard id instances /\ id ∈ map Resp.ShardID instances.
Proof.
  unfold getDatabaseClusterShardInstances. intros E. split.
  - pose proof (group_lookup instances ∅ id) as G.
    rewrite E, lookup_empty in G. exact G.
  - pose proof (proj1 (group_is_Some instances ∅ id)) as G.
    rewrite E, lookup_empty in G. destruct G as [[? ?]|G]; [eauto|done|done].
Qed.

Lemma group_exists instances id :
  id ∈ map Resp.ShardID instances ->
  is_Some (getDatabaseClusterShardInstances instances !! id).
Proof.
  intros Hin. apply group_is_Some. by right.
Qed.

Lemma flatten_shard_id id insts :
  FlatShard.shard_id (flattenDatabaseClusterShard id insts) = id.
Proof.
  unfold flattenDatabaseClusterShard.
  by destruct (flattenShardAttributes insts) as [[? ?] ?].
Qed.

Lemma flatten_size id insts :
  FlatShard.size (flattenDatabaseClusterShard id insts)
  = Z.of_nat (length insts).
Proof.
  unfold flattenDatabaseClusterShard.
  by destruct (flattenShardAttributes insts) as [[? ?] ?].
Qed.

Lemma flatten_ids m :
  map FlatShard.shard_id (flattenDatabaseClusterShards m)
  = (map_to_list m).*1.
Proof.
  unfold flattenDatabaseClusterShards.
  induction (map_to_list m) as [|[id l] rest IH]; [done|].
  simpl. by rewrite flatten_shard_id, IH.
Qed.

Lemma flatten_elem sh m :
  sh ∈ flattenDatabaseClusterShards m ->
  exists id l, m !! id = Some l /\ sh = flattenDatabaseClusterShard id l.
Proof.
  unfold flattenDatabaseClusterShards. intros Hin.
  apply list_elem_of_fmap in Hin as ([id l] & -> & Hin).
  exists id, l. split; [by apply elem_of_map_to_list|done].
Qed.

(** [OuterLoop] is a stable split. *)
Lemma OuterLoop_filter flattened rawShards : forall shards newShards,
  OuterLoop flattened rawShards shards newShards =
  (shards ++ filter (fun f => declared rawShards f = true) flattened,
   newShards ++ filter (fun f => declared rawShards f <> true) flattened).
Proof.
  induction flattened as [|fSh rest IH]; intros shards newShards.
  - simpl. by rewrite !app_nil_r.
  - cbn [OuterLoop]. rewrite !filter_cons.
    destruct (declared rawShards fSh) eqn:E.
    + rewrite IH. rewrite decide_True by done.
      rewrite decide_False by (intros H; by apply H).
      by rewrite <- app_assoc.
    + rewrite IH. rewrite decide_False by done.
      rewrite decide_True by done. by rewrite <- app_assoc.
Qed.

(** The order of the read path: the shards sorted by id, the declared
    ones before the others. *)
Lemma orderShards_filter flattened rawShards :
  orderShards flattened rawShards =
  filter (fun f => declared rawShards f = true)
         (sort_Slice shard_id_less flattened)
  ++ filter (fun f => declared rawShards f <> true)
            (sort_Slice shard_id_less flattened).
Proof. unfold orderShards. by rewrite OuterLoop_filter. Qed.

Lemma orderShards_Permutation flattened rawShards :
  orderShards flattened rawShards ≡ₚ flattened.
Proof.
  rewrite orderShards_filter.
  rewrite (filter_app_complement (fun f => declared rawShards f = true)).
  apply merge_sort_Permutation.
Qed.

Lemma overlay_shard_id d i sh :
  FlatShard.shard_id (overlayShard d i sh) = FlatShard.shard_id sh.
Proof. done. Qed.

Lemma overlay_size d i sh :
  FlatShard.size (overlayShard d i sh) = FlatShard.size sh.
Proof. done. Qed.

Lemma imap_overlay_ids d (l : list FlatShard.t) :
  map FlatShard.shard_id (imap (overlayShard d) l) = map FlatShard.shard_id l.
Proof.
  change (FlatShard.shard_id <$> imap (overlayShard d) l
          = FlatShard.shard_id <$> l).
  rewrite fmap_imap. apply list_eq. intros i.
  rewrite list_lookup_imap, list_lookup_fmap. by destruct (l !! i).
Qed.

(** The ids the read path lists are those of the groups. *)
Lemma readShards_ids instances d :
  map FlatShard.shard_id (readShards instances d) ≡ₚ
  (map_to_list (getDatabaseClusterShardInstances instances)).*1.
Proof.
  unfold readShards. rewrite imap_overlay_ids.
  rewrite <- flatten_ids.
  change (FlatShard.shard_id <$> orderShards
            (flattenDatabaseClusterShards
               (getDatabaseClusterShardInstances instances))
            (Cluster.shard (current d))
          ≡ₚ FlatShard.shard_id <$> flattenDatabaseClusterShards
               (getDatabaseClusterShardInstances instances)).
  by rewrite orderShards_Permutation.
Qed.

Lemma readShards_elem instances d sh :
  sh ∈ readShards instances d ->
  exists id l,
    getDatabaseClusterShardInstances instances !! id = Some l /\
    FlatShard.shard_id sh = id /\
    FlatShard.size sh = Z.of_nat (length l).
Proof.
  unfold readShards. intros Hin.
  apply elem_of_lookup_imap in Hin as (i & sh0 & -> & Hl).
  apply list_elem_of_lookup_2 in Hl.
  rewrite orderShards_Permutation in Hl.
  apply flatten_elem in Hl as (id & l & Hm & ->).
  exists id, l. split; [done|].
  by rewrite overlay_shard_id, overlay_size, flatten_shard_id, flatten_size.
Qed.

End ReadFacts.

(** *** The order of the ids *)

Lemma ltb_lt (a b : string) : String.ltb a b = true <-> String.compare a b = Lt.
Proof. unfold String.ltb. destruct (String.compare a b); split; done. Qed.

Lemma ltb_asym (a b : string) : String.ltb a b = true -> String.ltb b a = false.
Proof.
  unfold String.ltb. rewrite (String.compare_antisym a b).
  by destruct (String.compare b a).
Qed.

Lemma ltb_trans (a b c : string) :
  String.ltb a b = true -> String.ltb b c = true -> String.ltb a c = true.
Proof.
  rewrite !ltb_lt. intros H1 H2.
  apply String_as_OT.cmp_lt. apply String_as_OT.cmp_lt in H1, H2.
  by apply (String_as_OT.lt_trans a b c).
Qed.

(** Neither is less than the other: the strings are equal. *)
Lemma ltb_equal (a b : string) :
  String.ltb a b = false -> String.ltb b a = false -> a = b.
Proof.
  unfold String.ltb. rewrite (String.compare_antisym a b).
  destruct (String.compare b a) eqn:E; try done.
  intros _ _. symmetry. by apply String.compare_eq_iff.
Qed.

#[global] Instance not_after_id_total : Total (not_after shard_id_less).
Proof.
  intros a b. unfold not_after, shard_id_less.
  destruct (String.ltb (FlatShard.shard_id b) (FlatShard.shard_id a)) eqn:E.
  - right. by apply ltb_asym.
  - by left.
Qed.

#[global] Instance not_after_id_trans : Transitive (not_after shard_id_less).
Proof.
  intros a b c. unfold not_after, shard_id_less. intros H1 H2.
  destruct (String.ltb (FlatShard.shard_id c) (FlatShard.shard_id a)) eqn:E;
    [|done].
  destruct (String.ltb (FlatShard.shard_id a) (FlatShard.shard_id b)) eqn:E1.
  - by rewrite (ltb_trans _ _ _ E E1) in H2.
  - rewrite (ltb_equal _ _ E1 H1) in E. by rewrite E in H2.
Qed.

(** The sort puts the ids in ascending order. *)
Lemma sort_Slice_sorted (l : list FlatShard.t) :
  StronglySorted (not_after shard_id_less) (sort_Slice shard_id_less l).
Proof. apply StronglySorted_merge_sort; apply _. Qed.

Lemma sort_Slice_Permutation (l : list FlatShard.t) :
  sort_Slice shard_id_less l ≡ₚ l.
Proof. apply merge_sort_Permutation. Qed.

Lemma NoDup_map_inj {A B} (f : A -> B) (l : list A) x y :
  NoDup (map f l) -> x ∈ l -> y ∈ l -> f x = f y -> x = y.
Proof.
  induction l as [|a l IH]; intros Hnd Hx Hy E; [by inversion Hx|].
  simpl in Hnd. apply NoDup_cons in Hnd as [Hna Hnd].
  apply elem_of_cons in Hx as [->|Hx]; apply elem_of_cons in Hy as [->|Hy].
  - done.
  - destruct Hna. rewrite E. apply (list_elem_of_fmap_2 f _ _ Hy).
  - destruct Hna. rewrite <- E. apply (list_elem_of_fmap_2 f _ _ Hx).
  - by apply IH.
Qed.

(** Whatever algorithm sorts a list whose ids are all different, the
    result is the one of the merge sort: the unstable [sort.Slice] has
    one possible outcome on the flattened shards. *)
Lemma sort_Slice_unique (l l' : list FlatShard.t) :
  NoDup (map FlatShard.shard_id l) ->
  l' ≡ₚ l ->
  Sorted (not_after shard_id_less) l' ->
  l' = sort_Slice shard_id_less l.
Proof.
  intros Hnd Hp Hs. apply (Sorted_unique_strong (not_after shard_id_less)).
  - intros x1 x2 H1 H2 R1 R2. rewrite Hp in H1.
    rewrite sort_Slice_Permutation in H2.
    apply (NoDup_map_inj FlatShard.shard_id l); try done.
    unfold not_after, shard_id_less in R1, R2. by apply ltb_equal.
  - done.
  - apply Sorted_merge_sort. apply _.
  - by rewrite sort_Slice_Permutation.
Qed.

Section IterationOrder.
Context `{EX : Extractors} `{KO : Constants} {W : Type} `{RE : !Remote W}
        `{RH : !ReadHelpers W}.

Lemma flatten_NoDup (m : gmap string (list Resp.ClusterInstanceResp)) :
  NoDup (map FlatShard.shard_id (flattenDatabaseClusterShards m)).
Proof. rewrite flatten_ids. apply NoDup_fst_map_to_list. Qed.

(** In whatever order the groups are ranged over, the sorted list is
    the same: the order of the read path does not depend on the
    iteration order of the Go map. *)
Lemma sorted_any_iteration_order
    (m : gmap string (list Resp.ClusterInstanceResp)) (l : list FlatShard.t) :
  l ≡ₚ flattenDatabaseClusterShards m ->
  sort_Slice shard_id_less l
  = sort_Slice shard_id_less (flattenDatabaseClusterShards m).
Proof.
  intros Hp. apply sort_Slice_unique.
  - apply flatten_NoDup.
  - by rewrite sort_Slice_Permutation.
  - apply Sorted_merge_sort. apply _.
Qed.

End IterationOrder.

(* ===================================================================== *)
(** ** The waits and their budgets *)
(* ===================================================================== *)

Section WaitFacts.
Context `{EX : Extractors} `{KO : Constants} {W : Type} `{RE : !Remote W}
        `{RH : !ReadHelpers W} `{AC : !Actions}.








(** What a successful read stores as the shard list. *)
Lemma Read_stores st client cluster w' :
  DatabaseV1Client (data st) = inr client ->
  clusters_Get client (Id (data st)) (world st) = (inr cluster, w') ->
  exists d1,
    Cluster.shard (current d1) = Cluster.shard (current (data st)) /\
    Cluster.shard (current (data (resourceDatabaseClusterWithShardsRead st).2))
    = map FlatShard.to_shard (readShards (Resp.Instances cluster) d1).
Proof.
  intros Hc Hg.
  unfold resourceDatabaseClusterWithShardsRead, body, bind, getData, lift,
    clientOrExit, remote, setData, ret.
  rewrite Hc, Hg. simpl. eexists. split; [|reflexivity]. done.
Qed.

End WaitFacts.

(* ===================================================================== *)
(** ** The importer *)
(* ===================================================================== *)

Section ImportFacts.
Context `{EX : Extractors} `{KO : Constants} {W : Type} `{RE : !Remote W}
        `{RH : !ReadHelpers W} `{IH : !ImportHelpers W}.

Lemma first_of_shard_sublist instances : forall seen,
  first_of_shard seen instances `sublist_of` instances.
Proof.
  induction instances as [|inst rest IH']; intros seen; [done|].
  simpl. case_decide.
  - apply sublist_cons, IH'.
  - apply sublist_skip, IH'.
Qed.

Lemma first_of_shard_ids instances : forall seen id,
  id ∈ map Resp.ShardID (first_of_shard seen instances) <->
  id ∈ map Resp.ShardID instances /\ id ∉ seen.
Proof.
  induction instances as [|inst rest IH']; intros seen id.
  - simpl. split; [by intros H%elem_of_nil | by intros [H%elem_of_nil _]].
  - simpl. case_decide as Hs.
    + rewrite IH', elem_of_cons. split.
      * intros [? ?]. split; [by right|done].
      * intros [[->|?] ?]; [done|by split].
    + cbn [map]. rewrite !elem_of_cons, IH', elem_of_cons.
      split.
      * intros [->|[? ?]]; [by split; [left|] | split; [by right|tauto]].
      * intros [[->|?] ?]; [by left|].
        destruct (decide (id = Resp.ShardID inst)); [by left|].
        right. split; [done|]. intros [?|?]; done.
Qed.

Lemma first_of_shard_NoDup instances : forall seen,
  NoDup (map Resp.ShardID (first_of_shard seen instances)).
Proof.
  induction instances as [|inst rest IH']; intros seen; [constructor|].
  simpl. case_decide; [apply IH'|].
  cbn [map]. apply NoDup_cons. split; [|apply IH'].
  rewrite first_of_shard_ids. intros [_ Hn]. apply Hn. by left.
Qed.

(** Every instance kept is the first of its shard id. *)
Lemma first_of_shard_first instances : forall seen x,
  x ∈ first_of_shard seen instances ->
  exists before after,
    instances = (before ++ x :: after) /\
    (Resp.ShardID x ∉ map Resp.ShardID before) /\
    Resp.ShardID x ∉ seen.
Proof.
  induction instances as [|inst rest IH']; intros seen x Hx.
  - by apply elem_of_nil in Hx.
  - simpl in Hx. case_decide as Hs.
    + destruct (IH' _ _ Hx) as (before & after & -> & Hb & Hn).
      exists (inst :: before), after. split; [done|]. split; [|done].
      cbn [map]. rewrite elem_of_cons. intros [E|?]; [|done].
      by rewrite E in Hn.
    + apply elem_of_cons in Hx as [->|Hx].
      * exists [], rest. split; [done|]. split; [|done]. apply not_elem_of_nil.
      * destruct (IH' _ _ Hx) as (before & after & -> & Hb & Hn).
        exists (inst :: before), after. split; [done|].
        rewrite not_elem_of_cons in Hn. destruct Hn as [Hne Hn].
        split; [|done]. cbn [map]. rewrite elem_of_cons. by intros [?|?].
Qed.

(** The shards the loop appends come from the first instances. *)
Lemma importLoop_shards flatten instances : forall shardIDs shards seen,
  (forall id, is_Some (shardIDs !! id) <-> id ∈ seen) ->
  (importLoop flatten instances shardIDs shards).2 =
  shards ++ map (newShardOf flatten) (first_of_shard seen instances).
Proof.
  induction instances as [|inst rest IH'];
    intros shardIDs shards seen Hdom.
  - simpl. by rewrite app_nil_r.
  - cbn [importLoop first_of_shard].
    destruct (shardIDs !! Resp.ShardID inst) as [n|] eqn:E.
    + rewrite decide_True by (apply Hdom; eauto).
      apply IH'. intros id.
      destruct (decide (id = Resp.ShardID inst)) as [->|Hne].
      * rewrite lookup_insert_eq. split; [intros _; apply Hdom; eauto|eauto].
      * by rewrite lookup_insert_ne.
    + rewrite decide_False
        by (intros Hin%Hdom; rewrite E in Hin; by destruct Hin).
      rewrite (IH' _ _ (Resp.ShardID inst :: seen)).
      * cbn [map]. by rewrite <- app_assoc.
      * intros id. rewrite elem_of_cons.
        destruct (decide (id = Resp.ShardID inst)) as [->|Hne].
        -- rewrite lookup_insert_eq. split; [by left|eauto].
        -- rewrite lookup_insert_ne by done. rewrite Hdom.
           split; [by right|]. by intros [?|?].
Qed.

(** The counters count, as long as the additions stay within [int]. *)
Lemma importLoop_counts flatten instances : forall shardIDs shards bound,
  (forall id, 0 <= count_of shardIDs id <= bound) ->
  (forall id, shardIDs !! id = Some 0 -> False) ->
  bound + Z.of_nat (length instances) <= int_max ->
  forall id,
    count_of (importLoop flatten instances shardIDs shards).1 id =
    count_of shardIDs id + Z.of_nat (instances_of id instances).
Proof.
  unfold instances_of.
  induction instances as [|inst rest IH'];
    intros shardIDs shards bound Hb Hz Hmax id.
  - simpl. lia.
  - cbn [importLoop]. cbn [length] in Hmax. rewrite filter_cons.
    assert (forall n, 0 <= n <= bound -> int_add n 1 = n + 1) as Hadd.
    { intros n Hn. unfold int_add. apply wrap_id.
      unfold int_range, int_min, int_max in *. lia. }
    destruct (shardIDs !! Resp.ShardID inst) as [n|] eqn:E.
    + pose proof (Hb (Resp.ShardID inst)) as Hn.
      unfold count_of in Hn. rewrite E in Hn. simpl in Hn.
      rewrite (IH' _ _ (bound + 1)).
      * unfold count_of.
        destruct (decide (Resp.ShardID inst = id)) as [<-|Hne].
        -- rewrite lookup_insert_eq, E. simpl. rewrite Hadd by done. lia.
        -- by rewrite lookup_insert_ne.
      * intros id'. unfold count_of.
        destruct (decide (Resp.ShardID inst = id')) as [<-|Hne].
        -- rewrite lookup_insert_eq. simpl. rewrite Hadd by done. lia.
        -- rewrite lookup_insert_ne by done. specialize (Hb id').
           unfold count_of in Hb. lia.
      * intros id'.
        destruct (decide (Resp.ShardID inst = id')) as [<-|Hne].
        -- rewrite lookup_insert_eq. rewrite Hadd by done. intros [= ?]. lia.
        -- rewrite lookup_insert_ne by done. apply Hz.
      * lia.
    + pose proof (Hb (Resp.ShardID inst)) as Hn.
      rewrite (IH' _ _ (bound + 1)).
      * unfold count_of.
        destruct (decide (Resp.ShardID inst = id)) as [<-|Hne].
        -- rewrite lookup_insert_eq, E. simpl. lia.
        -- by rewrite lookup_insert_ne.
      * intros id'. unfold count_of.
        destruct (decide (Resp.ShardID inst = id')) as [<-|Hne].
        -- rewrite lookup_insert_eq. simpl.
           specialize (Hb (Resp.ShardID inst)). lia.
        -- rewrite lookup_insert_ne by done. specialize (Hb id').
           unfold count_of in Hb. lia.
      * intros id'.
        destruct (decide (Resp.ShardID inst = id')) as [<-|Hne].
        -- rewrite lookup_insert_eq. by intros [= ?].
        -- rewrite lookup_insert_ne by done. apply Hz.
      * lia.
Qed.

End ImportFacts.

Section ImportRunFacts.
Context `{EX : Extractors} `{KO : Constants} {W : Type} `{RE : !Remote W}
        `{RH : !ReadHelpers W} `{IH : !ImportHelpers W}.

(** With a client, the read function returns diagnostics after exactly
    one request. *)
Lemma Read_run st client :
  DatabaseV1Client (data st) = inr client ->
  exists ds st1,
    resourceDatabaseClusterWithShardsRead st = (Ret ds, st1) /\
    calls st1 = calls st ++ [CallGet (Id (data st))].
Proof.
  intros Hc.
  unfold resourceDatabaseClusterWithShardsRead.
  unfold body, bind, getData, lift, clientOrExit, remote, setData, ret, exit.
  rewrite Hc.
  destruct (clusters_Get client (Id (data st)) (world st))
    as [[err|cluster] w1] eqn:Hg; cbn -[readShards networkDiags];
    eauto.
Qed.

End ImportRunFacts.

(* ===================================================================== *)
(** ** The flavor data source *)
(* ===================================================================== *)

Section ComputeFacts.
Import Compute.
Context `{KO : Constants} `{VA : Values} {W : Type} `{CR : !ComputeRemote W}.

Lemma guard_false (has : bool) (P : Prop) `{Decision P} :
  has && bool_decide P = false <-> (has = true -> ~ P).
Proof.
  destruct has; simpl; [|by split].
  rewrite bool_decide_eq_false. naive_solver.
Qed.

Lemma specs_loop_spec (required flavorSpecs : gmap string Value) :
  specs_loop required flavorSpecs = true <->
  forall spec reqVal,
    required !! spec = Some reqVal ->
    exists val, flavorSpecs !! spec = Some val /\ DeepEqual val reqVal = true.
Proof.
  unfold specs_loop. rewrite forallb_forall. split.
  - intros H spec reqVal Hl.
    apply elem_of_map_to_list, list_elem_of_In in Hl.
    specialize (H _ Hl). simpl in H.
    destruct (flavorSpecs !! spec) as [val|]; [eauto|done].
  - intros H [spec reqVal] Hin. simpl.
    apply list_elem_of_In, elem_of_map_to_list in Hin.
    destruct (H _ _ Hin) as (val & -> & E). done.
Qed.

Lemma FlavorsLoop_filter requiredFlavor allFlavors : forall filteredFlavors,
  FlavorsLoop requiredFlavor allFlavors filteredFlavors =
  filteredFlavors
  ++ filter (fun f => kept requiredFlavor f = true) allFlavors.
Proof.
  induction allFlavors as [|flavor rest IH]; intros filtered.
  - simpl. by rewrite app_nil_r.
  - cbn [FlavorsLoop]. rewrite filter_cons.
    destruct (decide (kept requiredFlavor flavor = true)) as [Hk|Hk];
      unfold kept in Hk;
      destruct (switch_continues requiredFlavor flavor);
      destruct (RequiredFlavor.HasExtraSpecs requiredFlavor);
      try destruct (specs_loop _ _); simpl in Hk |- *;
      try done; rewrite IH; try done; by rewrite <- app_assoc.
Qed.

Lemma if_true_else (a b : bool) : (if a then true else b) = a || b.
Proof. by destruct a. Qed.

Lemma guard_eq_false {A} `{EqDecision A} (has : bool) (x y : A) :
  has && bool_decide (x <> y) = false <-> (has = true -> x = y).
Proof.
  rewrite guard_false. split; intros H Hh.
  - destruct (decide (x = y)); [done|]. by destruct (H Hh).
  - intros Hn. by apply Hn, H.
Qed.

Lemma guard_negb_false (has b : bool) :
  has && negb b = false <-> (has = true -> b = true).
Proof. destruct has, b; simpl; naive_solver. Qed.

Lemma switch_continues_false requiredFlavor flavor :
  switch_continues requiredFlavor flavor = false <->
  (RequiredFlavor.HasName requiredFlavor = true ->
     FlavorExt.Name flavor = RequiredFlavor.Name requiredFlavor) /\
  (RequiredFlavor.HasRAM requiredFlavor = true ->
     FlavorExt.RAM flavor = RequiredFlavor.RAM requiredFlavor) /\
  (RequiredFlavor.HasVCPUs requiredFlavor = true ->
     FlavorExt.VCPUs flavor = RequiredFlavor.VCPUs requiredFlavor) /\
  (RequiredFlavor.HasDisk requiredFlavor = true ->
     FlavorExt.Disk flavor = RequiredFlavor.Disk requiredFlavor) /\
  (RequiredFlavor.HasSwap requiredFlavor = true ->
     FlavorExt.Swap flavor = RequiredFlavor.Swap requiredFlavor) /\
  (RequiredFlavor.HasRxTxFactor requiredFlavor = true ->
     float_eq (FlavorExt.RxTxFactor flavor)
              (RequiredFlavor.RxTxFactor requiredFlavor) = true) /\
  (RequiredFlavor.HasExtraSpecs requiredFlavor = true ->
     FlavorExt.ExtraSpecs flavor <> None).
Proof.
  unfold switch_continues. rewrite !if_true_else, !orb_false_iff.
  rewrite !guard_eq_false, guard_negb_false, guard_false.
  tauto.
Qed.

Lemma kept_meets requiredFlavor flavor :
  kept requiredFlavor flavor = true <-> meets requiredFlavor flavor.
Proof.
  unfold kept, meets.
  rewrite andb_true_iff, negb_true_iff, switch_continues_false.
  rewrite orb_true_iff, negb_true_iff, specs_loop_spec.
  split.
  - intros ((H1 & H2 & H3 & H4 & H5 & H6 & H7) & H8).
    repeat (split; [assumption|]). intros Hh.
    destruct (FlavorExt.ExtraSpecs flavor) as [specs|] eqn:E;
      [|by destruct (H7 Hh)].
    exists specs. split; [done|].
    destruct H8 as [H8|H8]; [congruence|exact H8].
  - intros (H1 & H2 & H3 & H4 & H5 & H6 & H7).
    split.
    + repeat (split; [assumption|]). intros Hh.
      destruct (H7 Hh) as (specs & -> & _). done.
    + destruct (RequiredFlavor.HasExtraSpecs requiredFlavor); [|by left].
      right. destruct (H7 eq_refl) as (specs & -> & H8). exact H8.
Qed.

#[global] Instance meets_dec requiredFlavor flavor :
  Decision (meets requiredFlavor flavor).
Proof.
  destruct (kept requiredFlavor flavor) eqn:E.
  - left. by apply kept_meets.
  - right. intros H%kept_meets. congruence.
Defined.

Lemma filter_kept_meets requiredFlavor (l : list FlavorExt.t) :
  filter (fun f => kept requiredFlavor f = true) l
  = filter (meets requiredFlavor) l.
Proof.
  apply list_filter_iff. intros f. apply kept_meets.
Qed.

Lemma FlavorsLoop_meets requiredFlavor (allFlavors : list FlavorExt.t) :
  FlavorsLoop requiredFlavor allFlavors []
  = filter (meets requiredFlavor) allFlavors.
Proof. by rewrite FlavorsLoop_filter, filter_kept_meets. Qed.

(** The loop keeps the index of the first least flavor of what it has
    seen. *)
Lemma selectLoop_inv (allFlavors : list FlavorExt.t) :
  forall rest seen resIdx res,
  allFlavors = seen ++ rest ->
  allFlavors !! resIdx = Some res ->
  (forall f, f ∈ seen -> ~ smaller f res) ->
  (forall j f, (j < resIdx)%nat -> allFlavors !! j = Some f -> smaller res f) ->
  exists res',
    allFlavors !! selectLoop allFlavors rest (length seen) resIdx = Some res' /\
    (forall f, f ∈ allFlavors -> ~ smaller f res') /\
    (forall j f, (j < selectLoop allFlavors rest (length seen) resIdx)%nat ->
                 allFlavors !! j = Some f -> smaller res' f).
Proof.
  induction rest as [|flavor rest IH]; intros seen resIdx res Hall Hres Hmin Hfirst.
  - simpl. rewrite app_nil_r in Hall. subst seen. eauto.
  - cbn [selectLoop]. rewrite Hres. cbn [default from_option id].
    assert (allFlavors = (seen ++ [flavor]) ++ rest) as Hall'
      by (by rewrite <- app_assoc).
    assert (allFlavors !! length seen = Some flavor) as Hflavor.
    { rewrite Hall. by rewrite list_lookup_middle. }
    assert (forall j f, (j < length seen)%nat -> allFlavors !! j = Some f ->
                        f ∈ seen) as Hseen.
    { intros j f Hj Hl. rewrite Hall, lookup_app_l in Hl by done.
      by apply list_elem_of_lookup_2 in Hl. }
    replace (S (length seen)) with (length (seen ++ [flavor]))
      by (rewrite length_app; simpl; lia).
    destruct (bool_decide (FlavorExt.RAM flavor = FlavorExt.RAM res)
              && bool_decide (FlavorExt.Disk flavor < FlavorExt.Disk res))
      eqn:E1; [|destruct (bool_decide (FlavorExt.RAM flavor < FlavorExt.RAM res))
                  eqn:E2].
    + apply andb_true_iff in E1 as [E1 E1'].
      apply bool_decide_eq_true in E1, E1'.
      apply (IH _ _ flavor Hall' Hflavor).
      * intros f [Hf| ->%list_elem_of_singleton]%elem_of_app.
        -- specialize (Hmin f Hf). unfold smaller in *. lia.
        -- unfold smaller. lia.
      * intros j f Hj Hl. specialize (Hmin f (Hseen j f Hj Hl)).
        unfold smaller in *. lia.
    + apply bool_decide_eq_true in E2.
      apply (IH _ _ flavor Hall' Hflavor).
      * intros f [Hf| ->%list_elem_of_singleton]%elem_of_app.
        -- specialize (Hmin f Hf). unfold smaller in *. lia.
        -- unfold smaller. lia.
      * intros j f Hj Hl. specialize (Hmin f (Hseen j f Hj Hl)).
        unfold smaller in *. lia.
    + apply bool_decide_eq_false in E2.
      apply andb_false_iff in E1.
      apply (IH _ _ res Hall' Hres); [|done].
      intros f [Hf| ->%list_elem_of_singleton]%elem_of_app; [by apply Hmin|].
      unfold smaller. intros [?|[? ?]]; [done|].
      destruct E1 as [E1|E1]; apply bool_decide_eq_false in E1; done.
Qed.

(** From the start of a list that is not empty. *)
Lemma selectLoop_least (flavor : FlavorExt.t) (others : list FlavorExt.t) :
  exists res,
    (flavor :: others)
      !! selectLoop (flavor :: others) (flavor :: others) 0 0 = Some res /\
    (forall f, f ∈ flavor :: others -> ~ smaller f res) /\
    (forall j f,
       (j < selectLoop (flavor :: others) (flavor :: others) 0 0)%nat ->
       (flavor :: others) !! j = Some f -> smaller res f).
Proof.
  apply (selectLoop_inv (flavor :: others) (flavor :: others) [] 0%nat flavor).
  - done.
  - done.
  - by intros f ?%elem_of_nil.
  - intros j f Hj. lia.
Qed.

Lemma select_least_index (flavor : FlavorExt.t) (others : list FlavorExt.t) :
  exists res,
    (flavor :: others)
      !! selectLoop (flavor :: others) (flavor :: others) 0 0 = Some res.
Proof.
  destruct (selectLoop_inv (flavor :: others) (flavor :: others) []
              0%nat flavor) as (res & E & _); try done.
  - by intros f ?%elem_of_nil.
  - intros j f Hj. lia.
  - by exists res.
Qed.

Lemma HasError_app (a b : Diagnostics) :
  HasError (a ++ b) = HasError a || HasError b.
Proof.
  unfold HasError. apply eq_true_iff_eq.
  rewrite orb_true_iff, !bool_decide_eq_true, Exists_app. done.
Qed.

Lemma HasError_diag_Error text : HasError (diag_Error text) = true.
Proof. unfold HasError, diag_Error. apply bool_decide_eq_true. by left. Qed.

Lemma HasError_warnings requiredFlavor :
  HasError (warnings requiredFlavor) = false.
Proof.
  unfold warnings.
  destruct (_ && _), (_ && _); apply bool_decide_eq_false;
    intros H; repeat (apply Exists_cons in H as [H|H]; [done|]);
    by apply Exists_nil in H.
Qed.

Lemma HasError_FromErr e : HasError (FromErr e) = false -> e = None.
Proof.
  destruct e as [err|]; [|done]. simpl. by rewrite HasError_diag_Error.
Qed.

(** What [dataSourceComputeFlavorAttributes] leaves behind, whether the
    extra specs could be asked for or not. *)
Lemma Attributes_run computeClient flavor st :
  let r := dataSourceComputeFlavorAttributes computeClient flavor st in
  Id (data r.2) = FlavorExt.ID flavor /\
  flavor_id (data r.2) = FlavorExt.ID flavor /\
  (calls r.2 = calls st \/
   calls r.2 = calls st ++ [CallListExtraSpecs (FlavorExt.ID flavor)]) /\
  (FlavorExt.ExtraSpecs flavor = None ->
   calls r.2 = calls st ++ [CallListExtraSpecs (FlavorExt.ID flavor)]).
Proof.
  unfold dataSourceComputeFlavorAttributes.
  destruct (FlavorExt.ExtraSpecs flavor) as [specs|]; cbn.
  - repeat split; [by left|done].
  - destruct (ListExtraSpecs _ _ _) as [[err|es] w']; cbn;
      repeat split; by right.
Qed.

End ComputeFacts.

(* ===================================================================== *)
(** ** The create path outside the sizes the claims assume *)
(* ===================================================================== *)

Section CreateEdgeFacts.
Context `{EX : Extractors} `{KO : Constants}.

Lemma abs_total_nonneg (shards : list Shard.t) : 0 <= abs_total shards.
Proof. induction shards as [|s l IH]; simpl; lia. Qed.

Lemma abs_total_bounds (shards : list Shard.t) :
  - abs_total shards <= total_size shards <= abs_total shards.
Proof. induction shards as [|s l IH]; simpl; lia. Qed.

(** The first loop for sizes of any sign, when no partial sum leaves
    [int]. *)
Lemma shardLoop_sums (shards : list Shard.t) :
  forall instanceCount shardsSize
         (shardInfo : list (InstanceCreateOpts NetworkOpts)),
  Forall wal_decodes shards ->
  Z.abs instanceCount + abs_total shards <= int_max ->
  shardLoop shards instanceCount shardsSize shardInfo =
  Val (instanceCount + total_size shards,
       shardsSize ++ map Shard.size shards,
       shardInfo ++ map (shard_descriptor "") shards).
Proof.
  induction shards as [|s l IH]; intros ic sz info Hw Hmax.
  - simpl. by rewrite Z.add_0_r, !app_nil_r.
  - inversion Hw as [|? ? Hw1 Hw2]; subst.
    pose proof (abs_total_nonneg l) as Hl.
    simpl in Hmax |- *. rewrite shardInfoOf_decodes by done. simpl.
    unfold int_add. rewrite wrap_id
      by (unfold int_range, int_min, int_max in *; lia).
    rewrite IH by (try done; lia).
    by rewrite <- !app_assoc, Z.add_assoc.
Qed.

(** More iterations than free places: the store runs out of range. *)
Lemma fillShard_overflow (n : nat) (v : (InstanceCreateOpts NetworkOpts)) :
  forall filled rest : list (InstanceCreateOpts NetworkOpts),
  (length rest < n)%nat ->
  Z.of_nat (length (filled ++ rest)) <= int_max ->
  fillShard n v (Z.of_nat (length filled)) (filled ++ rest) = Panic.
Proof.
  induction n as [|n IH]; intros filled rest Hn Hmax; [lia|].
  destruct rest as [|x rest].
  - cbn [fillShard]. unfold slice_store.
    rewrite bool_decide_false by (rewrite app_nil_r; lia). done.
  - cbn [fillShard]. rewrite slice_store_next. cbn [res_bind].
    rewrite length_app in Hmax. simpl in Hn, Hmax.
    unfold int_add. rewrite wrap_id
      by (unfold int_range, int_min, int_max in *; lia).
    replace (Z.of_nat (length filled) + 1)
      with (Z.of_nat (length (filled ++ [v])))
      by (rewrite length_app; simpl; lia).
    apply IH; [lia|]. rewrite !length_app. simpl. lia.
Qed.

Lemma fillAll_overflow (sized : list (Z * (InstanceCreateOpts NetworkOpts))) :
  forall filled rest : list (InstanceCreateOpts NetworkOpts),
  (length rest < stores_of sized)%nat ->
  Z.of_nat (length (filled ++ rest)) <= int_max ->
  fillAll sized (Z.of_nat (length filled)) (filled ++ rest) = Panic.
Proof.
  induction sized as [|[shardSize info] l IH]; intros filled rest Hn Hmax.
  - simpl in Hn. lia.
  - cbn [fillAll]. simpl in Hn.
    destruct (decide (length rest < Z.to_nat shardSize)%nat) as [Hlt|Hge].
    + by rewrite fillShard_overflow.
    + rewrite fillShard_run by (try done; lia). cbn [res_bind fst snd].
      apply IH.
      * rewrite length_drop. lia.
      * rewrite !length_app, length_replicate, length_drop in *. lia.
Qed.

Lemma stores_of_zip (shards : list Shard.t)
    (f : Shard.t -> (InstanceCreateOpts NetworkOpts)) :
  Exists (fun s => Shard.size s < 0) shards ->
  total_size shards < Z.of_nat (stores_of (zip (map Shard.size shards)
                                               (map f shards))).
Proof.
  assert (forall l : list Shard.t,
            total_size l <= Z.of_nat (stores_of (zip (map Shard.size l)
                                                     (map f l)))) as Hle.
  { induction l as [|s l IH]; simpl; [done|]. lia. }
  induction 1 as [s l Hs|s l Hs IH]; simpl.
  - specialize (Hle l). lia.
  - lia.
Qed.

(** A negative size among the shards: the instance list is never built. *)
Lemma clusterInstancesOf_negative keypair (shards : list Shard.t) :
  Forall wal_decodes shards ->
  abs_total shards <= int_max ->
  Exists (fun s => Shard.size s < 0) shards ->
  clusterInstancesOf keypair shards = Panic.
Proof.
  intros Hw Hmax Hneg. unfold clusterInstancesOf.
  rewrite shardLoop_sums by (try done; simpl; lia). cbn [res_bind].
  rewrite Z.add_0_l, !app_nil_l. unfold make_slice.
  case_bool_decide as Hlen; [done|]. cbn [res_bind].
  rewrite map_map.
  pose proof (abs_total_bounds shards) as Hb.
  pose proof (fillAll_overflow
                (zip (map Shard.size shards)
                     (map (fun x => set_Keypair keypair (shard_descriptor "" x))
                          shards))
                [] (replicate (Z.to_nat (total_size shards)) zeroInstance)) as F.
  rewrite !app_nil_l in F. simpl length in F.
  change (Z.of_nat 0) with 0 in F. rewrite F; [done|..].
  - rewrite length_replicate.
    pose proof (stores_of_zip shards
                  (fun x => set_Keypair keypair (shard_descriptor "" x)) Hneg).
    lia.
  - rewrite length_replicate. lia.
Qed.

(** The request is built without diagnostics other than those of the
    decoders. *)
Lemma optional_Ret {A B} (present : bool) (v : A) (extract : A -> error + B)
    (what : string) ds :
  optional present v extract what = Ret ds ->
  ds = diag_Error (message +:+ " " +:+ what).
Proof.
  unfold optional. destruct present; [|done].
  destruct (extract v); [|done]. by intros [= <-].
Qed.

Lemma shardLoop_Ret (shards : list Shard.t) :
  forall instanceCount shardsSize
         (shardInfo : list (InstanceCreateOpts NetworkOpts)) ds,
  shardLoop shards instanceCount shardsSize shardInfo = Ret ds ->
  ds = diag_Error (message +:+ " wal_volume").
Proof.
  induction shards as [|s l IH]; intros ic sz info ds; [done|].
  cbn [shardLoop]. unfold shardInfoOf at 1.
  destruct (extractDatabaseNetworks (Shard.network s)) as [[nics sgs] e].
  destruct (bool_decide _).
  - destruct (extractDatabaseWalVolume _); cbn [res_bind].
    + by intros [= <-].
    + apply IH.
  - cbn [res_bind]. apply IH.
Qed.

Lemma fillShard_no_Ret (n : nat) (v : (InstanceCreateOpts NetworkOpts)) :
  forall k (l : list (InstanceCreateOpts NetworkOpts)) ds,
  fillShard n v k l <> Ret ds.
Proof.
  induction n as [|n IH]; intros k l ds; [done|].
  cbn [fillShard]. unfold slice_store.
  destruct (bool_decide _); cbn [res_bind]; [apply IH|done].
Qed.

Lemma fillAll_no_Ret (sized : list (Z * (InstanceCreateOpts NetworkOpts))) :
  forall k (l : list (InstanceCreateOpts NetworkOpts)) ds,
  fillAll sized k l <> Ret ds.
Proof.
  induction sized as [|[shardSize info] rest IH]; intros k l ds; [done|].
  cbn [fillAll].
  destruct (fillShard _ _ _ _) as [p| |] eqn:E; cbn [res_bind];
    [apply IH| |done].
  by apply fillShard_no_Ret in E.
Qed.

Lemma clusterInstancesOf_Ret keypair (shards : list Shard.t) ds :
  clusterInstancesOf keypair shards = Ret ds ->
  ds = diag_Error (message +:+ " wal_volume").
Proof.
  unfold clusterInstancesOf.
  destruct (shardLoop shards 0 [] []) as [[[ic sz] info]| |] eqn:E;
    cbn [res_bind]; [|intros [= <-]; by apply shardLoop_Ret in E|done].
  unfold make_slice. destruct (bool_decide _); [done|]. cbn [res_bind].
  destruct (fillAll _ _ _) as [q| |] eqn:F; cbn [res_bind]; [done| |done].
  by apply fillAll_no_Ret in F.
Qed.

Lemma createOptsOf_Ret (d : ResourceData) ds :
  createOptsOf d = Ret ds ->
  exists what, what ∈ decoded_blocks /\
               ds = diag_Error (message +:+ " " +:+ what).
Proof.
  unfold createOptsOf, decoded_blocks.
  destruct (optional _ _ extractDatabaseRestorePoint _) as [o1| |] eqn:E1;
    cbn [res_bind]; [|intros [= <-]|done].
  2: { apply optional_Ret in E1. eexists. split; [|exact E1].
       repeat constructor. }
  destruct (optional _ _ extractDatabaseDatastore _) as [o2| |] eqn:E2;
    cbn [res_bind]; [|intros [= <-]|done].
  2: { apply optional_Ret in E2. eexists. split; [|exact E2].
       repeat constructor. }
  destruct (optional _ (Cluster.disk_autoexpand _) _ _) as [o3| |] eqn:E3;
    cbn [res_bind]; [|intros [= <-]|done].
  2: { apply optional_Ret in E3. eexists. split; [|exact E3].
       repeat constructor. }
  destruct (optional _ (Cluster.wal_disk_autoexpand _) _ _) as [o4| |] eqn:E4;
    cbn [res_bind]; [|intros [= <-]|done].
  2: { apply optional_Ret in E4. eexists. split; [|exact E4].
       repeat constructor. }
  destruct (clusterInstancesOf _ _) as [ci| |] eqn:E5;
    cbn [res_bind]; [|intros [= <-]|done].
  2: { apply clusterInstancesOf_Ret in E5. exists "wal_volume".
       split; [repeat constructor|exact E5]. }
  destruct (optional _ _ extractDatabaseCapabilities _) as [o6| |] eqn:E6;
    cbn [res_bind]; [done|intros [= <-]|done].
  apply optional_Ret in E6. eexists. split; [|exact E6].
  repeat constructor.
Qed.

End CreateEdgeFacts.

Section CreateRunFacts.
Context `{EX : Extractors} `{KO : Constants} {W : Type} `{RE : !Remote W}
        `{RH : !ReadHelpers W}.






End CreateRunFacts.

(* ===================================================================== *)
(** ** The order of the read path against the declared order *)
(* ===================================================================== *)

Lemma StronglySorted_lookup_lt {A} (R : relation A) (l : list A) :
  StronglySorted R l ->
  forall i j a b,
    (i < j)%nat -> l !! i = Some a -> l !! j = Some b -> R a b.
Proof.
  induction 1 as [|x l Hl IH Hx]; intros i j a b Hij Ha Hb.
  - by rewrite lookup_nil in Ha.
  - destruct j as [|j]; [lia|]. destruct i as [|i]; simpl in *.
    + injection Ha as <-. rewrite Forall_forall in Hx. apply Hx.
      by apply list_elem_of_lookup_2 in Hb.
    + apply (IH i j); [lia|done..].
Qed.

Lemma lookups_StronglySorted {A} (R : relation A) (l : list A) :
  (forall i j a b,
     (i < j)%nat -> l !! i = Some a -> l !! j = Some b -> R a b) ->
  StronglySorted R l.
Proof.
  induction l as [|x l IH]; intros H; constructor.
  - apply IH. intros i j a b Hij Ha Hb. apply (H (S i) (S j)); [lia|done..].
  - apply Forall_forall. intros y Hy.
    apply list_elem_of_lookup_1 in Hy as [j Hj].
    apply (H 0%nat (S j)); [lia|done..].
Qed.

Lemma StronglySorted_filter {A} (R : relation A) (P : A -> Prop)
    `{forall x, Decision (P x)} (l : list A) :
  StronglySorted R l -> StronglySorted R (filter P l).
Proof.
  induction 1 as [|x l Hl IH Hx]; [constructor|].
  rewrite filter_cons. destruct (decide (P x)); [|done].
  constructor; [done|].
  apply Forall_forall. intros y Hy. rewrite Forall_forall in Hx.
  apply Hx. by apply list_elem_of_filter in Hy as [_ ?].
Qed.

(** The ids of sorted shards with different ids go up strictly. *)
Lemma sorted_ids_strict (l : list FlatShard.t) :
  NoDup (map FlatShard.shard_id l) ->
  StronglySorted (not_after shard_id_less) l ->
  StronglySorted (fun a b => shard_id_less a b = true) l.
Proof.
  intros Hnd Hs. induction Hs as [|x l Hl IH Hx]; [constructor|].
  simpl in Hnd. apply NoDup_cons in Hnd as [Hx' Hnd].
  constructor; [by apply IH|].
  apply Forall_forall. intros y Hy. rewrite Forall_forall in Hx.
  specialize (Hx y Hy). unfold not_after, shard_id_less in *.
  destruct (String.ltb (FlatShard.shard_id x) (FlatShard.shard_id y)) eqn:E;
    [done|].
  destruct Hx'. rewrite (ltb_equal _ _ E Hx).
  by apply (list_elem_of_fmap_2 FlatShard.shard_id).
Qed.

Lemma declared_spec (rawShards : list Shard.t) (fSh : FlatShard.t) :
  declared rawShards fSh = true <->
  FlatShard.shard_id fSh ∈ map Shard.shard_id rawShards.
Proof.
  unfold declared. rewrite existsb_exists. split.
  - intros (s & Hin & E). apply bool_decide_eq_true in E. rewrite E.
    apply list_elem_of_In in Hin. by apply (list_elem_of_fmap_2 Shard.shard_id).
  - intros Hin. apply list_elem_of_fmap in Hin as (s & E & Hin).
    exists s. split; [by apply list_elem_of_In|].
    by apply bool_decide_eq_true.
Qed.

#[global] Instance ltb_antisym :
  AntiSymm (=) (fun a b : string => String.ltb a b = true).
Proof. intros a b H1 H2. apply ltb_asym in H1. congruence. Qed.

Lemma ascending_sorted (ids : list string) :
  ascending ids <->
  StronglySorted (fun a b : string => String.ltb a b = true) ids.
Proof.
  split.
  - apply lookups_StronglySorted.
  - intros Hs i j a b Hij Ha Hb.
    exact (StronglySorted_lookup_lt _ _ Hs i j a b Hij Ha Hb).
Qed.

Lemma ltb_irrefl (a : string) : String.ltb a a = false.
Proof.
  destruct (String.ltb a a) eqn:E; [|done]. by rewrite (ltb_asym _ _ E) in E.
Qed.

Lemma sorted_NoDup (ids : list string) :
  StronglySorted (fun a b : string => String.ltb a b = true) ids -> NoDup ids.
Proof.
  induction 1 as [|x l Hl IH Hx]; constructor; [|done].
  intros Hin. rewrite Forall_forall in Hx.
  apply Hx in Hin. by rewrite ltb_irrefl in Hin.
Qed.

(* ===================================================================== *)
(** ** Updates that change the number of shard blocks *)
(* ===================================================================== *)

Section ShardCountFacts.
Context `{EX : Extractors} `{KO : Constants} {W : Type} `{RE : !Remote W}
        `{RH : !ReadHelpers W} `{AC : !Actions}.

Lemma plan_shards_unchanged_within d shards : forall k,
  (forall j, (k <= j < k + length shards)%nat -> shard_unchanged d j) ->
  plan_shards d k shards = [].
Proof.
  induction shards as [|shard rest IH]; intros k Hu; [done|].
  cbn [plan_shards]. rewrite plan_shard_unchanged by (apply Hu; simpl; lia).
  apply IH. intros j Hj. apply Hu. simpl. lia.
Qed.

Lemma plan_shards_app d l1 l2 : forall k,
  plan_shards d k (l1 ++ l2) =
  plan_shards d k l1 ++ plan_shards d (k + length l1) l2.
Proof.
  induction l1 as [|shard rest IH]; intros k.
  - simpl. by rewrite Nat.add_0_r.
  - cbn [app plan_shards length]. rewrite IH, <- app_assoc.
    by replace (S k + length rest)%nat with (k + S (length rest))%nat by lia.
Qed.

(** A block that is the same on both sides counts as unchanged. *)
Lemma same_block_unchanged d j :
  shardAt (prior d) j = shardAt (current d) j -> shard_unchanged d j.
Proof.
  intros E. unfold shard_unchanged, HasChangeAt. rewrite E.
  by rewrite !bool_decide_false by (intros ?; done).
Qed.

Lemma plan_top_same d :
  (exists l, prior d = Cluster.with_shard l (current d)) -> plan_top d = [].
Proof.
  intros [l E]. unfold plan_top, HasChange. rewrite E. simpl.
  by rewrite !bool_decide_false by (intros ?; done).
Qed.

Lemma bool_decide_ne_sym {A} `{EqDecision A} (a b : A) :
  bool_decide (a <> b) = bool_decide (b <> a).
Proof. apply bool_decide_ext. split; intros H ?; by apply H. Qed.

End ShardCountFacts.

(* ===================================================================== *)
(** * The properties of the specification *)
(* ===================================================================== *)

Section Claims.
Context `{EX : Extractors} `{KO : Constants} {W : Type} `{RE : !Remote W}
        `{RH : !ReadHelpers W}.

(** C1.  For shards S1..Sn of declared sizes k1..kn the create path
    builds exactly k1+...+kn instance descriptors, grouped shard by
    shard in the declared order; every descriptor of a shard carries
    that shard's flavor, volume, WAL volume (when given), network,
    availability zone and shard id, and the keypair of the cluster.
    The sizes are what a slice can hold (non-negative, their sum within
    [int] and within what [make] allocates) and the WAL blocks decode. *)
Theorem translator_descriptors (d : ResourceData) :
  let shards := Cluster.shard (current d) in
  let keypair := Cluster.keypair (current d) in
  Forall (fun s => 0 <= Shard.size s) shards ->
  total_size shards <= int_max ->
  total_size shards <= maxSliceLen ->
  Forall wal_decodes shards ->
  clusterInstancesOf keypair shards =
    Val (shards ≫= fun s => replicate (Z.to_nat (Shard.size s))
                                        (shard_descriptor keypair s)) /\
  Z.of_nat (length (translate_spec keypair shards)) = total_size shards /\
  (forall createOpts checkCapabilities,
     createOptsOf d = Val (createOpts, checkCapabilities) ->
     Instances createOpts = translate_spec keypair shards) /\
  (forall s,
     let x := shard_descriptor keypair s in
     Keypair x = keypair /\
     FlavorRef x = Shard.flavor_id s /\
     Volume_ x = Some (mkVolume (Shard.volume_size s) (Shard.volume_type s)) /\
     Nics x = (extractDatabaseNetworks (Shard.network s)).1.1 /\
     SecurityGroups x = (extractDatabaseNetworks (Shard.network s)).1.2 /\
     AvailabilityZone x = Shard.availability_zone s /\
     ShardID x = Shard.shard_id s /\
     (Shard.wal_volume s = [] -> Walvolume x = None) /\
     (forall o, Shard.wal_volume s <> [] ->
                extractDatabaseWalVolume (Shard.wal_volume s) = inr o ->
                Walvolume x = Some (mkVolume (WalSize o) (WalVolumeType o)))).
Proof.
  intros shards keypair Hs Hmax Hlen Hw.
  pose proof (clusterInstancesOf_spec keypair shards Hs Hmax Hlen Hw) as E.
  split; [exact E|]. split; [by apply translate_spec_length|]. split.
  - intros createOpts caps. unfold createOptsOf.
    repeat match goal with
           | |- context [optional ?b ?v ?e ?w] => destruct (optional b v e w)
           end; cbn [res_bind]; try done.
    all: fold shards keypair; rewrite E; cbn [res_bind].
    all: repeat match goal with
           | |- context [optional ?b ?v ?e ?w] => destruct (optional b v e w)
           end; cbn [res_bind]; try done.
    by intros [= <- _].
  - intros s x. subst x. unfold shard_descriptor. cbn.
    repeat split; try done.
    + by intros ->.
    + intros o Hne Ho. destruct (Shard.wal_volume s); [done|]. by rewrite Ho.
Qed.

(** C10.  A datastore type other than "clickhouse" is rejected by the
    schema validation with an error and before any call leaves the
    provider; a configuration that reaches the create path has the
    datastore type "clickhouse". *)
Theorem datastore_type_gate (raw : RawConfig.t) (st : St) :
  (forall v key,
     v <> "clickhouse" ->
     exists e, datastore_type_ValidateFunc v key = ([], [e])) /\
  (forall key, datastore_type_ValidateFunc "clickhouse" key = ([], [])) /\
  (forall ds v,
     ds ∈ RawConfig.datastore raw ->
     RawDatastore.type ds = Some v ->
     v <> "clickhouse" ->
     exists diags,
       applyCreate raw st = (Ret diags, st) /\ HasError diags = true) /\
  (calls (applyCreate raw st).2 <> calls st ->
   forall ds, ds ∈ RawConfig.datastore raw ->
              RawDatastore.type ds = Some "clickhouse").
Proof.
  split; [|split; [|split]].
  - intros v key Hv. by apply ValidateFunc_rejects.
  - intros key. by apply ValidateFunc_accepts.
  - intros ds v Hin Ht Hv. apply applyCreate_rejects. intros Epass.
    apply validateSchema_passes in Epass as [(ds' & Eds & Et) _].
    rewrite Eds in Hin. apply list_elem_of_singleton in Hin as ->.
    rewrite Ht in Et. by injection Et.
  - intros Hcalls ds Hin.
    destruct (decide (validateSchema raw = [])) as [Epass|Efail].
    + apply validateSchema_passes in Epass as [(ds' & Eds & Et) _].
      rewrite Eds in Hin. by apply list_elem_of_singleton in Hin as ->.
    + destruct (applyCreate_rejects raw st Efail) as (diags & E & _).
      by rewrite E in Hcalls.
Qed.

(** C7, as the code has it.  The create path is refused with an error,
    before any call leaves the provider, whenever the datastore block or
    its type is missing, the type is not "clickhouse", or a shard has no
    volume size.  The size of a shard is only required to be present: a
    shard of size 0 passes, adds no descriptor, and the create request
    is sent. *)
Theorem create_validation (raw : RawConfig.t) (st : St) :
  (RawConfig.datastore raw = [] \/
   (exists ds, ds ∈ RawConfig.datastore raw /\
               RawDatastore.type ds <> Some "clickhouse") \/
   (exists sh, sh ∈ RawConfig.shard raw /\ RawShard.volume_size sh = None) ->
   exists diags,
     applyCreate raw st = (Ret diags, st) /\ HasError diags = true) /\
  (let d := mkData "" no_cluster (RawConfig.decode raw)
                   (Some resource_Timeouts) in
   let shards := Cluster.shard (current d) in
   validateSchema raw = [] ->
   (exists client, DatabaseV1Client d = inr client) ->
   extractions_succeed (current d) ->
   Forall (fun s => 0 <= Shard.size s) shards ->
   total_size shards <= int_max ->
   total_size shards <= maxSliceLen ->
   exists createOpts more,
     calls (applyCreate raw st).2 = calls st ++ CallCreate createOpts :: more /\
     Instances createOpts =
       (shards ≫= fun s => replicate (Z.to_nat (Shard.size s))
                             (shard_descriptor (Cluster.keypair (current d)) s))).
Proof.
  split.
  - intros Hbad. apply applyCreate_rejects. intros Epass.
    apply validateSchema_passes in Epass as [(ds' & Eds & Et) Hvol].
    destruct Hbad as [E | [(ds & Hin & Ht) | (sh & Hin & Hv)]].
    + by rewrite E in Eds.
    + rewrite Eds in Hin. apply list_elem_of_singleton in Hin as ->. done.
    + rewrite Forall_forall in Hvol. specialize (Hvol sh Hin).
      rewrite Hv in Hvol. by destruct Hvol.
  - intros d shards Epass Hclient Hex Hs Hmax Hlen.
    rewrite applyCreate_passes by done. fold d.
    destruct Hclient as [client Ec].
    destruct (createOptsOf_succeeds d Hex Hs Hmax Hlen)
      as (createOpts & caps & Eo & Ei).
    destruct (Create_calls (mkSt (world st) (calls st) d) client
                createOpts caps Ec Eo) as [more Ecalls].
    exists createOpts, more. split; [exact Ecalls | exact Ei].
Qed.


(** C4.  In the block on a shard's size, a difference of 0 calls no
    grow or shrink action and changes nothing, a positive difference
    calls exactly the Grow of that shard, a negative one exactly its
    Shrink; and a Shrink that finds supplied [shrink_options] whose
    length is not the size of the decrease fails with the shrink-options
    error without having sent anything: the remote side is as it was,
    whatever the requests of the shrink would do. *)
Theorem grow_shrink_boundary (r : ShrinkRemote)
    (base : Action -> dbResourceUpdateContext -> W -> option error * W)
    (i : nat) (updateCtx : dbResourceUpdateContext)
    (clusterID shardID : string) (st : St) :
  let d := D updateCtx in
  let old := Shard.size (shardAt (prior d) i) in
  let new := Shard.size (shardAt (current d) i) in
  let delta := new - old in
  let run :=
    onSizeChange (AC := withShrink r base) i updateCtx clusterID shardID st in
  int_range delta ->
  (delta = 0 -> run = (Val tt, st)) /\
  (delta > 0 ->
   calls run.2 =
   calls st ++ [CallAction (databaseClusterActionGrow shardID)
                           (StateConf updateCtx)]) /\
  (delta < 0 ->
   calls run.2 =
   calls st ++ [CallAction (databaseClusterActionShrink shardID)
                           (StateConf updateCtx)]) /\
  (delta < 0 ->
   forall shard,
     find_shard shardID 0 (Cluster.shard (current d)) = Some (i, shard) ->
     Shard.shrink_options shard <> [] ->
     Z.of_nat (length (Shard.shrink_options shard)) <> Z.abs delta ->
     run =
     (Ret (diag_Error
             (Sprintf0 ("invalid shrink options for shard " +:+ shardID
                        +:+ " of " +:+ "vkcs_db_cluster_with_shards "
                        +:+ clusterID))),
      mkSt (world st)
           (calls st ++ [CallAction (databaseClusterActionShrink shardID)
                                    (StateConf updateCtx)])
           (data st))).
Proof.
  intros d old new delta run Hr. subst run.
  rewrite (onSizeChange_plan (AC := withShrink r base)).
  fold d. split; [|split; [|split]].
  - intros E. rewrite plan_size_unchanged.
    + apply after_plan_nil.
    + unfold HasChangeAt. apply bool_decide_eq_false. fold d old new. lia.
  - intros E. rewrite plan_size_grows by (fold d old new; try done; lia).
    unfold after_plan. cbn [execPlan].
    destruct (runAction _ updateCtx (world st)) as [[err|] w']; done.
  - intros E. rewrite plan_size_shrinks by (fold d old new; try done; lia).
    unfold after_plan. cbn [execPlan].
    destruct (runAction _ updateCtx (world st)) as [[err|] w']; done.
  - intros E shard Hf Ho Hlen.
    rewrite plan_size_shrinks by (fold d old new; try done; lia).
    unfold after_plan. cbn [execPlan runAction withShrink].
    unfold databaseClusterActionShrink_spec. fold d. rewrite Hf.
    unfold GetChangeAt. fold old new delta.
    destruct (Shard.shrink_options shard) as [|o os] eqn:Eo; [done|].
    rewrite bool_decide_true by done. cbn [orb action_calls map action_shard].
    unfold databaseClusterWithShardsUpdateProcessError.
    by rewrite errMsgOf_sentinel.
Qed.

End Claims.

Section SequencerClaims.
Context `{EX : Extractors} `{KO : Constants} {W : Type} `{RE : !Remote W}
        `{RH : !ReadHelpers W} `{AC : !Actions}.

(** C3.  The update function calls its actions in one fixed order:
    configuration attach, disk autoexpand, WAL disk autoexpand,
    capability application, monitoring toggle, then shard by shard in
    the declared order volume resize, WAL volume resize, flavor resize
    and grow or shrink.  What was called is an initial part of the plan,
    the whole plan when no action fails; and when the configuration id,
    the capabilities and the size of one shard X (an increase) are all
    that changes, the plan is attach, apply capabilities, grow X. *)
Theorem update_order (st : St) (dbClient : Client) :
  DatabaseV1Client (data st) = inr dbClient ->
  let d := data st in
  let st' := (resourceDatabaseClusterWithShardsUpdate st).2 in
  exists attempted,
    actions_of (calls st') = actions_of (calls st) ++ attempted /\
    attempted `prefix_of` Plan d /\
    Plan d `sublist_of` all_actions (Cluster.shard (current d)) /\
    ((forall a w, (runAction a (updateCtxOf d dbClient) w).1 = None) ->
     attempted = Plan d) /\
    (forall i shardX,
       HasChange Cluster.configuration_id d = true ->
       HasChange Cluster.disk_autoexpand d = false ->
       HasChange Cluster.wal_disk_autoexpand d = false ->
       HasChange Cluster.capabilities d = true ->
       HasChange Cluster.cloud_monitoring_enabled d = false ->
       Cluster.shard (current d) !! i = Some shardX ->
       shard_only_grows d i ->
       (forall j, j <> i -> shard_unchanged d j) ->
       Plan d = [ databaseClusterActionUpdateConfiguration;
                  databaseClusterActionApplyCapabilities;
                  databaseClusterActionGrow (Shard.shard_id shardX) ]).
Proof.
  intros Hc d st'.
  destruct (execPlan (Plan d) (updateCtxOf d dbClient) (world st))
    as [[attempted failure] w'] eqn:E.
  exists attempted. split; [|split; [|split; [|split]]].
  - subst st'. rewrite (Update_run st dbClient Hc _ _ _ E). fold d.
    destruct failure as [[a err]|].
    + simpl. by rewrite actions_of_app, actions_of_action_calls.
    + destruct (Read_adds
                  (mkSt w' (calls st ++ action_calls (updateCtxOf d dbClient)
                                          attempted) d))
        as (more & -> & Hget).
      simpl. rewrite !actions_of_app, actions_of_action_calls.
      by rewrite (actions_of_gets more Hget), app_nil_r.
  - pose proof (execPlan_prefix (Plan d) (updateCtxOf d dbClient) (world st))
      as P. by rewrite E in P.
  - apply Plan_sublist.
  - intros Hok.
    pose proof (execPlan_all_succeed (Plan d) _ Hok (world st)) as P.
    rewrite E in P. by injection P.
  - intros i shardX H1 H2 H3 H4 H5 Hl Hg Hu.
    unfold Plan, plan_top. rewrite H1, H2, H3, H4, H5.
    rewrite (plan_shards_one_grows d i shardX); try done; [lia|].
    by rewrite Nat.sub_0_r.
Qed.


(** C9.  The diff of [shrink_options] is always suppressed and the
    update function never looks at the attribute: two states that
    differ in [shrink_options] only lead to no action at all, the remote
    side and the call log stay as they are, and in general the plan of
    an update is the plan of the same states without [shrink_options]. *)
Theorem shrink_options_only_is_silent (st : St) :
  let d := data st in
  (forall k old new d', shrink_options_DiffSuppressFunc k old new d' = true) /\
  Plan (forget_shrink_options d) = Plan d /\
  (without_shrink_options (prior d) = without_shrink_options (current d) ->
   Plan d = [] /\
   (forall dbClient, DatabaseV1Client d = inr dbClient ->
                     updateActions st = (Val tt, st)) /\
   actions_of (calls (resourceDatabaseClusterWithShardsUpdate st).2) =
   actions_of (calls st)).
Proof.
  intros d. split; [done|]. split; [apply Plan_forget|].
  intros E.
  assert (P : Plan d = []).
  { rewrite <- Plan_forget. by apply Plan_same. }
  split; [exact P|]. split.
  - intros dbClient Hc. rewrite (updateActions_plan st dbClient Hc).
    fold d. rewrite P. apply after_plan_nil.
  - unfold resourceDatabaseClusterWithShardsUpdate, body, bind.
    destruct (DatabaseV1Client d) as [e|dbClient] eqn:Hc.
    + unfold updateActions, bind, getData, lift, clientOrExit.
      fold d. by rewrite Hc.
    + rewrite (updateActions_plan st dbClient Hc). fold d. rewrite P.
      rewrite after_plan_nil.
      destruct (Read_adds st) as (more & Em & Hget).
      destruct (resourceDatabaseClusterWithShardsRead st) as [[?| |] st'];
        simpl in *; rewrite Em, actions_of_app, (actions_of_gets more Hget);
        by rewrite app_nil_r.
Qed.

End SequencerClaims.

Section ReadClaims.
Context `{EX : Extractors} `{KO : Constants} {W : Type} `{RE : !Remote W}
        `{RH : !ReadHelpers W} `{AC : !Actions}.

(** C6.  The shard list of the read path has exactly the shard ids of
    the remote instance list, each once, and the size of every listed
    shard is the number of remote instances with its id; this list is
    what a successful read stores. *)
Theorem reconciled_shards_match_remote
    (instances : list Resp.ClusterInstanceResp) (d : ResourceData) :
  let shards := readShards instances d in
  (forall id,
     id ∈ map FlatShard.shard_id shards <-> id ∈ map Resp.ShardID instances) /\
  NoDup (map FlatShard.shard_id shards) /\
  (forall sh,
     sh ∈ shards ->
     FlatShard.size sh =
     Z.of_nat (length (filter (fun x => Resp.ShardID x = FlatShard.shard_id sh)
                              instances))) /\
  (forall st client cluster w',
     data st = d ->
     DatabaseV1Client d = inr client ->
     clusters_Get client (Id d) (world st) = (inr cluster, w') ->
     exists d1,
       Cluster.shard (current d1) = Cluster.shard (current d) /\
       Cluster.shard
         (current (data (resourceDatabaseClusterWithShardsRead st).2))
       = map FlatShard.to_shard (readShards (Resp.Instances cluster) d1)).
Proof.
  intros shards. subst shards. split; [|split; [|split]].
  - intros id. rewrite readShards_ids. split.
    + intros Hin. apply list_elem_of_fmap in Hin as ([id' l] & -> & Hin).
      apply elem_of_map_to_list in Hin. by apply group_spec in Hin as [_ ?].
    + intros Hin. destruct (group_exists instances id Hin) as [l Hl].
      apply list_elem_of_fmap. exists (id, l). split; [done|].
      by apply elem_of_map_to_list.
  - rewrite readShards_ids. apply NoDup_fst_map_to_list.
  - intros sh Hin.
    apply readShards_elem in Hin as (id & l & Hm & <- & ->).
    by apply group_spec in Hm as [-> _].
  - intros st client cluster w' <- Hc Hg.
    by apply (Read_stores st client cluster w').
Qed.


End ReadClaims.

(* ===================================================================== *)
(** * Further properties of the code *)
(* ===================================================================== *)

Section ImportProperties.
Context `{EX : Extractors} `{KO : Constants} {W : Type} `{RE : !Remote W}
        `{RH : !ReadHelpers W} `{IH : !ImportHelpers W}.

(** X1. The shard list the importer builds from [cluster.Instances]
    (fewer instances than the largest [int]): one shard for each shard id
    of the list, made from the first instance that carries the id, in the
    order in which the ids first appear; its size is the number of
    instances that carry the shard id the flattened shard holds; its
    volume type is [dbImportedStatus]. *)
Theorem import_shards
    (flatten : string -> list Resp.ClusterInstanceResp -> FlatShard.t)
    (instances : list Resp.ClusterInstanceResp) :
  Z.of_nat (length instances) <= int_max ->
  importShards flatten instances =
    map (fun inst =>
           set_size
             (Z.of_nat (instances_of
                          (FlatShard.shard_id (newShardOf flatten inst))
                          instances))
             (newShardOf flatten inst))
        (first_of_shard [] instances)
  /\ first_of_shard [] instances `sublist_of` instances
  /\ NoDup (map Resp.ShardID (first_of_shard [] instances))
  /\ (forall id, id ∈ map Resp.ShardID (first_of_shard [] instances) <->
                 id ∈ map Resp.ShardID instances)
  /\ (forall x, x ∈ first_of_shard [] instances ->
        exists before after,
          instances = (before ++ x :: after) /\
          Resp.ShardID x ∉ map Resp.ShardID before)
  /\ (forall sh, sh ∈ importShards flatten instances ->
        FlatShard.volume_type sh = Some dbImportedStatus).
Proof.
  intros Hlen.
  assert (importShards flatten instances =
    map (fun inst =>
           set_size
             (Z.of_nat (instances_of
                          (FlatShard.shard_id (newShardOf flatten inst))
                          instances))
             (newShardOf flatten inst))
        (first_of_shard [] instances)) as Heq.
  { unfold importShards.
    pose proof (importLoop_shards flatten instances ∅ [] []) as Hs.
    pose proof (importLoop_counts flatten instances ∅ [] 0) as Hc.
    destruct (importLoop flatten instances ∅ []) as [shardIDs shards].
    simpl in Hs, Hc. rewrite Hs.
    - rewrite map_map. apply map_ext. intros inst. f_equal.
      rewrite Hc; unfold count_of.
      + rewrite lookup_empty. simpl. lia.
      + intros id. rewrite lookup_empty. simpl. lia.
      + intros id. by rewrite lookup_empty.
      + lia.
    - intros id. rewrite lookup_empty. split.
      + by intros [? ?].
      + by intros ?%elem_of_nil. }
  split; [exact Heq|].
  split; [apply first_of_shard_sublist|].
  split; [apply first_of_shard_NoDup|].
  split.
  { intros id. rewrite first_of_shard_ids. split; [tauto|].
    intros ?; split; [done|apply not_elem_of_nil]. }
  split.
  { intros x Hx.
    destruct (first_of_shard_first _ _ _ Hx) as (b & a & ? & ? & _).
    by exists b, a. }
  intros sh. rewrite Heq. rewrite list_elem_of_fmap.
  intros (inst & -> & _). reflexivity.
Qed.

End ImportProperties.

Section ImportRun.
Context `{EX : Extractors} `{KO : Constants} {W : Type} `{RE : !Remote W}
        `{RH : !ReadHelpers W} `{IH : !ImportHelpers W}.

(** X2. An import that returns no error has asked for the cluster twice,
    once inside the read function and once itself; the shard list it
    leaves in the resource data is the importer's own list, built from
    the instances of the second answer, whatever the read function had
    stored before. *)
Theorem import_success
    (flatten : string -> list Resp.ClusterInstanceResp -> FlatShard.t)
    (st st' : St) :
  importState flatten st = (Val None, st') ->
  exists client cluster w,
    DatabaseV1Client (data st) = inr client /\
    let st1 := (resourceDatabaseClusterWithShardsRead st).2 in
    clusters_Get client (Id (data st1)) (world st1) = (inr cluster, w) /\
    calls st' = calls st ++ [CallGet (Id (data st)); CallGet (Id (data st1))] /\
    Cluster.shard (current (data st')) =
      map FlatShard.to_shard (importShards flatten (Resp.Instances cluster)).
Proof.
  intros H. unfold importState, bind at 1, getData in H.
  destruct (DatabaseV1Client (data st)) as [err|client] eqn:Hc;
    [discriminate|].
  destruct (Read_run st client Hc) as (ds & st1 & Hr & Hcalls).
  unfold bind at 1, returned in H. rewrite Hr in H |- *.
  destruct (HasError ds); [discriminate|].
  unfold bind, getData, remote, setData, unlogged, ret in H.
  cbn [snd].
  destruct (clusters_Get client (Id (data st1)) (world st1))
    as [[err|cluster] w2] eqn:Hg; [discriminate|].
  cbn [world calls data] in H.
  destruct (clusters_GetCapabilities client (Id (data st1)) w2)
    as [[err|caps] w3] eqn:Hp; [discriminate|].
  injection H as <-.
  exists client, cluster, w2. split; [done|]. split; [done|].
  cbn [calls data current Cluster.shard]. split.
  - rewrite Hcalls. by rewrite <- app_assoc.
  - reflexivity.
Qed.

End ImportRun.

(* ===================================================================== *)
(** ** The flavor data source *)
(* ===================================================================== *)

Section ComputeProperties.
Import Compute.
Context `{KO : Constants} `{VA : Values} {W : Type} `{CR : !ComputeRemote W}.

(** X3. [FlavorsLoop] keeps, in their order, exactly the flavors that
    have every attribute the query asks for: the name, the exact RAM,
    VCPUs, disk and swap, the rx/tx factor, and every requested extra
    spec with a deeply equal value. *)
Theorem flavors_loop_keeps_matching
    (requiredFlavor : RequiredFlavor.t) (allFlavors : list FlavorExt.t) :
  FlavorsLoop requiredFlavor allFlavors []
  = filter (meets requiredFlavor) allFlavors
  /\ FlavorsLoop requiredFlavor allFlavors [] `sublist_of` allFlavors
  /\ (forall flavor,
        flavor ∈ FlavorsLoop requiredFlavor allFlavors [] <->
        flavor ∈ allFlavors /\ meets requiredFlavor flavor).
Proof.
  rewrite FlavorsLoop_meets. split; [done|]. split.
  - apply sublist_filter.
  - intros flavor. rewrite list_elem_of_filter. tauto.
Qed.

(** X4. Among several flavors the choice loop returns the index of a
    flavor than which none has less RAM, or the same RAM and less disk;
    of several such flavors it is the first. *)
Theorem select_least (flavor : FlavorExt.t) (others : list FlavorExt.t) :
  let allFlavors := flavor :: others in
  let resIdx := selectLoop allFlavors allFlavors 0 0 in
  exists res,
    allFlavors !! resIdx = Some res /\
    (forall f, f ∈ allFlavors -> ~ smaller f res) /\
    (forall j f, (j < resIdx)%nat -> allFlavors !! j = Some f ->
                 smaller res f).
Proof.
  intros allFlavors resIdx. apply selectLoop_least.
Qed.

(** X5. No run of the read function ends in a panic: the indices it
    uses are within the list of flavors. *)
Theorem flavor_read_never_panics (st : St) :
  exists ds, (dataSourceComputeFlavorRead st).1 = Some ds.
Proof.
  unfold dataSourceComputeFlavorRead.
  destruct (ComputeV2Client (data st)) as [err|computeClient]; [by eexists|].
  case_bool_decide.
  - destruct (iflavors_Get _ _ _) as [[err|flavor] w'].
    + destruct (IsNotFound err); by eexists.
    + destruct (dataSourceComputeFlavorAttributes _ _ _); by eexists.
  - destruct (ListDetail_AllPages _ _ _) as [[err|allPages] w'];
      [by eexists|].
    destruct (ExtractFlavorsInto allPages) as [err|allFlavors];
      [by eexists|].
    unfold chooseFlavor.
    set (filtered := if bool_decide (0 < length allFlavors)%nat
                     then _ else _).
    case_bool_decide; [by eexists|].
    destruct filtered as [|flavor others] eqn:E; [simpl in *; lia|].
    destruct (_ && _).
    + destruct (select_least_index flavor others) as [res ->].
      destruct (dataSourceComputeFlavorAttributes _ _ _). by eexists.
    + case_bool_decide; [by eexists|]. cbn [lookup list_lookup].
      destruct (dataSourceComputeFlavorAttributes _ _ _). by eexists.
Qed.

(** X6. A lookup by criteria that ends without an error has stored the
    id of a flavor of the listing that has every attribute asked for,
    and no flavor of the listing that has them all is smaller: less RAM,
    or the same RAM and less disk. *)
Theorem flavor_found (st st' : St) (ds : Diagnostics) :
  flavor_id (data st) = "" ->
  dataSourceComputeFlavorRead st = (Some ds, st') ->
  HasError ds = false ->
  let requiredFlavor := NewRequiredFlavorFromResourceData (data st) in
  exists computeClient allPages w' allFlavors flavor,
    ComputeV2Client (data st) = inr computeClient /\
    ListDetail_AllPages computeClient (listOptsOf requiredFlavor) (world st)
      = (inr allPages, w') /\
    ExtractFlavorsInto allPages = inr allFlavors /\
    flavor ∈ allFlavors /\
    meets requiredFlavor flavor /\
    (forall other, other ∈ allFlavors -> meets requiredFlavor other ->
                   ~ smaller other flavor) /\
    Id (data st') = FlavorExt.ID flavor /\
    flavor_id (data st') = FlavorExt.ID flavor.
Proof.
  intros Hid Hrun Hok requiredFlavor.
  unfold dataSourceComputeFlavorRead in Hrun.
  destruct (ComputeV2Client (data st)) as [err|computeClient];
    [injection Hrun as <- <-; by rewrite HasError_diag_Error in Hok|].
  rewrite bool_decide_false in Hrun by (by intros ?).
  fold requiredFlavor in Hrun.
  destruct (ListDetail_AllPages _ _ _) as [[err|allPages] w'] eqn:Hl;
    [injection Hrun as <- <-; by rewrite HasError_diag_Error in Hok|].
  destruct (ExtractFlavorsInto allPages) as [err|allFlavors] eqn:He;
    [injection Hrun as <- <-; by rewrite HasError_diag_Error in Hok|].
  exists computeClient, allPages, w', allFlavors.
  unfold chooseFlavor in Hrun.
  assert ((if bool_decide (0 < length allFlavors)%nat
           then FlavorsLoop requiredFlavor allFlavors []
           else allFlavors) = filter (meets requiredFlavor) allFlavors) as Hf.
  { destruct allFlavors as [|a l]; [done|].
    rewrite bool_decide_true by (simpl; lia). apply FlavorsLoop_meets. }
  rewrite Hf in Hrun. clear Hf.
  set (filtered := filter (meets requiredFlavor) allFlavors) in *.
  assert (forall flavor, flavor ∈ filtered ->
            flavor ∈ allFlavors /\ meets requiredFlavor flavor) as Hin.
  { intros flavor Hflavor. apply list_elem_of_filter in Hflavor. tauto. }
  case_bool_decide;
    [injection Hrun as <- <-;
     by rewrite HasError_app, HasError_diag_Error, orb_true_r in Hok|].
  destruct filtered as [|first others] eqn:E; [simpl in *; lia|].
  destruct (_ && _).
  - destruct (selectLoop_least first others) as (res & Hres & Hmin & _).
    rewrite Hres in Hrun.
    pose proof (Attributes_run computeClient res
                  (mkSt w' (calls st ++ [CallListDetail (listOptsOf requiredFlavor)])
                        (data st))) as (HId & Hfid & _).
    destruct (dataSourceComputeFlavorAttributes _ _ _) as [e st1].
    injection Hrun as <- <-. exists res.
    apply list_elem_of_lookup_2 in Hres.
    destruct (Hin res Hres) as [? ?].
    repeat (split; [done|]). split; [|done].
    intros other Ho Hm. apply Hmin. rewrite <- E.
    apply list_elem_of_filter. done.
  - case_bool_decide;
      [injection Hrun as <- <-; by rewrite HasError_diag_Error in Hok|].
    destruct others; [|simpl in *; lia].
    cbn [lookup list_lookup] in Hrun.
    pose proof (Attributes_run computeClient first
                  (mkSt w' (calls st ++ [CallListDetail (listOptsOf requiredFlavor)])
                        (data st))) as (HId & Hfid & _).
    destruct (dataSourceComputeFlavorAttributes _ _ _) as [e st1].
    injection Hrun as <- <-. exists first.
    destruct (Hin first) as [? ?]; [by left|].
    repeat (split; [done|]). split; [|done].
    intros other Ho Hm.
    assert (other ∈ [first]) as ->%list_elem_of_singleton
      by (rewrite <- E; by apply list_elem_of_filter).
    unfold smaller. lia.
Qed.

(** X7. The requests of one read: at most two; a listing is asked for
    only without a [flavor_id], with [ram] in the place of [min_ram] and
    [disk] in the place of [min_disk] whenever they are set, and for
    public flavors or for all of them, never for the private ones alone;
    a flavor is asked for by the [flavor_id] only. *)
Theorem flavor_requests (st : St) :
  let d := data st in
  exists more,
    calls (dataSourceComputeFlavorRead st).2 = calls st ++ more /\
    (length more <= 2)%nat /\
    (forall opts, CallListDetail opts ∈ more ->
       flavor_id d = "" /\
       opts = ListOpts.mk (if bool_decide (disk d <> 0) then disk d
                           else min_disk d)
                          (if bool_decide (ram d <> 0) then ram d
                           else min_ram d)
                          (if is_public d then PublicAccess else AllAccess)) /\
    (forall id, CallGet id ∈ more -> id = flavor_id d /\ id <> "").
Proof.
  intros d. unfold dataSourceComputeFlavorRead. fold d.
  destruct (ComputeV2Client d) as [err|computeClient].
  { exists []. rewrite app_nil_r. split; [done|]. split; [simpl; lia|].
    split; intros ? ?%elem_of_nil; done. }
  assert (forall flavor st0 c,
            calls st0 = calls st ++ [c] ->
            exists more,
              calls (dataSourceComputeFlavorAttributes computeClient flavor st0).2
              = calls st ++ more /\
              (length more <= 2)%nat /\
              (forall x, x ∈ more ->
                 x = c \/ x = CallListExtraSpecs (FlavorExt.ID flavor)))
    as Hattr.
  { intros flavor st0 c Hc.
    destruct (Attributes_run computeClient flavor st0)
      as (_ & _ & [E|E] & _); rewrite E, Hc.
    - exists [c]. split; [done|]. split; [simpl; lia|].
      intros x ->%list_elem_of_singleton. by left.
    - exists [c; CallListExtraSpecs (FlavorExt.ID flavor)].
      rewrite <- app_assoc. split; [done|]. split; [simpl; lia|].
      intros x [->|[->|?%elem_of_nil]%elem_of_cons]%elem_of_cons;
        [by left|by right|done]. }
  case_bool_decide as Hv.
  - assert (exists more,
      calls (let '(r, w') := iflavors_Get computeClient (flavor_id d) (world st) in
             match r with
             | inl err =>
                 if IsNotFound err
                 then (Some (diag_Error "No Flavor found"),
                       mkSt w' (calls st ++ [CallGet (flavor_id d)]) (data st))
                 else (Some (diag_Error ("Unable to retrieve VKCS "
                          +:+ flavor_id d +:+ " flavor: " +:+ Error err)),
                       mkSt w' (calls st ++ [CallGet (flavor_id d)]) (data st))
             | inr flavor =>
                 let '(e, st') :=
                   dataSourceComputeFlavorAttributes computeClient
                     (FlavorExt.mk flavor None)
                     (mkSt w' (calls st ++ [CallGet (flavor_id d)]) (data st)) in
                 (Some (FromErr e), st')
             end).2 = calls st ++ more /\
      (length more <= 2)%nat /\
      (forall x, x ∈ more ->
         x = CallGet (flavor_id d) \/ exists id, x = CallListExtraSpecs id))
      as (more & E & Hlen & Hx).
    { destruct (iflavors_Get _ _ _) as [[err|flavor] w'].
      - exists [CallGet (flavor_id d)].
        split; [by destruct (IsNotFound err)|]. split; [simpl; lia|].
        intros x ->%list_elem_of_singleton. by left.
      - destruct (Hattr (FlavorExt.mk flavor None)
                    (mkSt w' (calls st ++ [CallGet (flavor_id d)]) (data st))
                    (CallGet (flavor_id d)) eq_refl) as (more & E & Hlen & Hx).
        destruct (dataSourceComputeFlavorAttributes _ _ _) as [e st1].
        exists more. split; [done|]. split; [done|].
        intros x Hin. destruct (Hx x Hin) as [->| ->]; [by left|right; eauto]. }
    exists more. split; [exact E|]. split; [done|]. split.
    + intros opts Hin. destruct (Hx _ Hin) as [?|[? ?]]; done.
    + intros id Hin. destruct (Hx _ Hin) as [[= ->]|[? ?]]; done.
  - assert (flavor_id d = "") as Hempty
      by (destruct (decide (flavor_id d = "")); [done|by destruct Hv]).
    set (requiredFlavor := NewRequiredFlavorFromResourceData d).
    assert (listOptsOf requiredFlavor =
            ListOpts.mk (if bool_decide (disk d <> 0) then disk d
                         else min_disk d)
                        (if bool_decide (ram d <> 0) then ram d
                         else min_ram d)
                        (if is_public d then PublicAccess else AllAccess))
      as Hopts.
    { unfold listOptsOf, requiredFlavor, NewRequiredFlavorFromResourceData.
      cbn. by destruct (is_public d). }
    assert (exists more,
      calls (let '(r, w') :=
               ListDetail_AllPages computeClient (listOptsOf requiredFlavor)
                 (world st) in
             match r with
             | inl err =>
                 (Some (diag_Error ("Unable to query VKCS flavors: "
                                    +:+ Error err)),
                  mkSt w' (calls st ++ [CallListDetail (listOptsOf requiredFlavor)])
                       (data st))
             | inr allPages =>
                 match ExtractFlavorsInto allPages with
                 | inl err =>
                     (Some (diag_Error ("Unable to retrieve VKCS flavors: "
                                        +:+ Error err)),
                      mkSt w' (calls st ++ [CallListDetail (listOptsOf requiredFlavor)])
                           (data st))
                 | inr allFlavors =>
                     chooseFlavor computeClient requiredFlavor allFlavors
                       (mkSt w' (calls st ++ [CallListDetail (listOptsOf requiredFlavor)])
                             (data st))
                 end
             end).2 = calls st ++ more /\
      (length more <= 2)%nat /\
      (forall x, x ∈ more ->
         x = CallListDetail (listOptsOf requiredFlavor)
         \/ exists id, x = CallListExtraSpecs id))
      as (more & E & Hlen & Hx).
    { assert (exists more,
        calls st ++ [CallListDetail (listOptsOf requiredFlavor)]
        = calls st ++ more /\ (length more <= 2)%nat /\
        (forall x, x ∈ more ->
           x = CallListDetail (listOptsOf requiredFlavor)
           \/ exists id, x = CallListExtraSpecs id)) as Hone.
      { exists [CallListDetail (listOptsOf requiredFlavor)].
        split; [done|]. split; [simpl; lia|].
        intros x ->%list_elem_of_singleton. by left. }
      destruct (ListDetail_AllPages _ _ _) as [[err|allPages] w'];
        [exact Hone|].
      destruct (ExtractFlavorsInto allPages) as [err|allFlavors];
        [exact Hone|].
      unfold chooseFlavor.
      set (filtered := if bool_decide (0 < length allFlavors)%nat
                       then _ else _).
      assert (forall flavor,
        exists more,
          calls (let '(e, st') :=
                   dataSourceComputeFlavorAttributes computeClient flavor
                     (mkSt w' (calls st ++ [CallListDetail (listOptsOf requiredFlavor)])
                           (data st)) in
                 (Some (warnings requiredFlavor ++ FromErr e), st')).2
          = calls st ++ more /\ (length more <= 2)%nat /\
          (forall x, x ∈ more ->
             x = CallListDetail (listOptsOf requiredFlavor)
             \/ exists id, x = CallListExtraSpecs id)) as Hset.
      { intros flavor.
        destruct (Hattr flavor
                    (mkSt w' (calls st ++ [CallListDetail (listOptsOf requiredFlavor)])
                          (data st))
                    (CallListDetail (listOptsOf requiredFlavor)) eq_refl)
          as (more & E & Hlen & Hx).
        destruct (dataSourceComputeFlavorAttributes _ _ _) as [e st1].
        exists more. split; [done|]. split; [done|].
        intros x Hin. destruct (Hx x Hin) as [->| ->]; [by left|right; eauto]. }
      destruct (bool_decide (length filtered < 1)%nat); [exact Hone|].
      destruct (_ && _).
      - destruct (filtered !! _); [apply Hset|exact Hone].
      - destruct (bool_decide (1 < length filtered)%nat); [exact Hone|].
        destruct (filtered !! _); [apply Hset|exact Hone]. }
    exists more. split; [exact E|]. split; [done|]. split.
    + intros opts Hin. destruct (Hx _ Hin) as [[= ->]|[? ?]]; done.
    + intros id Hin. destruct (Hx _ Hin) as [?|[? ?]]; done.
Qed.

(** X16. With a [flavor_id] every other criterion is ignored: two reads
    that agree on the [flavor_id], the client and the remote side return
    the same diagnostics, send the same requests, none of them a
    listing, and leave the same id, whatever [name], [ram], [vcpus],
    [disk], [swap], [rx_tx_factor], [is_public] and [extra_specs] ask
    for. *)
Theorem flavor_id_ignores_criteria (st1 st2 : St) :
  flavor_id (data st1) <> "" ->
  flavor_id (data st1) = flavor_id (data st2) ->
  ComputeV2Client (data st1) = ComputeV2Client (data st2) ->
  world st1 = world st2 ->
  let r1 := dataSourceComputeFlavorRead st1 in
  let r2 := dataSourceComputeFlavorRead st2 in
  r1.1 = r2.1 /\
  world r1.2 = world r2.2 /\
  (exists more,
     calls r1.2 = calls st1 ++ more /\ calls r2.2 = calls st2 ++ more /\
     forall opts, CallListDetail opts ∉ more) /\
  (Id (data r1.2) = Id (data r2.2) \/
   (data r1.2 = data st1 /\ data r2.2 = data st2)).
Proof.
  intros Hv Hid Hclient Hworld. unfold dataSourceComputeFlavorRead.
  rewrite <- Hclient, <- Hid, <- Hworld.
  destruct (ComputeV2Client (data st1)) as [err|computeClient].
  { cbn. split; [done|]. split; [done|]. split; [|by right].
    exists []. rewrite !app_nil_r. split; [done|]. split; [done|].
    intros opts ?%elem_of_nil. done. }
  rewrite bool_decide_true by done.
  destruct (iflavors_Get _ _ _) as [[err|flavor] w'].
  { assert (forall opts, CallListDetail opts ∉ [CallGet (flavor_id (data st1))])
      as Hno by (intros opts ?%list_elem_of_singleton; done).
    destruct (IsNotFound err); cbn.
    all: split; [done|]; split; [done|]; split; [|by right].
    all: by exists [CallGet (flavor_id (data st1))]. }
  unfold dataSourceComputeFlavorAttributes. cbn.
  destruct (ListExtraSpecs _ _ _) as [[err|es] w'']; cbn.
  all: split; [done|]; split; [done|]; split; [|by left].
  all: exists [CallGet (flavor_id (data st1));
               CallListExtraSpecs (Flavor.ID flavor)].
  all: rewrite <- !app_assoc; split; [done|]; split; [done|].
  all: intros opts [?|[?|?%elem_of_nil]%elem_of_cons]%elem_of_cons; done.
Qed.

(** X17. Once the flavors are listed, every result of the read begins
    with the warnings about an exact value set next to its minimum; the
    one return that is written without them is reached only when there
    are none. *)
Theorem flavor_warnings_first (st : St) (computeClient : ServiceClient)
    (allPages : Pages) (w' : W) (allFlavors : list FlavorExt.t) :
  flavor_id (data st) = "" ->
  ComputeV2Client (data st) = inr computeClient ->
  let requiredFlavor := NewRequiredFlavorFromResourceData (data st) in
  ListDetail_AllPages computeClient (listOptsOf requiredFlavor) (world st)
    = (inr allPages, w') ->
  ExtractFlavorsInto allPages = inr allFlavors ->
  exists rest,
    (dataSourceComputeFlavorRead st).1
    = Some (warnings requiredFlavor ++ rest).
Proof.
  intros Hid Hc requiredFlavor Hl He. unfold dataSourceComputeFlavorRead.
  rewrite Hc, Hid. rewrite bool_decide_false by (by intros ?).
  fold requiredFlavor. rewrite Hl, He. unfold chooseFlavor.
  set (filtered := if bool_decide (0 < length allFlavors)%nat
                   then _ else _).
  destruct filtered as [|flavor others] eqn:E.
  { rewrite bool_decide_true by (simpl; lia). by eexists. }
  rewrite bool_decide_false by (simpl; lia).
  destruct (bool_decide (1 < length (flavor :: others))%nat); cbn [andb].
  - destruct (RequiredFlavor.HasMinRAM requiredFlavor
              || RequiredFlavor.HasMinDisk requiredFlavor) eqn:Hmin.
    + destruct (select_least_index flavor others) as [res ->].
      destruct (dataSourceComputeFlavorAttributes _ _ _). by eexists.
    + apply orb_false_iff in Hmin as [Hr Hd]. unfold warnings.
      rewrite Hr, Hd. cbn. by eexists.
  - cbn [lookup list_lookup].
    destruct (dataSourceComputeFlavorAttributes _ _ _). by eexists.
Qed.

(** X18. The two ways a lookup by criteria fails after the listing.  No
    flavor of the listing has every attribute asked for: the warnings
    and then the error of the empty result.  Several have them and
    neither [min_ram] nor [min_disk] is set, be [ram] or [disk] set or
    not: the error of the ambiguous result.  In both cases the resource
    data is left as it was and the listing is the only request. *)
Theorem flavor_lookup_errors (st : St) (computeClient : ServiceClient)
    (allPages : Pages) (w' : W) (allFlavors : list FlavorExt.t) :
  flavor_id (data st) = "" ->
  ComputeV2Client (data st) = inr computeClient ->
  let requiredFlavor := NewRequiredFlavorFromResourceData (data st) in
  ListDetail_AllPages computeClient (listOptsOf requiredFlavor) (world st)
    = (inr allPages, w') ->
  ExtractFlavorsInto allPages = inr allFlavors ->
  let matching := filter (meets requiredFlavor) allFlavors in
  let listed :=
    mkSt w' (calls st ++ [CallListDetail (listOptsOf requiredFlavor)])
         (data st) in
  (matching = [] ->
   dataSourceComputeFlavorRead st =
   (Some (warnings requiredFlavor
          ++ diag_Error "Your query returned no results. Please change your search criteria and try again."),
    listed)) /\
  ((1 < length matching)%nat -> min_ram (data st) = 0 ->
   min_disk (data st) = 0 ->
   dataSourceComputeFlavorRead st =
   (Some (diag_Error "Your query returned more than one result. Please try a more specific search criteria"),
    listed)).
Proof.
  intros Hid Hc requiredFlavor Hl He matching listed.
  unfold dataSourceComputeFlavorRead.
  rewrite Hc, Hid. rewrite bool_decide_false by (by intros ?).
  fold requiredFlavor. rewrite Hl, He. unfold chooseFlavor.
  assert ((if bool_decide (0 < length allFlavors)%nat
           then FlavorsLoop requiredFlavor allFlavors []
           else allFlavors) = matching) as ->.
  { unfold matching. destruct allFlavors as [|a l]; [done|].
    rewrite bool_decide_true by (simpl; lia). apply FlavorsLoop_meets. }
  split.
  - intros ->. by rewrite bool_decide_true by (simpl; lia).
  - intros Hlen Hram Hdisk.
    rewrite bool_decide_false by lia. rewrite bool_decide_true by lia.
    assert (RequiredFlavor.HasMinRAM requiredFlavor = false) as ->.
    { unfold requiredFlavor, NewRequiredFlavorFromResourceData. cbn.
      rewrite Hram. done. }
    assert (RequiredFlavor.HasMinDisk requiredFlavor = false) as ->.
    { unfold requiredFlavor, NewRequiredFlavorFromResourceData. cbn.
      rewrite Hdisk. done. }
    done.
Qed.

End ComputeProperties.

(* ===================================================================== *)
(** ** Create and delete *)
(* ===================================================================== *)

Section CreateProperties.
Context `{EX : Extractors} `{KO : Constants} {W : Type} `{RE : !Remote W}
        `{RH : !ReadHelpers W}.

(** X8. A negative [size] in a shard block (the blocks before it decode
    and the sizes add up within [int]): the create function panics, in
    [make] when the sum is negative and at the store into
    [clusterInstances] otherwise, before any request is sent. *)
Theorem create_negative_size_panics (st : St) (client : Client) :
  DatabaseV1Client (data st) = inr client ->
  decodes (Cluster.restore_point (current (data st)))
          extractDatabaseRestorePoint ->
  decodes (Cluster.datastore (current (data st))) extractDatabaseDatastore ->
  decodes (Cluster.disk_autoexpand (current (data st)))
          extractDatabaseAutoExpand ->
  decodes (Cluster.wal_disk_autoexpand (current (data st)))
          extractDatabaseAutoExpand ->
  Forall wal_decodes (Cluster.shard (current (data st))) ->
  abs_total (Cluster.shard (current (data st))) <= int_max ->
  Exists (fun s => Shard.size s < 0) (Cluster.shard (current (data st))) ->
  resourceDatabaseClusterWithShardsCreate st = (Panic, st).
Proof.
  intros Hc Hr Hd Ha Hw Hs Hmax Hneg.
  unfold resourceDatabaseClusterWithShardsCreate.
  unfold body, bind at 1, getData. unfold bind at 1, lift, clientOrExit.
  rewrite Hc. unfold bind at 1.
  assert (createOptsOf (data st) = Panic) as ->; [|done].
  unfold createOptsOf.
  destruct (optional_decodes _ _ "restore_point" Hr) as [o1 ->].
  destruct (optional_decodes _ _ "datastore" Hd) as [o2 ->].
  destruct (optional_decodes _ _ "disk_autoexpand" Ha) as [o3 ->].
  destruct (optional_decodes _ _ "wal_disk_autoexpand" Hw) as [o4 ->].
  cbn [res_bind]. by rewrite clusterInstancesOf_negative.
Qed.

(** X9. When the request cannot be built, the diagnostics name the
    block that did not decode, one of six, and nothing else: the error
    of the decoder is dropped, no request is sent and the resource data
    is as before. *)
Theorem create_decode_failure (st : St) (client : Client) (ds : Diagnostics) :
  DatabaseV1Client (data st) = inr client ->
  createOptsOf (data st) = Ret ds ->
  resourceDatabaseClusterWithShardsCreate st = (Ret ds, st) /\
  exists what,
    what ∈ decoded_blocks /\
    ds = diag_Error ("unable to determine vkcs_db_cluster_with_shards "
                     +:+ what).
Proof.
  intros Hc Ho. split.
  - unfold resourceDatabaseClusterWithShardsCreate.
    unfold body, bind at 1, getData. unfold bind at 1, lift, clientOrExit.
    rewrite Hc. unfold bind at 1. by rewrite Ho.
  - destruct (createOptsOf_Ret _ _ Ho) as (what & Hin & ->).
    exists what. split; [done|]. unfold message.
    by rewrite <- app_assoc_s.
Qed.


(** X11. The id of the new cluster is stored last: when the cluster
    was created but the wait for it, or the attachment of the
    configuration group, reports an error, the create function returns
    that error and the resource data is as before, without the id of
    the cluster that now exists. *)
Theorem create_failure_stores_no_id (st : St) (client : Client)
    (createOpts : CreateOpts) (checkCapabilities : option (list CapabilityOpts))
    (id : string) (w1 : W) :
  DatabaseV1Client (data st) = inr client ->
  createOptsOf (data st) = Val (createOpts, checkCapabilities) ->
  clusters_Create client createOpts (world st) = (inr id, w1) ->
  let stateConf := createStateConf (data st) client id checkCapabilities in
  let configuration := Cluster.configuration_id (current (data st)) in
  let waited := WaitForStateContext stateConf w1 in
  (is_Some waited.1 \/
   (configuration <> "" /\
    is_Some (instances_AttachConfigurationGroup client id configuration
               waited.2).1)) ->
  let r := resourceDatabaseClusterWithShardsCreate st in
  data r.2 = data st /\
  (exists ds, r.1 = Ret ds /\ HasError ds = true) /\
  (exists more, calls r.2 = calls st ++ CallCreate createOpts :: more /\
                forall c, c ∈ more -> ~ is_get c).
Proof.
  intros Hc Ho Hcreate stateConf configuration waited Hfail.
  subst stateConf configuration waited.
  unfold resourceDatabaseClusterWithShardsCreate.
  unfold body, bind, getData, lift, clientOrExit, remote, setData, ret, exit.
  rewrite Hc, Ho, Hcreate. cbn [fst snd world calls data].
  destruct (WaitForStateContext _ w1) as [[err|] w2];
    cbn [fst snd world calls data] in *.
  { split; [done|]. split; [eexists; split; [done|apply HasError_diag_Error]|].
    eexists [CallWait _]. rewrite <- app_assoc. split; [done|].
    intros c ->%list_elem_of_singleton [? ?]. done. }
  destruct Hfail as [[? [=]]|[Hcfg Hattach]].
  unfold GetOk_string. cbn [fst snd].
  rewrite bool_decide_true by done. cbn [fst snd world calls data].
  destruct (instances_AttachConfigurationGroup _ _ _ w2) as [[err|] w3];
    cbn [fst snd world calls data] in *; [|by destruct Hattach].
  split; [done|]. split; [eexists; split; [done|apply HasError_diag_Error]|].
  eexists [CallWait _; CallAttachConfiguration _ _].
  rewrite <- !app_assoc. split; [done|].
  intros c [->|[->|?%elem_of_nil]%elem_of_cons]%elem_of_cons [? ?]; done.
Qed.


End CreateProperties.

(* ===================================================================== *)
(** ** The order of the shards the read function stores *)
(* ===================================================================== *)

Section ReadOrderProperties.
Context `{EX : Extractors} `{KO : Constants} {W : Type} `{RE : !Remote W}
        `{RH : !ReadHelpers W}.

(** X13. The read path sorts the remote shards by id and puts the
    declared ones first; the loop after it pairs the shard at index [i]
    with the block declared at index [i].  For remote shards with
    different ids that include every declared one, each declared block
    is paired with the remote shard of its own id exactly when the
    blocks are declared in strictly ascending order of their ids. *)
Theorem declared_order_kept_iff_ascending
    (flattenedShards : list FlatShard.t) (rawShards : list Shard.t) :
  NoDup (map FlatShard.shard_id flattenedShards) ->
  (forall s, s ∈ rawShards ->
     Shard.shard_id s ∈ map FlatShard.shard_id flattenedShards) ->
  (forall i s, rawShards !! i = Some s ->
     exists f, orderShards flattenedShards rawShards !! i = Some f /\
               FlatShard.shard_id f = Shard.shard_id s)
  <-> ascending (map Shard.shard_id rawShards).
Proof.
  intros Hnd Hall. rewrite orderShards_filter.
  set (S := sort_Slice shard_id_less flattenedShards).
  set (D := filter (fun f => declared rawShards f = true) S).
  set (N := filter (fun f => declared rawShards f <> true) S).
  assert (S ≡ₚ flattenedShards) as HSp by apply sort_Slice_Permutation.
  assert (NoDup (map FlatShard.shard_id S)) as HSnd.
  { change (NoDup (FlatShard.shard_id <$> S)). by rewrite HSp. }
  assert (StronglySorted (fun a b => shard_id_less a b = true) D) as HDs.
  { apply StronglySorted_filter, sorted_ids_strict; [done|].
    apply sort_Slice_sorted. }
  split.
  - intros Hpair i j a b Hij Ha Hb.
    change (map Shard.shard_id rawShards) with (Shard.shard_id <$> rawShards)
      in Ha, Hb.
    apply list_lookup_fmap_Some in Ha as (si & -> & Hsi).
    apply list_lookup_fmap_Some in Hb as (sj & -> & Hsj).
    destruct (Hpair i si Hsi) as (fi & Hfi & Ei).
    destruct (Hpair j sj Hsj) as (fj & Hfj & Ej).
    assert (j < length D)%nat as Hj.
    { destruct (decide (j < length D)%nat) as [?|Hge]; [done|exfalso].
      rewrite lookup_app_r in Hfj by lia.
      apply list_elem_of_lookup_2, list_elem_of_filter in Hfj as [Hnot _].
      apply Hnot, declared_spec. rewrite Ej.
      apply (list_elem_of_fmap_2 Shard.shard_id).
      by apply list_elem_of_lookup_2 in Hsj. }
    rewrite lookup_app_l in Hfi, Hfj by lia.
    rewrite <- Ei, <- Ej.
    exact (StronglySorted_lookup_lt _ _ HDs i j fi fj Hij Hfi Hfj).
  - intros Hasc. apply ascending_sorted in Hasc.
    assert (FlatShard.shard_id <$> D = Shard.shard_id <$> rawShards) as Hids.
    { apply (StronglySorted_unique
               (fun a b : string => String.ltb a b = true)); [|done|].
      - by apply (StronglySorted_fmap _
                    (fun a b => shard_id_less a b = true)).
      - apply NoDup_Permutation.
        + apply sorted_NoDup.
          by apply (StronglySorted_fmap _
                      (fun a b => shard_id_less a b = true)).
        + by apply sorted_NoDup.
        + intros x. split.
          * intros (f & -> & Hf)%list_elem_of_fmap.
            apply list_elem_of_filter in Hf as [Hd _].
            by apply declared_spec in Hd.
          * intros (s & -> & Hs)%list_elem_of_fmap.
            destruct (proj1 (list_elem_of_fmap _ _ _) (Hall s Hs))
              as (f & E & Hf).
            rewrite E. apply list_elem_of_fmap_2.
            apply list_elem_of_filter. split.
            -- apply declared_spec. rewrite <- E.
               by apply (list_elem_of_fmap_2 Shard.shard_id).
            -- by rewrite HSp. }
    intros i s Hs.
    assert ((FlatShard.shard_id <$> D) !! i = Some (Shard.shard_id s)) as Hi.
    { rewrite Hids. apply list_lookup_fmap_Some. eauto. }
    apply list_lookup_fmap_Some in Hi as (f & E & Hf).
    exists f. split; [by apply lookup_app_l_Some|done].
Qed.

(** X20. The order in which the read path lists the shards depends on
    the declared blocks only through the set of their ids, and on the
    remote shards (with different ids) only as a set: declaring the same
    shards in another order, or getting the instances in another order,
    gives the same list. *)
Theorem read_order_ignores_declaration_order
    (flattenedShards flattenedShards' : list FlatShard.t)
    (rawShards rawShards' : list Shard.t) :
  NoDup (map FlatShard.shard_id flattenedShards) ->
  flattenedShards' ≡ₚ flattenedShards ->
  (forall id, id ∈ map Shard.shard_id rawShards <->
              id ∈ map Shard.shard_id rawShards') ->
  orderShards flattenedShards rawShards
  = orderShards flattenedShards' rawShards'.
Proof.
  intros Hnd Hp Hids. rewrite !orderShards_filter.
  assert (sort_Slice shard_id_less flattenedShards'
          = sort_Slice shard_id_less flattenedShards) as ->.
  { apply sort_Slice_unique; [done| |].
    - by rewrite sort_Slice_Permutation.
    - apply Sorted_merge_sort. apply _. }
  f_equal; apply list_filter_iff; intros f.
  - by rewrite !declared_spec.
  - destruct (declared rawShards f) eqn:E, (declared rawShards' f) eqn:E';
      try done.
    + apply declared_spec, Hids, declared_spec in E. congruence.
    + apply declared_spec, Hids, declared_spec in E'. congruence.
Qed.

(** X19. What a read that got the cluster leaves alone: the id, the
    prior state, and the region, root settings, floating IP flag,
    keypair, capabilities, restore point and monitoring flag of the
    current state.  The name and the configuration id are the remote
    ones, but an autoexpand block that is not in the state stays out of
    it, whatever the cluster has. *)
Theorem read_keeps_undeclared (st : St) (client : Client)
    (cluster : Resp.ClusterResp DataStoreResp) (w' : W) :
  DatabaseV1Client (data st) = inr client ->
  clusters_Get client (Id (data st)) (world st) = (inr cluster, w') ->
  let d := data st in
  let d' := data (resourceDatabaseClusterWithShardsRead st).2 in
  Id d' = Id d /\ prior d' = prior d /\ timeouts d' = timeouts d /\
  Cluster.region (current d') = Cluster.region (current d) /\
  Cluster.root_enabled (current d') = Cluster.root_enabled (current d) /\
  Cluster.root_password (current d') = Cluster.root_password (current d) /\
  Cluster.floating_ip_enabled (current d')
    = Cluster.floating_ip_enabled (current d) /\
  Cluster.keypair (current d') = Cluster.keypair (current d) /\
  Cluster.capabilities (current d') = Cluster.capabilities (current d) /\
  Cluster.restore_point (current d') = Cluster.restore_point (current d) /\
  Cluster.cloud_monitoring_enabled (current d')
    = Cluster.cloud_monitoring_enabled (current d) /\
  Cluster.name (current d') = Resp.Name cluster /\
  Cluster.configuration_id (current d') = Resp.ConfigurationID cluster /\
  (Cluster.disk_autoexpand (current d) = [] ->
   Cluster.disk_autoexpand (current d') = []) /\
  (Cluster.wal_disk_autoexpand (current d) = [] ->
   Cluster.wal_disk_autoexpand (current d') = []).
Proof.
  intros Hc Hg d d'. subst d d'.
  unfold resourceDatabaseClusterWithShardsRead, body, bind, getData, lift,
    clientOrExit, remote, setData, ret.
  rewrite Hc, Hg. cbn -[readShards networkDiags].
  repeat (split; [reflexivity|]).
  split; intros ->; reflexivity.
Qed.

End ReadOrderProperties.

(* ===================================================================== *)
(** ** The error texts of an update *)
(* ===================================================================== *)

Section MessageProperties.
Context `{EX : Extractors} `{KO : Constants} {W : Type} `{RE : !Remote W}
        `{RH : !ReadHelpers W}.



End MessageProperties.

(* ===================================================================== *)
(** ** Updates that change the number of shard blocks *)
(* ===================================================================== *)

Section ShardCountProperties.
Context `{EX : Extractors} `{KO : Constants} {W : Type} `{RE : !Remote W}
        `{RH : !ReadHelpers W} `{AC : !Actions}.

(** X21. The update has nothing for a shard that is no longer declared:
    when the last blocks of the state are removed from the declaration
    and nothing else differs, no action function is called, and the
    update is the read alone. *)
Theorem update_sends_nothing_for_removed_shards (st : St) (dbClient : Client)
    (removed : list Shard.t) :
  DatabaseV1Client (data st) = inr dbClient ->
  prior (data st) =
    Cluster.with_shard (Cluster.shard (current (data st)) ++ removed)
                       (current (data st)) ->
  Plan (data st) = [] /\
  actions_of (calls (resourceDatabaseClusterWithShardsUpdate st).2)
  = actions_of (calls st).
Proof.
  intros Hc Hprior.
  assert (Plan (data st) = []) as HP.
  { unfold Plan. rewrite plan_top_same by eauto. simpl.
    apply plan_shards_unchanged_within. intros j [_ Hj]. simpl in Hj.
    apply same_block_unchanged. unfold shardAt. rewrite Hprior. simpl.
    by rewrite lookup_app_l by done. }
  split; [exact HP|].
  rewrite (Update_run st dbClient Hc [] None (world st))
    by (by rewrite HP).
  match goal with
  | |- context [resourceDatabaseClusterWithShardsRead ?s] =>
      destruct (Read_adds s) as (more & -> & Hgets)
  end.
  cbn [calls action_calls map]. rewrite app_nil_r, actions_of_app.
  by rewrite (actions_of_gets more Hgets), app_nil_r.
Qed.

(** X22. The update has no action that adds a shard: a block appended
    to the declaration, the other blocks being as they were, is compared
    with the zero values under its index and handled as a change of a
    shard that exists.  The actions entered for its id are the volume
    resize when its volume size is not 0, the WAL resize when it has a
    WAL block, the flavor resize when it names a flavor, and grow when
    its size is positive. *)
Theorem update_of_appended_shard (st : St) (dbClient : Client)
    (old : list Shard.t) (new : Shard.t) :
  DatabaseV1Client (data st) = inr dbClient ->
  Cluster.shard (current (data st)) = old ++ [new] ->
  prior (data st) = Cluster.with_shard old (current (data st)) ->
  int_range (Shard.size new) ->
  updateActions st =
  after_plan (actions_for_new_block new) (updateCtxOf (data st) dbClient)
             (Id (data st)) st.
Proof.
  intros Hc Hcur Hprior Hr.
  rewrite (updateActions_plan st dbClient Hc). f_equal.
  unfold Plan. rewrite plan_top_same by eauto. simpl.
  rewrite Hcur, plan_shards_app.
  rewrite plan_shards_unchanged_within.
  2: { intros j [_ Hj]. simpl in Hj. apply same_block_unchanged.
       unfold shardAt. rewrite Hprior, Hcur. simpl.
       by rewrite lookup_app_l by done. }
  cbn [app plan_shards]. rewrite app_nil_r.
  assert (shardAt (prior (data st)) (0 + length old) = Shard.zero) as Hold.
  { unfold shardAt. rewrite Hprior. simpl.
    by rewrite lookup_ge_None_2 by lia. }
  assert (shardAt (current (data st)) (0 + length old) = new) as Hnew.
  { unfold shardAt. rewrite Hcur.
    by rewrite list_lookup_middle by done. }
  unfold plan_shard, plan_size, HasChangeAt, GetChangeAt, actions_for_new_block,
    when_changed.
  rewrite Hold, Hnew. cbn [Shard.volume_size Shard.wal_volume Shard.flavor_id
                           Shard.size Shard.zero].
  unfold int_sub. rewrite Z.sub_0_r, wrap_id by done.
  rewrite (bool_decide_ne_sym 0), (bool_decide_ne_sym []),
    (bool_decide_ne_sym "").
  repeat f_equal.
  - destruct (decide (Shard.wal_volume new = [])) as [E|E].
    + by rewrite !bool_decide_false by (intros ?; done).
    + by rewrite !bool_decide_true by done.
  - destruct (bool_decide (0 = Shard.size new)) eqn:E0;
      destruct (bool_decide (Shard.size new > 0)) eqn:E1;
      destruct (bool_decide (0 < Shard.size new)) eqn:E2;
      destruct (bool_decide (Shard.size new < 0)) eqn:E3; try done;
      repeat match goal with
             | H : bool_decide _ = true |- _ => apply bool_decide_eq_true in H
             | H : bool_decide _ = false |- _ =>
                 apply bool_decide_eq_false in H
             end; lia.
Qed.

End ShardCountProperties.

(* ===================================================================== *)
(** * The properties at concrete inputs *)
(* ===================================================================== *)

Module Examples.
Import Demo.

(** Shards W (one instance) and X (five instances): six descriptors, the
    one of W first. *)
Lemma translator_descriptors_witness :
  clusterInstancesOf "key-1" [shard_of "W" 1; shard_of "X" 5] =
  Val (shard_descriptor "key-1" (shard_of "W" 1)
       :: replicate 5 (shard_descriptor "key-1" (shard_of "X" 5))).
Proof.
  apply (translator_descriptors three_changes).
  - repeat constructor; vm_compute; congruence.
  - vm_compute; congruence.
  - vm_compute; congruence.
  - repeat constructor; by left.
Defined.

(** A shard of size 0 passes the schema: the create path does not end
    with an error before the first call; the request goes out without
    any instance for that shard and no diagnostic is reported. *)
Lemma size_zero_is_created :
  RawShard.size (raw_shard "s1" 0) = Some 0 /\
  ~ (exists diags,
       applyCreate (raw_of [raw_shard "s1" 0]) (state_of [] declared_BA)
       = (Ret diags, state_of [] declared_BA) /\
       HasError diags = true) /\
  exists createOpts st',
    applyCreate (raw_of [raw_shard "s1" 0]) (state_of [] declared_BA)
    = (Ret [], st') /\
    calls st' = [CallCreate createOpts;
                 CallWait (createStateConf
                             (mkData "" no_cluster
                                (RawConfig.decode (raw_of [raw_shard "s1" 0]))
                                (Some resource_Timeouts))
                             client "cluster-1" None);
                 CallGet "cluster-1"] /\
    Instances createOpts = [].
Proof.
  assert (exists createOpts st',
    applyCreate (raw_of [raw_shard "s1" 0]) (state_of [] declared_BA)
    = (Ret [], st') /\
    calls st' = [CallCreate createOpts;
                 CallWait (createStateConf
                             (mkData "" no_cluster
                                (RawConfig.decode (raw_of [raw_shard "s1" 0]))
                                (Some resource_Timeouts))
                             client "cluster-1" None);
                 CallGet "cluster-1"] /\
    Instances createOpts = []) as Run.
  { eexists _, _. split; [vm_compute; reflexivity|]. split; reflexivity. }
  split; [reflexivity|]. split; [|exact Run].
  destruct Run as (createOpts & st' & E & _).
  intros (diags & E' & He). rewrite E in E'. injection E' as <- _.
  discriminate He.
Defined.

(** The same kind of configuration, seen through the amended statement:
    the shard of size 0 adds nothing to the request that is sent. *)
Lemma create_validation_witness :
  exists createOpts more,
    calls (applyCreate (raw_of [raw_shard "s1" 0; raw_shard "s2" 2])
             (state_of [] declared_BA)).2
    = CallCreate createOpts :: more /\
    Instances createOpts =
      replicate 2 (shard_descriptor "key-1" (shard_of "s2" 2)).
Proof.
  apply (proj2 (create_validation
                  (raw_of [raw_shard "s1" 0; raw_shard "s2" 2])
                  (state_of [] declared_BA))).
  - reflexivity.
  - by eexists.
  - repeat split; try (by left); try (by right; eexists).
    repeat constructor; by left.
  - repeat constructor; vm_compute; congruence.
  - vm_compute; congruence.
  - vm_compute; congruence.
Defined.

(** C2 on the code.  The read path sorts the flattened shards by id
    and then moves the declared ones to the front without reordering
    them: declared shards come in ascending order of id, not in the
    declared order.  With the declared order B, A and a cluster running
    A, B and C it lists A, B, C; and the availability zone it takes
    over by index is then the one of the other shard. *)
Theorem read_order_is_by_id :
  (forall flattened rawShards,
     orderShards flattened rawShards =
     filter (fun f => declared rawShards f = true)
            (sort_Slice shard_id_less flattened)
     ++ filter (fun f => declared rawShards f <> true)
               (sort_Slice shard_id_less flattened)) /\
  (forall flattened,
     StronglySorted (not_after shard_id_less)
       (sort_Slice shard_id_less flattened) /\
     sort_Slice shard_id_less flattened ≡ₚ flattened) /\
  map Shard.shard_id (Cluster.shard (current declared_BA)) = ["B"; "A"] /\
  map (fun sh => (Shard.shard_id sh, Shard.availability_zone sh))
      (Cluster.shard (current declared_BA))
  = [("B", "zone-of-B"); ("A", "zone-of-A")] /\
  map (fun sh => (FlatShard.shard_id sh, FlatShard.size sh,
                  FlatShard.availability_zone sh))
      (readShards remote_ABC declared_BA)
  = [("A", 2, "zone-of-B"); ("B", 1, "zone-of-A"); ("C", 1, "")].
Proof.
  split; [|split; [|split; [|split]]].
  - intros flattened rawShards. apply orderShards_filter.
  - intros flattened. split;
      [apply sort_Slice_sorted | apply sort_Slice_Permutation].
  - reflexivity.
  - reflexivity.
  - vm_compute. reflexivity.
Qed.

(** With the configuration id, the capabilities and the size of shard X
    changing at once and every action succeeding, the actions called
    are attach, apply capabilities, grow X. *)
Lemma update_order_witness :
  actions_of
    (calls (resourceDatabaseClusterWithShardsUpdate (AC := succeeding)
              (state_of remote_ABC three_changes)).2)
  = [ databaseClusterActionUpdateConfiguration;
      databaseClusterActionApplyCapabilities;
      databaseClusterActionGrow "X" ].
Proof.
  destruct (update_order (RE := remote_side) (AC := succeeding)
              (state_of remote_ABC three_changes) client eq_refl)
    as (attempted & E & _ & _ & Hall & Hplan).
  rewrite E, (Hall (fun _ _ => eq_refl)).
  apply (Hplan 1%nat (shard_of "X" 5)); try reflexivity.
  - repeat split; vm_compute; congruence.
  - intros [|[|j]] Hj; [|done|]; repeat split.
Defined.

(** Shard s1 goes from three instances to one with a single id in
    [shrink_options]: two were to be named, so the update ends with the
    shrink-options error and nothing was sent. *)
Lemma grow_shrink_boundary_witness :
  onSizeChange (AC := withShrink silent (fun _ _ w => (None, w))) 0
    (updateCtxOf bad_shrink client) "c1" "s1" (state_of remote_ABC bad_shrink)
  = (Ret (diag_Error
            "invalid shrink options for shard s1 of vkcs_db_cluster_with_shards c1"),
     mkSt remote_ABC
          [CallAction (databaseClusterActionShrink "s1")
                      (updateStateConf bad_shrink client)]
          bad_shrink).
Proof.
  destruct (grow_shrink_boundary (RE := remote_side) silent
              (fun _ _ w => (None, w)) 0 (updateCtxOf bad_shrink client)
              "c1" "s1" (state_of remote_ABC bad_shrink))
    as (_ & _ & _ & H).
  - vm_compute. split; congruence.
  - apply (H eq_refl
             (Shard.mk "s1" 1 ["i1"] "flavor-1" 10 "ceph-ssd" [] [] "az-1" [])).
    + reflexivity.
    + done.
    + vm_compute. congruence.
Defined.




(** States that differ in [shrink_options] only: no action. *)
Lemma shrink_options_only_witness :
  Plan options_only = [] /\
  calls (resourceDatabaseClusterWithShardsUpdate (AC := succeeding)
           (state_of remote_ABC options_only)).2 = [CallGet "c1"].
Proof.
  destruct (shrink_options_only_is_silent (AC := succeeding)
              (state_of remote_ABC options_only)) as (_ & _ & H).
  destruct (H eq_refl) as (P & _ & _).
  split; [exact P|]. vm_compute. reflexivity.
Defined.

End Examples.

Module MoreExamples.
Import Demo DemoImport Unreliable ShardCount.

(** Four instances of three shards, A first: the import lists A with
    two instances, then B and C. *)
Lemma import_shards_witness :
  Z.of_nat (length remote_ABC) <= int_max /\
  map (fun sh => (FlatShard.shard_id sh, FlatShard.size sh))
      (importShards flat remote_ABC)
  = [("A", 2); ("B", 1); ("C", 1)].
Proof.
  split; [vm_compute; congruence|].
  destruct (import_shards flat remote_ABC) as [-> _].
  - vm_compute; congruence.
  - vm_compute. reflexivity.
Defined.

(** The same cluster imported into a state that declares B before A:
    the stored list is A, B, C. *)
Lemma import_success_witness :
  map Shard.shard_id
    (Cluster.shard
       (current (data (importState flat (state_of remote_ABC declared_BA)).2)))
  = ["A"; "B"; "C"].
Proof.
  destruct (import_success flat (state_of remote_ABC declared_BA)
              (importState flat (state_of remote_ABC declared_BA)).2)
    as (c & cluster & w & _ & Hget & _ & ->).
  - vm_compute. reflexivity.
  - cbv zeta in Hget. vm_compute in Hget. injection Hget as <- _.
    vm_compute. reflexivity.
Defined.

Lemma create_negative_size_panics_witness :
  resourceDatabaseClusterWithShardsCreate (state_of [] negative_size)
  = (Panic, state_of [] negative_size).
Proof.
  apply (create_negative_size_panics (state_of [] negative_size) client).
  - reflexivity.
  - by left.
  - right. by eexists.
  - by left.
  - by left.
  - repeat constructor.
  - vm_compute. congruence.
  - right. left. vm_compute. reflexivity.
Defined.

Lemma create_decode_failure_witness :
  resourceDatabaseClusterWithShardsCreate
    (EX := strict_extractors) (RE := timing_out) (RH := strict_read_helpers)
    (mkSt (RE := timing_out) [] [] with_capability)
  = (Ret (diag_Error
            "unable to determine vkcs_db_cluster_with_shards capability"),
     mkSt (RE := timing_out) [] [] with_capability).
Proof.
  apply (create_decode_failure
           (EX := strict_extractors) (RE := timing_out)
           (RH := strict_read_helpers)
           (mkSt (RE := timing_out) [] [] with_capability) tt);
    reflexivity.
Defined.

(** The wait times out: the cluster [cluster-1] was created, and the
    resource data still has the id it had. *)
Lemma create_failure_stores_no_id_witness :
  data (resourceDatabaseClusterWithShardsCreate
          (EX := strict_extractors) (RE := timing_out)
          (RH := strict_read_helpers)
          (mkSt (RE := timing_out) [] [] plain)).2
  = plain.
Proof.
  refine (proj1 (create_failure_stores_no_id
                   (EX := strict_extractors) (RE := timing_out)
                   (RH := strict_read_helpers)
                   (mkSt (RE := timing_out) [] [] plain) tt
                   _ _ "cluster-1" [] eq_refl _ eq_refl _)).
  - vm_compute. reflexivity.
  - left. by eexists.
Defined.

(** Remote shards C, A, B.  Declared as A, B they are paired with their
    own blocks. *)
Lemma declared_order_kept_witness :
  map FlatShard.shard_id
    (take 2 (orderShards [flat "C" []; flat "A" []; flat "B" []]
               [shard_of "A" 1; shard_of "B" 1]))
  = ["A"; "B"].
Proof.
  pose proof (declared_order_kept_iff_ascending
                [flat "C" []; flat "A" []; flat "B" []]
                [shard_of "A" 1; shard_of "B" 1]) as H.
  destruct H as [_ H].
  - apply (bool_decide_unpack _). vm_compute. exact I.
  - intros s Hs. apply (bool_decide_unpack _).
    repeat (apply elem_of_cons in Hs as [->|Hs]; [vm_compute; exact I|]).
    by apply elem_of_nil in Hs.
  - vm_compute. reflexivity.
Defined.

(** Declared as B, A or as A, B: the same list. *)
Lemma read_order_ignores_declaration_order_witness :
  orderShards [flat "C" []; flat "A" []; flat "B" []]
    [shard_of "B" 1; shard_of "A" 1]
  = orderShards [flat "A" []; flat "B" []; flat "C" []]
      [shard_of "A" 1; shard_of "B" 1].
Proof.
  apply read_order_ignores_declaration_order.
  - apply (bool_decide_unpack _). vm_compute. exact I.
  - apply (bool_decide_unpack _). vm_compute. exact I.
  - intros id. cbn [map Shard.shard_id shard_of shard_in].
    rewrite !elem_of_cons. tauto.
Defined.


(** The state has no autoexpand block before the read and none after
    it. *)
Lemma read_keeps_undeclared_witness :
  Cluster.disk_autoexpand
    (current (data (resourceDatabaseClusterWithShardsRead
                      (state_of remote_ABC declared_BA)).2)) = [].
Proof.
  edestruct (read_keeps_undeclared (state_of remote_ABC declared_BA) client)
    as (_ & _ & _ & _ & _ & _ & _ & _ & _ & _ & _ & _ & _ & H & _);
    [reflexivity..|].
  by apply H.
Defined.

(** Shard B leaves the declaration: no action is entered. *)
Lemma update_sends_nothing_for_removed_shards_witness :
  actions_of
    (calls (resourceDatabaseClusterWithShardsUpdate (AC := succeeding)
              (state_of remote_ABC block_removed)).2)
  = [].
Proof.
  destruct (update_sends_nothing_for_removed_shards (AC := succeeding)
              (state_of remote_ABC block_removed) client [shard_of "B" 1]
              eq_refl eq_refl) as [_ ->].
  reflexivity.
Defined.

(** Shard B enters the declaration: its volume and its flavor are
    resized and it is grown, as if it were there. *)
Lemma update_of_appended_shard_witness :
  actions_of
    (calls (updateActions (AC := succeeding)
              (state_of remote_ABC block_appended)).2)
  = [ databaseClusterActionResizeVolume "B";
      databaseClusterActionResizeFlavor "B";
      databaseClusterActionGrow "B" ].
Proof.
  rewrite (update_of_appended_shard (AC := succeeding)
             (state_of remote_ABC block_appended) client
             [shard_of "A" 2] (shard_of "B" 1) eq_refl eq_refl eq_refl).
  - vm_compute. reflexivity.
  - vm_compute. split; congruence.
Defined.

End MoreExamples.

Module ComputeExamples.
Import Compute ComputeDemo.

(** With at least 2048 MB asked for, the flavor with 2048 MB and the
    smaller disk is found. *)
Lemma flavor_found_witness :
  Id (data (dataSourceComputeFlavorRead (KO := Demo.constants)
              (state_of catalogue at_least_2048)).2) = "f4".
Proof.
  destruct (flavor_found (KO := Demo.constants)
              (state_of catalogue at_least_2048)
              (dataSourceComputeFlavorRead (KO := Demo.constants)
                 (state_of catalogue at_least_2048)).2 [])
    as (c & pages & w & flavors & flavor & _ & _ & _ & _ & _ & _ & _ & _).
  - reflexivity.
  - vm_compute. reflexivity.
  - vm_compute. reflexivity.
  - vm_compute. reflexivity.
Defined.

(** A name next to the id of f3 changes nothing. *)
Lemma flavor_id_ignores_criteria_witness :
  (dataSourceComputeFlavorRead (KO := Demo.constants)
     (state_of catalogue (by_id "small"))).1
  = (dataSourceComputeFlavorRead (KO := Demo.constants)
       (state_of catalogue (by_id ""))).1.
Proof.
  destruct (flavor_id_ignores_criteria (KO := Demo.constants)
              (state_of catalogue (by_id "small"))
              (state_of catalogue (by_id ""))) as [H _];
    [done|reflexivity..|exact H].
Defined.

Lemma flavor_warnings_first_witness :
  exists rest,
    (dataSourceComputeFlavorRead (KO := Demo.constants)
       (state_of catalogue no_criteria)).1
    = Some (warnings (NewRequiredFlavorFromResourceData no_criteria) ++ rest).
Proof.
  apply (flavor_warnings_first (KO := Demo.constants)
           (state_of catalogue no_criteria) client
           (map (fun f => FlavorExt.mk f (Some ∅)) catalogue) catalogue
           (map (fun f => FlavorExt.mk f (Some ∅)) catalogue));
    vm_compute; reflexivity.
Defined.

(** Nothing asked for, four flavors listed: the result is ambiguous. *)
Lemma flavor_lookup_errors_witness :
  (dataSourceComputeFlavorRead (KO := Demo.constants)
     (state_of catalogue no_criteria)).1
  = Some (diag_Error "Your query returned more than one result. Please try a more specific search criteria").
Proof.
  destruct (flavor_lookup_errors (KO := Demo.constants)
              (state_of catalogue no_criteria) client
              (map (fun f => FlavorExt.mk f (Some ∅)) catalogue) catalogue
              (map (fun f => FlavorExt.mk f (Some ∅)) catalogue))
    as [_ H]; [vm_compute; reflexivity..|].
  rewrite H; [reflexivity| |reflexivity..].
  rewrite <- FlavorsLoop_meets.
  apply (bool_decide_unpack _). vm_compute. exact I.
Defined.

End ComputeExamples.
